(** * GPTQ Marlin quantization layout: a shallow embedding of
    [vllm/model_executor/layers/quantization/gptq_marlin.py]

    The Python module decides how GPTQ-packed weights, group scales,
    zero points and activation-order indices are shaped, sharded and
    finalized for the Marlin kernels.  Integers are [Z] (Python ints are
    unbounded; the int32 conversion of sort indices is written out),
    Python exceptions are values of [exn], functions that touch shared
    objects or call external kernels run in a state-and-exception monad,
    and the functions this module imports from elsewhere (torch, the
    Marlin kernels and utilities) are fields of interface classes. *)

From stdpp Require Import gmap strings list sorting.

Open Scope Z_scope.

(** ** Exceptions and results *)

Inductive exn :=
  | ValueError
  | ZeroDivisionError
  | IndexError
  | RuntimeError
  | AttributeError
  | NotImplementedError
  | AssertionError.

Inductive result (A : Type) :=
  | Ok (a : A)
  | Raise (e : exn).
Arguments Ok {A} a.
Arguments Raise {A} e.

#[global] Instance exn_eq_dec : EqDecision exn.
Proof. solve_decision. Defined.

#[global] Instance result_ret : MRet result := @Ok.
#[global] Instance result_bind : MBind result := fun A B f m =>
  match m with
  | Ok a => f a
  | Raise e => Raise e
  end.
#[global] Instance result_fmap : FMap result := fun A B f m =>
  match m with
  | Ok a => Ok (f a)
  | Raise e => Raise e
  end.

Definition is_Ok {A} (r : result A) : Prop := exists a, r = Ok a.
Definition is_Raise {A} (r : result A) : Prop := exists e, r = Raise e.

(** A computation over a mutable state [S]: the state survives a raise,
    as Python objects mutated before an exception stay mutated. *)
Definition M (S A : Type) : Type := S -> result A * S.

#[global] Instance M_ret {S} : MRet (M S) := fun A a s => (Ok a, s).
#[global] Instance M_bind {S} : MBind (M S) := fun A B f m s =>
  match m s with
  | (Ok a, s') => f a s'
  | (Raise e, s') => (Raise e, s')
  end.

Definition lift {S A} (r : result A) : M S A := fun s => (r, s).
Definition get_state {S} : M S S := fun s => (Ok s, s).
Definition modify {S} (f : S -> S) : M S () := fun s => (Ok (), f s).

(** ** Python integer helpers *)

(** [a // b] on ints: floor division, [ZeroDivisionError] on [b = 0].
    [Z.div] rounds towards minus infinity like Python. *)
Definition floordiv (a b : Z) : result Z :=
  if decide (b = 0) then Raise ZeroDivisionError else Ok (a `div` b).

(** [sum(l)] on a list of ints. *)
Definition sum (l : list Z) : Z := foldr Z.add 0 l.

(** [.to(torch.int32)] on an int64 value: two's complement wrap-around. *)
Definition to_int32 (x : Z) : Z := (x + 2 ^ 31) `mod` 2 ^ 32 - 2 ^ 31.

(** ** Tensors *)

Inductive dtype := int32 | float16 | bfloat16 | float32.

#[global] Instance dtype_eq_dec : EqDecision dtype.
Proof. solve_decision. Defined.

(** Weight, scale and zero-point tensors are followed by shape and
    element type only: this module never reads their elements. *)
Record tensor := Tensor { shape : list Z; tensor_dtype : dtype }.

#[global] Instance tensor_eq_dec : EqDecision tensor.
Proof. solve_decision. Defined.

(** [torch.empty] of the given sizes: a negative size is a RuntimeError. *)
Definition torch_empty (sizes : list Z) (dt : dtype) : result tensor :=
  if decide (Forall (fun d => 0 <= d) sizes)
  then Ok (Tensor sizes dt) else Raise RuntimeError.

(** [t.shape[i]]. *)
Definition shape_at (t : tensor) (i : nat) : result Z :=
  match shape t !! i with
  | Some d => Ok d
  | None => Raise IndexError
  end.

(** Two-dimensional int32 index tensors ([g_idx] and sort indices) are
    kept with their elements, one row per expert.  A tensor of shape
    [(num_experts, 0)] is [num_experts] empty rows. *)
Abbreviation itensor2 := (list (list Z)).

(** [torch.empty((n, 0), dtype=torch.int32)]: no element to initialise. *)
Definition torch_empty_n_0 (n : nat) : itensor2 := replicate n [].

(** ** Scalar types *)

(** Modelled from the spec: [vllm.scalar_type] is not among the sources.
    A packed integer encoding is known by its bit width and bias;
    [uint4b8] and [uint8b128] are the two encodings [TYPE_MAP] names,
    4-bit and 8-bit unsigned with biases 8 and 128. *)
Record ScalarType := { size_bits : Z; bias : Z }.

#[global] Instance ScalarType_eq_dec : EqDecision ScalarType.
Proof. solve_decision. Defined.

Module scalar_types.
Definition uint4b8 : ScalarType := {| size_bits := 4; bias := 8 |}.
Definition uint8b128 : ScalarType := {| size_bits := 8; bias := 128 |}.
End scalar_types.

(** ** GPTQMarlinConfig *)

(** Values of the [dynamic] override dictionaries: [int] or [bool]. *)
Inductive value := VInt (z : Z) | VBool (b : bool).

#[global] Instance value_eq_dec : EqDecision value.
Proof. solve_decision. Defined.

(** A Python [dict] read in insertion order. *)
Abbreviation pydict V := (list (string * V)).

Module GPTQMarlinConfig.

Record t := mk {
  dynamic : pydict (pydict value);
  weight_bits : Z;
  is_sym : bool;
  pack_factor : Z;
  group_size : Z;
  desc_act : bool;
  lm_head_quantized : bool;
  full_config : pydict value;
  quant_type : ScalarType
}.

(** [(num_bits, is_sym) -> quant_type] *)
Definition TYPE_MAP : gmap (Z * bool) ScalarType :=
  {[ (4, true) := scalar_types.uint4b8;
     (8, true) := scalar_types.uint8b128 ]}.

Definition __init__ (weight_bits group_size : Z) (desc_act is_sym : bool)
    (lm_head_quantized : bool) (dynamic : pydict (pydict value))
    (full_config : pydict value) : result t :=
  let desc_act :=
    if desc_act && bool_decide (group_size = -1) then false else desc_act in
  pack_factor ← floordiv 32 weight_bits;
  match TYPE_MAP !! (weight_bits, is_sym) with
  | None => Raise ValueError
  | Some qt =>
      Ok {| dynamic := dynamic;
            weight_bits := weight_bits;
            is_sym := is_sym;
            pack_factor := pack_factor;
            group_size := group_size;
            desc_act := desc_act;
            lm_head_quantized := lm_head_quantized;
            full_config := full_config;
            quant_type := qt |}
  end.

End GPTQMarlinConfig.

(** ** GPTQMarlinLinearMethod *)

(** [MPLinearLayerConfig], the request handed to the kernel chooser. *)
Record MPLinearLayerConfig := {
  full_weight_shape : Z * Z;
  partition_weight_shape : Z * Z;
  weight_type : ScalarType;
  act_type : dtype;
  mp_group_size : Z;
  zero_points : bool;
  has_g_idx : bool
}.

(** The parameter classes of [vllm.model_executor.parameter], with the
    attributes [create_weights] sets on them. *)
Inductive parameter_class :=
  | PackedvLLMParameter
  | RowvLLMParameter
  | ChannelQuantScaleParameter
  | GroupQuantScaleParameter
  | PackedColumnParameter.

Record parameter := {
  param_class : parameter_class;
  data : tensor;
  input_dim : option Z;
  output_dim : option Z;
  packed_dim : option Z;
  packed_factor : option Z
}.

(** The kernel object kept in [self.kernel]. *)
Record mp_kernel := {
  kernel_name : string;
  kernel_config : MPLinearLayerConfig;
  w_q_param_name : string;
  w_s_param_name : string;
  w_zp_param_name : string;
  w_gidx_param_name : string
}.

(** A [torch.nn.Module] seen through its registered parameters. *)
Abbreviation module_params := (gmap string parameter).

(** What the linear method imports from the Marlin utilities and the
    mixed-precision kernels; none of it is defined in this module. *)
Class LinearImports := {
  verify_marlin_supported : ScalarType -> Z -> result ();
  marlin_repeat_scales_on_all_ranks : bool -> Z -> bool -> bool;
  choose_mp_linear_kernel : MPLinearLayerConfig -> result string;
  kernel_process_weights_after_loading :
    mp_kernel -> module_params -> result module_params
}.

Module GPTQMarlinLinearMethod.

(** The method object, the layer it is creating weights for, and the
    class attribute [_kernel_backends_being_used]. *)
Record t := {
  quant_config : GPTQMarlinConfig.t;
  kernel : option mp_kernel
}.

Record state := {
  self : t;
  layer : module_params;
  _kernel_backends_being_used : gset string
}.

Definition set_layer (f : module_params -> module_params) (s : state) : state :=
  {| self := self s; layer := f (layer s);
     _kernel_backends_being_used := _kernel_backends_being_used s |}.

Definition set_kernel (k : mp_kernel) (s : state) : state :=
  {| self := {| quant_config := quant_config (self s); kernel := Some k |};
     layer := layer s;
     _kernel_backends_being_used := _kernel_backends_being_used s |}.

Definition add_backend (name : string) (s : state) : state :=
  {| self := self s; layer := layer s;
     _kernel_backends_being_used := {[ name ]} ∪ _kernel_backends_being_used s |}.

Definition register_parameter (name : string) (p : parameter) : M state () :=
  modify (set_layer (<[name := p]>)).

Definition __init__ `{LinearImports} (quant_config : GPTQMarlinConfig.t)
    : result t :=
  _ ← verify_marlin_supported (GPTQMarlinConfig.quant_type quant_config)
        (GPTQMarlinConfig.group_size quant_config);
  Ok {| quant_config := quant_config; kernel := None |}.

(** The group size the scale rows are counted with ("Normalize
    group_size"): the configured one, or the full input size when the
    configuration says -1. *)
Definition effective_group_size (cfg : GPTQMarlinConfig.t) (input_size : Z) : Z :=
  if decide (GPTQMarlinConfig.group_size cfg ≠ -1)
  then GPTQMarlinConfig.group_size cfg else input_size.

Definition create_weights `{LinearImports}
    (input_size_per_partition : Z) (output_partition_sizes : list Z)
    (input_size output_size : Z) (params_dtype : dtype) : M state () :=
  st ← get_state;
  let cfg := quant_config (self st) in
  let output_size_per_partition := sum output_partition_sizes in
  let is_row_parallel := bool_decide (input_size ≠ input_size_per_partition) in
  let mp_linear_kernel_config :=
    {| full_weight_shape := (input_size, output_size);
       partition_weight_shape :=
         (input_size_per_partition, output_size_per_partition);
       weight_type := GPTQMarlinConfig.quant_type cfg;
       act_type := params_dtype;
       mp_group_size := GPTQMarlinConfig.group_size cfg;
       zero_points := false;
       has_g_idx := GPTQMarlinConfig.desc_act cfg |} in
  kernel_type ← lift (choose_mp_linear_kernel mp_linear_kernel_config);
  _ ← (if decide (kernel_type ∈ _kernel_backends_being_used st)
       then mret () else modify (add_backend kernel_type));
  (* Normalize group_size *)
  let group_size := effective_group_size cfg input_size in
  (* Determine sharding *)
  '(scales_and_zp_input_dim, scales_and_zp_size) ← lift (
    if marlin_repeat_scales_on_all_ranks (GPTQMarlinConfig.desc_act cfg)
         (GPTQMarlinConfig.group_size cfg) is_row_parallel
    then n ← floordiv input_size group_size; Ok (None, n)
    else n ← floordiv input_size_per_partition group_size; Ok (Some 0, n));
  (* Quantized weights *)
  qweight_rows ← lift (floordiv input_size_per_partition
                         (GPTQMarlinConfig.pack_factor cfg));
  qweight_data ← lift (torch_empty [qweight_rows; output_size_per_partition] int32);
  let qweight :=
    {| param_class := PackedvLLMParameter; data := qweight_data;
       input_dim := Some 0; output_dim := Some 1; packed_dim := Some 0;
       packed_factor := Some (GPTQMarlinConfig.pack_factor cfg) |} in
  (* Activation order *)
  g_idx_data ← lift (torch_empty [input_size_per_partition] int32);
  let g_idx :=
    {| param_class := RowvLLMParameter; data := g_idx_data;
       input_dim := Some 0; output_dim := None; packed_dim := None;
       packed_factor := None |} in
  qzeros_cols ← lift (floordiv output_size_per_partition
                        (GPTQMarlinConfig.pack_factor cfg));
  qzeros_data ← lift (torch_empty [scales_and_zp_size; qzeros_cols] int32);
  scales_data ← lift (torch_empty
                        [scales_and_zp_size; output_size_per_partition]
                        params_dtype);
  let '(scales, qzeros) :=
    match scales_and_zp_input_dim with
    | None =>
        ({| param_class := ChannelQuantScaleParameter; data := scales_data;
            input_dim := None; output_dim := Some 1; packed_dim := None;
            packed_factor := None |},
         {| param_class := PackedColumnParameter; data := qzeros_data;
            input_dim := None; output_dim := Some 1; packed_dim := Some 1;
            packed_factor := Some (GPTQMarlinConfig.pack_factor cfg) |})
    | Some d =>
        ({| param_class := GroupQuantScaleParameter; data := scales_data;
            input_dim := Some d; output_dim := Some 1; packed_dim := None;
            packed_factor := None |},
         {| param_class := PackedvLLMParameter; data := qzeros_data;
            input_dim := Some d; output_dim := Some 1; packed_dim := Some 1;
            packed_factor := Some (GPTQMarlinConfig.pack_factor cfg) |})
    end in
  _ ← register_parameter "qweight" qweight;
  _ ← register_parameter "g_idx" g_idx;
  _ ← register_parameter "scales" scales;
  _ ← register_parameter "qzeros" qzeros;
  modify (set_kernel
    {| kernel_name := kernel_type;
       kernel_config := mp_linear_kernel_config;
       w_q_param_name := "qweight";
       w_s_param_name := "scales";
       w_zp_param_name := "qzeros";
       w_gidx_param_name := "g_idx" |}).

(** [self.kernel.process_weights_after_loading(layer)]: the whole
    finalize step is the kernel's. *)
Definition process_weights_after_loading `{LinearImports} : M state () :=
  st ← get_state;
  match kernel (self st) with
  | None => lift (Raise AttributeError)
  | Some k =>
      layer' ← lift (kernel_process_weights_after_loading k (layer st));
      modify (set_layer (fun _ => layer'))
  end.

End GPTQMarlinLinearMethod.

(** ** GPTQMarlinMoEMethod *)

(** [FusedMoeWeightScaleSupported] *)
Inductive FusedMoeWeightScaleSupported := GROUP | CHANNEL.

(** The [FusedMoE] layer as this module sees it: the attribute it reads
    ([intermediate_size_per_partition]) and the parameters and weight
    attributes [create_weights] registers. *)
Record moe_layer := {
  intermediate_size_per_partition : Z;
  w13_qweight : tensor;
  w2_qweight : tensor;
  w13_scales : tensor;
  w2_scales : tensor;
  w13_qzeros : tensor;
  w2_qzeros : tensor;
  w13_g_idx : itensor2;
  w2_g_idx : itensor2;
  w13_g_idx_sort_indices : itensor2;
  w2_g_idx_sort_indices : itensor2;
  workspace : tensor;
  (* weight attributes *)
  quant_method : FusedMoeWeightScaleSupported;
  is_transposed : bool;
  w2_scales_load_full_w2 : bool;
  w2_qzeros_load_full_w2 : bool
}.

(** Arguments of [apply]; the optional ones carry their defaults in
    [default_apply_args]. *)
Record apply_args := {
  x : tensor;
  router_logits : tensor;
  top_k : Z;
  renormalize : bool;
  use_grouped_topk : bool;
  topk_group : option Z;
  num_expert_group : option Z;
  global_num_experts : Z;
  expert_map : option tensor;
  custom_routing_function : option string;
  scoring_func : string;
  e_score_correction_bias : option tensor;
  apply_router_weight_on_input : bool;
  activation : string;
  enable_eplb : bool;
  expert_load_view : option tensor;
  logical_to_physical_map : option tensor;
  logical_replica_count : option tensor
}.

Definition default_apply_args (x router_logits : tensor) (top_k : Z)
    (renormalize : bool) : apply_args :=
  {| x := x; router_logits := router_logits; top_k := top_k;
     renormalize := renormalize;
     use_grouped_topk := false; topk_group := None;
     num_expert_group := None; global_num_experts := -1;
     expert_map := None; custom_routing_function := None;
     scoring_func := "softmax"; e_score_correction_bias := None;
     apply_router_weight_on_input := false;
     activation := "silu"; enable_eplb := false;
     expert_load_view := None; logical_to_physical_map := None;
     logical_replica_count := None |}.

(** Arguments of [torch.ops.vllm.fused_marlin_moe] as [apply] passes them. *)
Record fused_marlin_moe_args := {
  fm_hidden_states : tensor;
  fm_w1 : tensor;
  fm_w2 : tensor;
  fm_w1_scale : tensor;
  fm_w2_scale : tensor;
  fm_gating_output : tensor;
  fm_topk_weights : tensor;
  fm_topk_ids : tensor;
  fm_quant_type : ScalarType;
  fm_apply_router_weight_on_input : bool;
  fm_global_num_experts : Z;
  fm_expert_map : option tensor;
  fm_g_idx1 : itensor2;
  fm_g_idx2 : itensor2;
  fm_sort_indices1 : itensor2;
  fm_sort_indices2 : itensor2;
  fm_workspace : tensor;
  fm_is_k_full : bool
}.

(** Calls that leave this module for a kernel or a routing function,
    in the order they are made. *)
Inductive call :=
  | Call_gptq_marlin_moe_repack
      (b_q_weight : tensor) (perm : itensor2) (size_k size_n num_bits : Z)
  | Call_marlin_moe_permute_scales
      (s : tensor) (size_k size_n group_size : Z)
  | Call_select_experts (a : apply_args)
  | Call_fused_marlin_moe (a : fused_marlin_moe_args).

(** What the MoE method imports: torch's [argsort] and uninitialised
    storage, the Marlin repack and scale-permute kernels, expert
    selection and the fused kernel. *)
Class MoEImports := {
  uninit : Z;
  argsort : list Z -> list Z;
  gptq_marlin_moe_repack : tensor -> itensor2 -> Z -> Z -> Z -> result tensor;
  marlin_moe_permute_scales : tensor -> Z -> Z -> Z -> result tensor;
  marlin_make_workspace_new : Z -> tensor;
  select_experts : apply_args -> result (tensor * tensor);
  fused_marlin_moe : fused_marlin_moe_args -> result tensor
}.

(** *** Index tensors *)

(** [torch.empty(n, m, dtype=torch.int32)] with its elements: whatever
    the storage held, written [uninit]. *)
Definition torch_empty2 `{MoEImports} (n m : Z) : result itensor2 :=
  if decide (0 <= n /\ 0 <= m)
  then Ok (replicate (Z.to_nat n) (replicate (Z.to_nat m) uninit))
  else Raise RuntimeError.

(** [torch.empty_like(t)] *)
Definition torch_empty_like `{MoEImports} (t : itensor2) : itensor2 :=
  (fun row => replicate (length row) uninit) <$> t.

(** [t[e]] for a row index [e] in [range(...)]. *)
Definition row_at (t : itensor2) (e : nat) : result (list Z) :=
  match t !! e with
  | Some row => Ok row
  | None => Raise IndexError
  end.

(** [t[e] = v]: the row must exist and [v] must have its length
    (broadcasting a shorter [v] is left out: the rows assigned here come
    from [argsort] and a gather, as long as the row they replace). *)
Definition row_assign (t : itensor2) (e : nat) (v : list Z) : result itensor2 :=
  match t !! e with
  | Some old =>
      if decide (length old = length v) then Ok (<[e := v]> t)
      else Raise RuntimeError
  | None => Raise IndexError
  end.

(** [row[i]] for one integer index: negative indices count from the
    end, anything else out of range is an IndexError. *)
Definition index_select (row : list Z) (i : Z) : result Z :=
  let n := Z.of_nat (length row) in
  let j := if decide (i < 0) then i + n else i in
  if decide (0 <= j < n) then
    match row !! Z.to_nat j with
    | Some v => Ok v
    | None => Raise IndexError
    end
  else Raise IndexError.

(** [row[idx]] for an index tensor [idx]: a gather. *)
Definition gather (row idx : list Z) : result (list Z) :=
  mapM (index_select row) idx.

(** [for x in xs: acc = body x acc], stopping at the first raise. *)
Fixpoint for_each {A B} (body : A -> B -> result B) (xs : list A) (acc : B)
    : result B :=
  match xs with
  | [] => Ok acc
  | x0 :: xs' => acc' ← body x0 acc; for_each body xs' acc'
  end.

(** *** Replacing a parameter of the layer

    [replace_parameter(layer, name, new)] and attribute assignment, one
    function per parameter that the finalize step replaces. *)

Definition replace_w13_qweight (new : tensor) (l : moe_layer) : moe_layer :=
  {| intermediate_size_per_partition := intermediate_size_per_partition l;
     w13_qweight := new;
     w2_qweight := w2_qweight l;
     w13_scales := w13_scales l;
     w2_scales := w2_scales l;
     w13_qzeros := w13_qzeros l;
     w2_qzeros := w2_qzeros l;
     w13_g_idx := w13_g_idx l;
     w2_g_idx := w2_g_idx l;
     w13_g_idx_sort_indices := w13_g_idx_sort_indices l;
     w2_g_idx_sort_indices := w2_g_idx_sort_indices l;
     workspace := workspace l;
     quant_method := quant_method l;
     is_transposed := is_transposed l;
     w2_scales_load_full_w2 := w2_scales_load_full_w2 l;
     w2_qzeros_load_full_w2 := w2_qzeros_load_full_w2 l |}.

Definition replace_w2_qweight (new : tensor) (l : moe_layer) : moe_layer :=
  {| intermediate_size_per_partition := intermediate_size_per_partition l;
     w13_qweight := w13_qweight l;
     w2_qweight := new;
     w13_scales := w13_scales l;
     w2_scales := w2_scales l;
     w13_qzeros := w13_qzeros l;
     w2_qzeros := w2_qzeros l;
     w13_g_idx := w13_g_idx l;
     w2_g_idx := w2_g_idx l;
     w13_g_idx_sort_indices := w13_g_idx_sort_indices l;
     w2_g_idx_sort_indices := w2_g_idx_sort_indices l;
     workspace := workspace l;
     quant_method := quant_method l;
     is_transposed := is_transposed l;
     w2_scales_load_full_w2 := w2_scales_load_full_w2 l;
     w2_qzeros_load_full_w2 := w2_qzeros_load_full_w2 l |}.

Definition replace_w13_scales (new : tensor) (l : moe_layer) : moe_layer :=
  {| intermediate_size_per_partition := intermediate_size_per_partition l;
     w13_qweight := w13_qweight l;
     w2_qweight := w2_qweight l;
     w13_scales := new;
     w2_scales := w2_scales l;
     w13_qzeros := w13_qzeros l;
     w2_qzeros := w2_qzeros l;
     w13_g_idx := w13_g_idx l;
     w2_g_idx := w2_g_idx l;
     w13_g_idx_sort_indices := w13_g_idx_sort_indices l;
     w2_g_idx_sort_indices := w2_g_idx_sort_indices l;
     workspace := workspace l;
     quant_method := quant_method l;
     is_transposed := is_transposed l;
     w2_scales_load_full_w2 := w2_scales_load_full_w2 l;
     w2_qzeros_load_full_w2 := w2_qzeros_load_full_w2 l |}.

Definition replace_w2_scales (new : tensor) (l : moe_layer) : moe_layer :=
  {| intermediate_size_per_partition := intermediate_size_per_partition l;
     w13_qweight := w13_qweight l;
     w2_qweight := w2_qweight l;
     w13_scales := w13_scales l;
     w2_scales := new;
     w13_qzeros := w13_qzeros l;
     w2_qzeros := w2_qzeros l;
     w13_g_idx := w13_g_idx l;
     w2_g_idx := w2_g_idx l;
     w13_g_idx_sort_indices := w13_g_idx_sort_indices l;
     w2_g_idx_sort_indices := w2_g_idx_sort_indices l;
     workspace := workspace l;
     quant_method := quant_method l;
     is_transposed := is_transposed l;
     w2_scales_load_full_w2 := w2_scales_load_full_w2 l;
     w2_qzeros_load_full_w2 := w2_qzeros_load_full_w2 l |}.

Definition replace_w13_g_idx (new : itensor2) (l : moe_layer) : moe_layer :=
  {| intermediate_size_per_partition := intermediate_size_per_partition l;
     w13_qweight := w13_qweight l;
     w2_qweight := w2_qweight l;
     w13_scales := w13_scales l;
     w2_scales := w2_scales l;
     w13_qzeros := w13_qzeros l;
     w2_qzeros := w2_qzeros l;
     w13_g_idx := new;
     w2_g_idx := w2_g_idx l;
     w13_g_idx_sort_indices := w13_g_idx_sort_indices l;
     w2_g_idx_sort_indices := w2_g_idx_sort_indices l;
     workspace := workspace l;
     quant_method := quant_method l;
     is_transposed := is_transposed l;
     w2_scales_load_full_w2 := w2_scales_load_full_w2 l;
     w2_qzeros_load_full_w2 := w2_qzeros_load_full_w2 l |}.

Definition replace_w2_g_idx (new : itensor2) (l : moe_layer) : moe_layer :=
  {| intermediate_size_per_partition := intermediate_size_per_partition l;
     w13_qweight := w13_qweight l;
     w2_qweight := w2_qweight l;
     w13_scales := w13_scales l;
     w2_scales := w2_scales l;
     w13_qzeros := w13_qzeros l;
     w2_qzeros := w2_qzeros l;
     w13_g_idx := w13_g_idx l;
     w2_g_idx := new;
     w13_g_idx_sort_indices := w13_g_idx_sort_indices l;
     w2_g_idx_sort_indices := w2_g_idx_sort_indices l;
     workspace := workspace l;
     quant_method := quant_method l;
     is_transposed := is_transposed l;
     w2_scales_load_full_w2 := w2_scales_load_full_w2 l;
     w2_qzeros_load_full_w2 := w2_qzeros_load_full_w2 l |}.

Definition replace_w13_g_idx_sort_indices (new : itensor2) (l : moe_layer) : moe_layer :=
  {| intermediate_size_per_partition := intermediate_size_per_partition l;
     w13_qweight := w13_qweight l;
     w2_qweight := w2_qweight l;
     w13_scales := w13_scales l;
     w2_scales := w2_scales l;
     w13_qzeros := w13_qzeros l;
     w2_qzeros := w2_qzeros l;
     w13_g_idx := w13_g_idx l;
     w2_g_idx := w2_g_idx l;
     w13_g_idx_sort_indices := new;
     w2_g_idx_sort_indices := w2_g_idx_sort_indices l;
     workspace := workspace l;
     quant_method := quant_method l;
     is_transposed := is_transposed l;
     w2_scales_load_full_w2 := w2_scales_load_full_w2 l;
     w2_qzeros_load_full_w2 := w2_qzeros_load_full_w2 l |}.

Definition replace_w2_g_idx_sort_indices (new : itensor2) (l : moe_layer) : moe_layer :=
  {| intermediate_size_per_partition := intermediate_size_per_partition l;
     w13_qweight := w13_qweight l;
     w2_qweight := w2_qweight l;
     w13_scales := w13_scales l;
     w2_scales := w2_scales l;
     w13_qzeros := w13_qzeros l;
     w2_qzeros := w2_qzeros l;
     w13_g_idx := w13_g_idx l;
     w2_g_idx := w2_g_idx l;
     w13_g_idx_sort_indices := w13_g_idx_sort_indices l;
     w2_g_idx_sort_indices := new;
     workspace := workspace l;
     quant_method := quant_method l;
     is_transposed := is_transposed l;
     w2_scales_load_full_w2 := w2_scales_load_full_w2 l;
     w2_qzeros_load_full_w2 := w2_qzeros_load_full_w2 l |}.

(** The layer being worked on and the external calls made so far. *)
Record moe_state := { layer : moe_layer; trace : list call }.

Definition update_layer (f : moe_layer -> moe_layer) : M moe_state () :=
  modify (fun st => {| layer := f (layer st); trace := trace st |}).

(** An external call: recorded, then its outcome is the callee's. *)
Definition call_ext {A} (c : call) (r : result A) : M moe_state A :=
  fun st => (r, {| layer := layer st; trace := trace st ++ [c] |}).

(** The four tensors the activation-order loop fills. *)
Record sort_acc := {
  acc_w13_g_idx_sort_indices : itensor2;
  acc_w2_g_idx_sort_indices : itensor2;
  acc_w13_sorted_g_idx : itensor2;
  acc_w2_sorted_g_idx : itensor2
}.

Module GPTQMarlinMoEMethod.

Record t := {
  quant_config : GPTQMarlinConfig.t;
  quant_type : ScalarType;
  is_k_full : option bool
}.

Definition __init__ (quant_config : GPTQMarlinConfig.t) : result t :=
  let bits := size_bits (GPTQMarlinConfig.quant_type quant_config) in
  if decide (bits = 4) then
    Ok {| quant_config := quant_config;
          quant_type := scalar_types.uint4b8; is_k_full := None |}
  else if decide (bits = 8) then
    Ok {| quant_config := quant_config;
          quant_type := scalar_types.uint8b128; is_k_full := None |}
  else Raise ValueError.

(** The scale row counts of [create_weights] and the strategy that goes
    with them: [(scales_size13, scales_size2, strategy)]. *)
Definition scales_sizes (cfg : GPTQMarlinConfig.t)
    (hidden_size intermediate_size_per_partition intermediate_size_full : Z)
    : result (Z * Z * FusedMoeWeightScaleSupported) :=
  if decide (GPTQMarlinConfig.group_size cfg ≠ -1) then
    scales_size13 ← floordiv hidden_size (GPTQMarlinConfig.group_size cfg);
    let w2_scales_size :=
      if GPTQMarlinConfig.desc_act cfg
      then intermediate_size_full else intermediate_size_per_partition in
    scales_size2 ← floordiv w2_scales_size (GPTQMarlinConfig.group_size cfg);
    Ok (scales_size13, scales_size2, GROUP)
  else Ok (1, 1, CHANNEL).

(** [create_weights]: [layer_intermediate_size_per_partition] is the
    attribute the layer already has; [intermediate_size_full] is popped
    from the extra weight attributes. *)
Definition create_weights `{MoEImports} (self : t)
    (layer_intermediate_size_per_partition : Z)
    (num_experts hidden_size intermediate_size_per_partition : Z)
    (params_dtype : dtype) (intermediate_size_full : Z)
    : result (t * moe_layer) :=
  let cfg := quant_config self in
  let pack_factor := GPTQMarlinConfig.pack_factor cfg in
  let is_k_full :=
    negb (GPTQMarlinConfig.desc_act cfg)
    || bool_decide (intermediate_size_per_partition = intermediate_size_full) in
  '(scales_size13, scales_size2, strategy) ←
    scales_sizes cfg hidden_size intermediate_size_per_partition
      intermediate_size_full;
  (* Fused gate_up_proj (column parallel) *)
  w13_rows ← floordiv hidden_size pack_factor;
  w13_qweight ← torch_empty
    [num_experts; w13_rows; 2 * intermediate_size_per_partition] int32;
  (* down_proj (row parallel) *)
  w2_rows ← floordiv intermediate_size_per_partition pack_factor;
  w2_qweight ← torch_empty [num_experts; w2_rows; hidden_size] int32;
  (* up_proj scales *)
  w13_scales ← torch_empty
    [num_experts; scales_size13; 2 * intermediate_size_per_partition]
    params_dtype;
  (* down_proj scales *)
  w2_scales ← torch_empty [num_experts; scales_size2; hidden_size] params_dtype;
  w13_qzeros_cols ← floordiv (2 * intermediate_size_per_partition) pack_factor;
  w13_qzeros ← torch_empty [num_experts; scales_size13; w13_qzeros_cols]
    params_dtype;
  w2_qzeros_cols ← floordiv hidden_size pack_factor;
  w2_qzeros ← torch_empty [num_experts; scales_size2; w2_qzeros_cols]
    params_dtype;
  w13_g_idx ← torch_empty2 num_experts hidden_size;
  w2_g_idx ← torch_empty2 num_experts intermediate_size_per_partition;
  w13_g_idx_sort_indices ← torch_empty2 num_experts hidden_size;
  w2_g_idx_sort_indices ←
    torch_empty2 num_experts intermediate_size_per_partition;
  Ok ({| quant_config := cfg; quant_type := quant_type self;
         is_k_full := Some is_k_full |},
      {| intermediate_size_per_partition :=
           layer_intermediate_size_per_partition;
         w13_qweight := w13_qweight;
         w2_qweight := w2_qweight;
         w13_scales := w13_scales;
         w2_scales := w2_scales;
         w13_qzeros := w13_qzeros;
         w2_qzeros := w2_qzeros;
         w13_g_idx := w13_g_idx;
         w2_g_idx := w2_g_idx;
         w13_g_idx_sort_indices := w13_g_idx_sort_indices;
         w2_g_idx_sort_indices := w2_g_idx_sort_indices;
         workspace := marlin_make_workspace_new 4;
         quant_method := strategy;
         is_transposed := true;
         (* dont shard the w2 scales when running act order *)
         w2_scales_load_full_w2 := GPTQMarlinConfig.desc_act cfg;
         w2_qzeros_load_full_w2 := GPTQMarlinConfig.desc_act cfg |}).


(** One iteration [e] of the loop over experts. *)
Definition sort_expert `{MoEImports} (l : moe_layer) (e : nat) (acc : sort_acc)
    : result sort_acc :=
  g13 ← row_at (w13_g_idx l) e;
  si13 ← row_assign (acc_w13_g_idx_sort_indices acc) e
           (to_int32 <$> argsort g13);
  g2 ← row_at (w2_g_idx l) e;
  si2 ← row_assign (acc_w2_g_idx_sort_indices acc) e
          (to_int32 <$> argsort g2);
  g13 ← row_at (w13_g_idx l) e;
  idx13 ← row_at si13 e;
  sorted13 ← gather g13 idx13;
  s13 ← row_assign (acc_w13_sorted_g_idx acc) e sorted13;
  g2 ← row_at (w2_g_idx l) e;
  idx2 ← row_at si2 e;
  sorted2 ← gather g2 idx2;
  s2 ← row_assign (acc_w2_sorted_g_idx acc) e sorted2;
  Ok {| acc_w13_g_idx_sort_indices := si13;
        acc_w2_g_idx_sort_indices := si2;
        acc_w13_sorted_g_idx := s13;
        acc_w2_sorted_g_idx := s2 |}.

(** "Process act_order": sort per expert, or reset the index tensors. *)
Definition process_act_order `{MoEImports} (self : t) : M moe_state () :=
  st ← get_state;
  let l := layer st in
  if GPTQMarlinConfig.desc_act (quant_config self) then
    (* Get sorting based on g_idx *)
    let num_experts := length (w13_g_idx l) in
    acc ← lift (for_each (sort_expert l) (seq 0 num_experts)
                  {| acc_w13_g_idx_sort_indices := torch_empty_like (w13_g_idx l);
                     acc_w2_g_idx_sort_indices := torch_empty_like (w2_g_idx l);
                     acc_w13_sorted_g_idx := torch_empty_like (w13_g_idx l);
                     acc_w2_sorted_g_idx := torch_empty_like (w2_g_idx l) |});
    _ ← update_layer (replace_w13_g_idx (acc_w13_sorted_g_idx acc));
    _ ← update_layer (replace_w2_g_idx (acc_w2_sorted_g_idx acc));
    _ ← update_layer
          (replace_w13_g_idx_sort_indices (acc_w13_g_idx_sort_indices acc));
    update_layer
      (replace_w2_g_idx_sort_indices (acc_w2_g_idx_sort_indices acc))
  else
    (* Reset g_idx related tensors *)
    let num_experts := length (w13_g_idx l) in
    _ ← update_layer (replace_w13_g_idx (torch_empty_n_0 num_experts));
    _ ← update_layer (replace_w2_g_idx (torch_empty_n_0 num_experts));
    _ ← update_layer (replace_w13_g_idx_sort_indices (torch_empty_n_0 num_experts));
    update_layer (replace_w2_g_idx_sort_indices (torch_empty_n_0 num_experts)).

(** "Repack weights" *)
Definition repack_weights `{MoEImports} (self : t) : M moe_state () :=
  let cfg := quant_config self in
  let pack_factor := GPTQMarlinConfig.pack_factor cfg in
  let num_bits := size_bits (GPTQMarlinConfig.quant_type cfg) in
  st ← get_state;
  let l := layer st in
  d1 ← lift (shape_at (w13_qweight l) 1);
  d2 ← lift (shape_at (w13_qweight l) 2);
  marlin_w13_qweight ←
    call_ext
      (Call_gptq_marlin_moe_repack (w13_qweight l) (w13_g_idx_sort_indices l)
         (d1 * pack_factor) d2 num_bits)
      (gptq_marlin_moe_repack (w13_qweight l) (w13_g_idx_sort_indices l)
         (d1 * pack_factor) d2 num_bits);
  _ ← update_layer (replace_w13_qweight marlin_w13_qweight);
  st ← get_state;
  let l := layer st in
  d1 ← lift (shape_at (w2_qweight l) 1);
  d2 ← lift (shape_at (w2_qweight l) 2);
  marlin_w2_qweight ←
    call_ext
      (Call_gptq_marlin_moe_repack (w2_qweight l) (w2_g_idx_sort_indices l)
         (d1 * pack_factor) d2 num_bits)
      (gptq_marlin_moe_repack (w2_qweight l) (w2_g_idx_sort_indices l)
         (d1 * pack_factor) d2 num_bits);
  update_layer (replace_w2_qweight marlin_w2_qweight).

(** The [size_k] handed to the scale permutation for [w2_scales]. *)
Definition w2_scales_size_k (cfg : GPTQMarlinConfig.t) (scale_rows : Z) : Z :=
  scale_rows *
  (if decide (GPTQMarlinConfig.group_size cfg ≠ -1)
   then GPTQMarlinConfig.group_size cfg
   else GPTQMarlinConfig.pack_factor cfg).

(** "Repack scales" *)
Definition repack_scales `{MoEImports} (self : t) : M moe_state () :=
  let cfg := quant_config self in
  st ← get_state;
  let l := layer st in
  n13 ← lift (shape_at (w13_scales l) 2);
  marlin_w13_scales ←
    call_ext
      (Call_marlin_moe_permute_scales (w13_scales l)
         (intermediate_size_per_partition l) n13
         (GPTQMarlinConfig.group_size cfg))
      (marlin_moe_permute_scales (w13_scales l)
         (intermediate_size_per_partition l) n13
         (GPTQMarlinConfig.group_size cfg));
  _ ← update_layer (replace_w13_scales marlin_w13_scales);
  st ← get_state;
  let l := layer st in
  rows2 ← lift (shape_at (w2_scales l) 1);
  n2 ← lift (shape_at (w2_scales l) 2);
  marlin_w2_scales ←
    call_ext
      (Call_marlin_moe_permute_scales (w2_scales l)
         (w2_scales_size_k cfg rows2) n2 (GPTQMarlinConfig.group_size cfg))
      (marlin_moe_permute_scales (w2_scales l)
         (w2_scales_size_k cfg rows2) n2 (GPTQMarlinConfig.group_size cfg));
  update_layer (replace_w2_scales marlin_w2_scales).

Definition process_weights_after_loading `{MoEImports} (self : t)
    : M moe_state () :=
  _ ← process_act_order self;
  _ ← repack_weights self;
  repack_scales self.

Definition apply `{MoEImports} (self : t) (a : apply_args) : M moe_state tensor :=
  if enable_eplb a then lift (Raise NotImplementedError)
  else if negb (bool_decide (activation a = "silu"))
  then lift (Raise AssertionError)
  else
    '(topk_weights, topk_ids) ←
      call_ext (Call_select_experts a) (select_experts a);
    st ← get_state;
    let l := layer st in
    k_full ← lift (match is_k_full self with
                   | Some b => Ok b
                   | None => Raise AttributeError
                   end);
    let args :=
      {| fm_hidden_states := x a;
         fm_w1 := w13_qweight l;
         fm_w2 := w2_qweight l;
         fm_w1_scale := w13_scales l;
         fm_w2_scale := w2_scales l;
         fm_gating_output := router_logits a;
         fm_topk_weights := topk_weights;
         fm_topk_ids := topk_ids;
         fm_quant_type := quant_type self;
         fm_apply_router_weight_on_input := apply_router_weight_on_input a;
         fm_global_num_experts := global_num_experts a;
         fm_expert_map := expert_map a;
         fm_g_idx1 := w13_g_idx l;
         fm_g_idx2 := w2_g_idx l;
         fm_sort_indices1 := w13_g_idx_sort_indices l;
         fm_sort_indices2 := w2_g_idx_sort_indices l;
         fm_workspace := workspace l;
         fm_is_k_full := k_full |} in
    call_ext (Call_fused_marlin_moe args) (fused_marlin_moe args).

End GPTQMarlinMoEMethod.

(** ** Per-layer overrides and method selection *)

(** Configuration objects live in a store and are passed by reference:
    [deepcopy] allocates, [override_config] writes through a reference. *)
Definition loc := positive.
Abbreviation heap := (gmap loc GPTQMarlinConfig.t).

Definition read (c : loc) : M heap GPTQMarlinConfig.t := fun h =>
  match h !! c with
  | Some cfg => (Ok cfg, h)
  | None => (Raise RuntimeError, h)
  end.

Definition write (c : loc) (cfg : GPTQMarlinConfig.t) : M heap () :=
  modify (<[c := cfg]>).

(** [deepcopy(config)]: a new object with the same field values. *)
Definition deepcopy (c : loc) : M heap loc := fun h =>
  match h !! c with
  | Some cfg => let c' := fresh (dom h) in (Ok c', <[c' := cfg]> h)
  | None => (Raise RuntimeError, h)
  end.

(** The layers [get_quant_method] tells apart with [isinstance]. *)
Inductive nn_module :=
  | FusedMoE (moe_config : nat)
  | OtherModule (class_name : string).

Inductive QuantizeMethodBase :=
  | UnquantizedFusedMoEMethod (moe_config : nat)
  | MarlinMoEMethod (cfg_ref : loc) (m : GPTQMarlinMoEMethod.t)
  | ImportedMethod (name : string).

(** Imports of the selection code: Python's [re.match], the Marlin MoE
    support check, the MoE WNA16 fallback and the linear-layer
    selection of [gptq_utils]. *)
Class ResolverImports := {
  re_match : string -> string -> bool;
  check_moe_marlin_supports_layer : nn_module -> Z -> bool;
  moe_wna16_get_quant_method :
    pydict value -> nn_module -> string -> M heap (option QuantizeMethodBase);
  get_linear_quant_method :
    loc -> nn_module -> string -> M heap (option QuantizeMethodBase)
}.

(** A key of [dynamic]: a regex with an optional ["+:"] (positive match,
    the default) or ["-:"] (negative match) prefix. *)
Inductive polarity := Positive | Negative.

#[global] Instance polarity_eq_dec : EqDecision polarity.
Proof. solve_decision. Defined.

Definition rule_pattern (key : string) : polarity * string :=
  if String.prefix "-:" key
  then (Negative, String.substring 2 (String.length key - 2)%nat key)
  else if String.prefix "+:" key
  then (Positive, String.substring 2 (String.length key - 2)%nat key)
  else (Positive, key).

Definition rule_matches `{ResolverImports} (pol : polarity)
    (layer_name : string) (rule : string * pydict value) : bool :=
  let '(p, regex) := rule_pattern rule.1 in
  bool_decide (p = pol) && re_match regex layer_name.

(** What [get_dynamic_override] answers: "False = skip module, None =
    no override, else = Positive match". *)
Inductive dynamic_override :=
  | OverrideFalse
  | OverrideNone
  | OverrideDict (fields : pydict value).

(** Modelled from the spec: [get_dynamic_override] of [gptq_utils] is not
    among the sources.  Rules are read in list order; if any negative
    (exclude) rule matches the layer name the answer is [False], whatever
    the other rules are; otherwise the fields of the matching positive
    rules, in order; [None] when no rule matches. *)
Definition get_dynamic_override `{ResolverImports} (cfg : GPTQMarlinConfig.t)
    (layer_name : string) : dynamic_override :=
  let rules := GPTQMarlinConfig.dynamic cfg in
  if existsb (rule_matches Negative layer_name) rules then OverrideFalse
  else
    match filter (fun r => rule_matches Positive layer_name r = true) rules with
    | [] => OverrideNone
    | matching => OverrideDict (concat (snd <$> matching))
    end.

(** Modelled from the spec: one override field written over the
    corresponding policy field ([bits], [group_size], [desc_act], [sym],
    [lm_head] are the keys of the config surface); other keys and values
    of the wrong type leave the policy as it is. *)
Definition override_field (cfg : GPTQMarlinConfig.t) (kv : string * value)
    : GPTQMarlinConfig.t :=
  let 'GPTQMarlinConfig.mk dyn bits sym pf gs da lm full qt := cfg in
  match kv with
  | ("bits", VInt b) => GPTQMarlinConfig.mk dyn b sym pf gs da lm full qt
  | ("group_size", VInt g) => GPTQMarlinConfig.mk dyn bits sym pf g da lm full qt
  | ("desc_act", VBool d) => GPTQMarlinConfig.mk dyn bits sym pf gs d lm full qt
  | ("sym", VBool s) => GPTQMarlinConfig.mk dyn bits s pf gs da lm full qt
  | ("lm_head", VBool h) => GPTQMarlinConfig.mk dyn bits sym pf gs da h full qt
  | _ => cfg
  end.

(** Modelled from the spec: [override_config] of [gptq_utils] is not
    among the sources.  For every matching positive rule, in order, its
    fields overwrite the fields of the configuration object it is given;
    the last match wins per field; with no matching rule nothing is
    written. *)
Definition override_config `{ResolverImports} (config : loc) (prefix : string)
    : M heap () :=
  cfg ← read config;
  match get_dynamic_override cfg prefix with
  | OverrideDict fields => write config (foldl override_field cfg fields)
  | _ => mret ()
  end.

(** [GPTQMarlinMoEMethod] as the class handed to [get_moe_quant_method]:
    the constructor reads the configuration it is given. *)
Definition GPTQMarlinMoEMethod_cls (config : loc) : M heap QuantizeMethodBase :=
  cfg ← read config;
  m ← lift (GPTQMarlinMoEMethod.__init__ cfg);
  mret (MarlinMoEMethod config m).

Definition get_moe_quant_method `{ResolverImports} (config : loc)
    (layer : nn_module) (prefix : string)
    (moe_method_cls : loc -> M heap QuantizeMethodBase)
    : M heap (option QuantizeMethodBase) :=
  cloned_config ← deepcopy config;
  match layer with
  | FusedMoE moe_config =>
      (* False = skip module, None = no override, else = Positive match *)
      cloned ← read cloned_config;
      match get_dynamic_override cloned prefix with
      | OverrideFalse => mret (Some (UnquantizedFusedMoEMethod moe_config))
      | _ =>
          _ ← (if decide (prefix ≠ "")
               then
                 (* Dynamic per module/layer rules may override base config *)
                 override_config cloned_config prefix
               else mret ());
          m ← moe_method_cls cloned_config;
          mret (Some m)
      end
  | _ => mret None
  end.

(** [GPTQMarlinConfig.get_quant_method]; [self] is the reference to the
    base configuration. *)
Definition get_quant_method `{ResolverImports} (self : loc)
    (layer : nn_module) (prefix : string) : M heap (option QuantizeMethodBase) :=
  match layer with
  | FusedMoE _ =>
      cfg ← read self;
      if negb (check_moe_marlin_supports_layer layer
                 (GPTQMarlinConfig.group_size cfg))
      then moe_wna16_get_quant_method (GPTQMarlinConfig.full_config cfg)
             layer prefix
      else get_moe_quant_method self layer prefix GPTQMarlinMoEMethod_cls
  | _ => get_linear_quant_method self layer prefix
  end.

(** ** Compatibility of a checkpoint configuration *)

(** The values a Hugging Face quantization config holds, as far as this
    module looks at them: [None], booleans, integers and strings (floats
    and nested containers are left out). *)
Inductive pyvalue :=
  | PyNone
  | PyBool (b : bool)
  | PyInt (z : Z)
  | PyStr (s : string).

#[global] Instance pyvalue_eq_dec : EqDecision pyvalue.
Proof. solve_decision. Defined.

(** [d.get(key, default)] on a [dict] with string keys. *)
Definition dict_get (d : gmap string pyvalue) (key : string)
    (default : pyvalue) : pyvalue :=
  match d !! key with
  | Some v => v
  | None => default
  end.

(** A Python value as a key component next to the [int] and [bool] keys
    of [TYPE_MAP]: [bool] is an [int], [True == 1] and [False == 0], and
    nothing else equals an integer. *)
Definition py_int (v : pyvalue) : option Z :=
  match v with
  | PyInt z => Some z
  | PyBool b => Some (if b then 1 else 0)
  | _ => None
  end.

(** The key of [TYPE_MAP] that the tuple [(num_bits, sym)] is equal to,
    if there can be one. *)
Definition type_map_key (num_bits sym : pyvalue) : option (Z * bool) :=
  match py_int num_bits, py_int sym with
  | Some b, Some 1 => Some (b, true)
  | Some b, Some 0 => Some (b, false)
  | _, _ => None
  end.

(** What the compatibility check imports: the platform test, Python's
    [str.lower] and [check_marlin_supported] of [marlin_utils]. *)
Class CompatImports := {
  is_cuda : bool;
  str_lower : string -> string;
  check_marlin_supported : ScalarType -> pyvalue -> result bool
}.

Definition get_name : string := "gptq_marlin".

Definition get_supported_act_dtypes : list dtype := [float16; bfloat16].

Definition get_min_capability : Z := 80.

Definition get_config_filenames : list string := ["quantize_config.json"].

Definition is_gptq_marlin_compatible `{CompatImports}
    (quant_config : gmap string pyvalue) : result bool :=
  quant_method ←
    match dict_get quant_config "quant_method" (PyStr "") with
    | PyStr s => Ok (str_lower s)
    | _ => Raise AttributeError
    end;
  let num_bits := dict_get quant_config "bits" PyNone in
  let group_size := dict_get quant_config "group_size" PyNone in
  let sym := dict_get quant_config "sym" PyNone in
  let desc_act := dict_get quant_config "desc_act" PyNone in
  if negb is_cuda then Ok false
  else if decide (quant_method ≠ "gptq") then Ok false
  (* Marlin conversion is only valid if required properties are found *)
  else if decide (num_bits = PyNone \/ group_size = PyNone
                  \/ sym = PyNone \/ desc_act = PyNone)
  then Ok false
  else
    match type_map_key num_bits sym ≫= (GPTQMarlinConfig.TYPE_MAP !!.) with
    | None => Ok false
    | Some quant_type => check_marlin_supported quant_type group_size
    end.

Definition override_quantization_method `{CompatImports}
    (hf_quant_cfg : gmap string pyvalue) (user_quant : option string)
    : result (option string) :=
  can_convert ← is_gptq_marlin_compatible hf_quant_cfg;
  let is_valid_user_quant :=
    bool_decide (user_quant = None \/ user_quant = Some "marlin"
                 \/ user_quant = Some "gptq_marlin") in
  if can_convert && is_valid_user_quant then Ok (Some get_name)
  else Ok None.

(** ** Specification-side definitions *)

(** Modelled from the spec: [marlin_repeat_scales_on_all_ranks] of
    [marlin_utils] is not among the sources.  Scales are replicated
    across tensor-parallel ranks when either activation-order is
    disabled or the partition is not row-parallel, and sharded exactly
    when activation-order is enabled and the partition is row-parallel. *)
Definition spec_repeat_scales_on_all_ranks (act_order : bool) (group_size : Z)
    (is_row_parallel : bool) : bool :=
  negb act_order || negb is_row_parallel.

(** The number of scale and zero-point rows [create_weights] plans. *)
Definition scale_rows (cfg : GPTQMarlinConfig.t) (replicated : bool)
    (input_size input_size_per_partition : Z) : Z :=
  (if replicated then input_size else input_size_per_partition)
  `div` GPTQMarlinLinearMethod.effective_group_size cfg input_size.

(** The positions [0, ..., n-1] of a row of length [n]. *)
Definition positions (n : nat) : list Z := Z.of_nat <$> seq 0 n.

(** The element of [row] at an in-range position [i]. *)
Definition value_at (row : list Z) (i : Z) : Z :=
  default 0 (row !! Z.to_nat i).

(** [p] is a permutation of the positions of [row] and gathering [row]
    through it gives an ascending row: what [torch.argsort] promises
    when it is called, as here, without [stable=True]. *)
Definition sorts_ascending (row p : list Z) : Prop :=
  p ≡ₚ positions (length row) /\
  exists sorted, gather row p = Ok sorted /\ Sorted Z.le sorted.

Definition argsort_contract (f : list Z -> list Z) : Prop :=
  forall row, sorts_ascending row (f row).

(** [p] sorts [row] stably: equal group ids keep their original order. *)
Definition stably_sorts (row p : list Z) : Prop :=
  sorts_ascending row p /\
  forall (a b : nat) (i j v : Z),
    p !! a = Some i -> p !! b = Some j -> (a < b)%nat ->
    row !! Z.to_nat i = Some v -> row !! Z.to_nat j = Some v -> i < j.

(** The inverse of a permutation of positions: where each position went. *)
Fixpoint find_index (j : Z) (p : list Z) : nat :=
  match p with
  | [] => 0%nat
  | i :: p' => if decide (i = j) then 0%nat else S (find_index j p')
  end.

Definition inverse_permutation (p : list Z) : list Z :=
  (fun j => Z.of_nat (find_index j p)) <$> positions (length p).

(** What finalize needs of a loaded MoE layer: the two [g_idx] tensors
    have one row per expert, rows are short enough for int32 indices,
    and weights and scales are three-dimensional. *)
Record loaded_layer (l : moe_layer) : Prop := {
  loaded_experts : length (w2_g_idx l) = length (w13_g_idx l);
  loaded_w13_rows :
    Forall (fun row => Z.of_nat (length row) < 2 ^ 31) (w13_g_idx l);
  loaded_w2_rows :
    Forall (fun row => Z.of_nat (length row) < 2 ^ 31) (w2_g_idx l);
  loaded_w13_qweight : (3 <= length (shape (w13_qweight l)))%nat;
  loaded_w2_qweight : (3 <= length (shape (w2_qweight l)))%nat;
  loaded_w13_scales : (3 <= length (shape (w13_scales l)))%nat;
  loaded_w2_scales : (3 <= length (shape (w2_scales l)))%nat
}.

(** The imported kernels accept three-dimensional tensors, whatever the
    other arguments, and return three-dimensional tensors. *)
Definition kernels_accept `{MoEImports} : Prop :=
  (forall w perm k n bits, (3 <= length (shape w))%nat ->
     exists w',
       gptq_marlin_moe_repack w perm k n bits = Ok w' /\
       (3 <= length (shape w'))%nat) /\
  (forall s k n g, (3 <= length (shape s))%nat ->
     exists s',
       marlin_moe_permute_scales s k n g = Ok s' /\
       (3 <= length (shape s'))%nat).

(** The sort indices finalize stores for one row of [g_idx]. *)
Definition sort_indices_row `{MoEImports} (row : list Z) : list Z :=
  to_int32 <$> argsort row.

(** The row gathered through its sort indices. *)
Definition sorted_row `{MoEImports} (row : list Z) : list Z :=
  value_at row <$> sort_indices_row row.

(** Loop invariant for one tensor filled row by row: rows below [k]
    hold [f] of the source row, the others still have its length. *)
Definition filled (f : list Z -> list Z) (g t : itensor2) (k : nat) : Prop :=
  length t = length g /\
  (forall e row, (e < k)%nat -> g !! e = Some row -> t !! e = Some (f row)) /\
  (forall e row, (k <= e)%nat -> g !! e = Some row ->
     exists old, t !! e = Some old /\ length old = length row).

(** What the activation-order step establishes for one expert: [p]
    sorts [row] ascending, [sorted] is [row] gathered through [p], the
    inverse of [p] gives [row] back, and with unique group ids [p] is
    the stable sorting permutation. *)
Definition expert_sorted (row p sorted : list Z) : Prop :=
  sorts_ascending row p /\
  gather row p = Ok sorted /\
  Sorted Z.le sorted /\
  gather sorted (inverse_permutation p) = Ok row /\
  (NoDup row -> stably_sorts row p).

(** The invariant of the loop over experts. *)
Definition sort_inv `{MoEImports} (l : moe_layer) (acc : sort_acc) (k : nat) : Prop :=
  filled sort_indices_row (w13_g_idx l) (acc_w13_g_idx_sort_indices acc) k /\
  filled sort_indices_row (w2_g_idx l) (acc_w2_g_idx_sort_indices acc) k /\
  filled sorted_row (w13_g_idx l) (acc_w13_sorted_g_idx acc) k /\
  filled sorted_row (w2_g_idx l) (acc_w2_sorted_g_idx acc) k.

(** The layer after the activation-order sort. *)
Definition sorted_layer `{MoEImports} (l : moe_layer) : moe_layer :=
  replace_w2_g_idx_sort_indices (sort_indices_row <$> w2_g_idx l)
    (replace_w13_g_idx_sort_indices (sort_indices_row <$> w13_g_idx l)
       (replace_w2_g_idx (sorted_row <$> w2_g_idx l)
          (replace_w13_g_idx (sorted_row <$> w13_g_idx l) l))).

(** The layer after the reset of the index tensors. *)
Definition reset_layer (l : moe_layer) : moe_layer :=
  let empty := torch_empty_n_0 (length (w13_g_idx l)) in
  replace_w2_g_idx_sort_indices empty
    (replace_w13_g_idx_sort_indices empty
       (replace_w2_g_idx empty (replace_w13_g_idx empty l))).

(** Two layers with the same four index tensors. *)
Definition same_index_tensors (l l' : moe_layer) : Prop :=
  w13_g_idx l' = w13_g_idx l /\
  w2_g_idx l' = w2_g_idx l /\
  w13_g_idx_sort_indices l' = w13_g_idx_sort_indices l /\
  w2_g_idx_sort_indices l' = w2_g_idx_sort_indices l.

(** The configuration [get_moe_quant_method] hands to the method class:
    the clone of [base] after [override_config], which runs only for a
    non-empty prefix. *)
Definition overridden_config `{ResolverImports} (base : GPTQMarlinConfig.t)
    (prefix : string) : GPTQMarlinConfig.t :=
  if decide (prefix ≠ "") then
    match get_dynamic_override base prefix with
    | OverrideDict fields => foldl override_field base fields
    | _ => base
    end
  else base.

(** The sizes the linear [create_weights] hands to [torch.empty] are
    all non-negative: the rows of [qweight], the output size, the length
    of [g_idx], the scale rows and the columns of [qzeros]. *)
Definition linear_sizes_ok (cfg : GPTQMarlinConfig.t) (replicated : bool)
    (input_size_per_partition : Z) (output_partition_sizes : list Z)
    (input_size : Z) : Prop :=
  let pack_factor := GPTQMarlinConfig.pack_factor cfg in
  0 <= input_size_per_partition `div` pack_factor /\
  0 <= sum output_partition_sizes /\
  0 <= input_size_per_partition /\
  0 <= scale_rows cfg replicated input_size input_size_per_partition /\
  0 <= sum output_partition_sizes `div` pack_factor.

(** A created MoE layer after the weight loader has written the two
    [g_idx] tensors. *)
Definition load_g_idx (g13 g2 : itensor2) (l : moe_layer) : moe_layer :=
  replace_w2_g_idx g2 (replace_w13_g_idx g13 l).

(** Two layers with the same zero points, workspace and attributes: the
    parts of a layer the MoE finalize has no statement for. *)
Definition same_zeros_and_attrs (l l' : moe_layer) : Prop :=
  w13_qzeros l' = w13_qzeros l /\
  w2_qzeros l' = w2_qzeros l /\
  workspace l' = workspace l /\
  intermediate_size_per_partition l' = intermediate_size_per_partition l /\
  quant_method l' = quant_method l /\
  is_transposed l' = is_transposed l /\
  w2_scales_load_full_w2 l' = w2_scales_load_full_w2 l /\
  w2_qzeros_load_full_w2 l' = w2_qzeros_load_full_w2 l.

(** The keyword arguments the MoE [apply] gives [fused_marlin_moe], for
    the routing result [(topk_weights, topk_ids)]. *)
Definition fused_args (self : GPTQMarlinMoEMethod.t) (l : moe_layer)
    (a : apply_args) (topk_weights topk_ids : tensor) (k_full : bool)
    : fused_marlin_moe_args :=
  {| fm_hidden_states := x a;
     fm_w1 := w13_qweight l;
     fm_w2 := w2_qweight l;
     fm_w1_scale := w13_scales l;
     fm_w2_scale := w2_scales l;
     fm_gating_output := router_logits a;
     fm_topk_weights := topk_weights;
     fm_topk_ids := topk_ids;
     fm_quant_type := GPTQMarlinMoEMethod.quant_type self;
     fm_apply_router_weight_on_input := apply_router_weight_on_input a;
     fm_global_num_experts := global_num_experts a;
     fm_expert_map := expert_map a;
     fm_g_idx1 := w13_g_idx l;
     fm_g_idx2 := w2_g_idx l;
     fm_sort_indices1 := w13_g_idx_sort_indices l;
     fm_sort_indices2 := w2_g_idx_sort_indices l;
     fm_workspace := workspace l;
     fm_is_k_full := k_full |}.

(** The request the linear [create_weights] hands to the kernel chooser,
    and the kernel object it keeps in [self.kernel]. *)
Definition linear_kernel_config (cfg : GPTQMarlinConfig.t)
    (input_size_per_partition : Z) (output_partition_sizes : list Z)
    (input_size output_size : Z) (params_dtype : dtype)
    : MPLinearLayerConfig :=
  {| full_weight_shape := (input_size, output_size);
     partition_weight_shape :=
       (input_size_per_partition, sum output_partition_sizes);
     weight_type := GPTQMarlinConfig.quant_type cfg;
     act_type := params_dtype;
     mp_group_size := GPTQMarlinConfig.group_size cfg;
     zero_points := false;
     has_g_idx := GPTQMarlinConfig.desc_act cfg |}.

Definition linear_kernel (kernel_type : string)
    (config : MPLinearLayerConfig) : mp_kernel :=
  {| kernel_name := kernel_type;
     kernel_config := config;
     w_q_param_name := "qweight";
     w_s_param_name := "scales";
     w_zp_param_name := "qzeros";
     w_gidx_param_name := "g_idx" |}.

(** What the activation-order sort does to one index tensor: as many
    rows as before, and for each expert the stored row is a permutation
    of the loaded one and the stored sort indices are distinct positions
    of that row, one for each element. *)
Definition rows_permuted (before after indices : itensor2) : Prop :=
  length after = length before /\
  length indices = length before /\
  forall e row, before !! e = Some row ->
    exists sorted p,
      after !! e = Some sorted /\ indices !! e = Some p /\
      sorted ≡ₚ row /\
      length p = length row /\ NoDup p /\
      Forall (fun i => 0 <= i < Z.of_nat (length row)) p.

(** ** Concrete imports for examples *)

(** Argsort by insertion: the positions are inserted from the last to
    the first into a list kept ascending by value; [before i j] says
    whether position [i] goes in front of position [j]. *)
Fixpoint insert_position (before : Z -> Z -> bool) (i : Z) (l : list Z)
    : list Z :=
  match l with
  | [] => [i]
  | j :: l' =>
      if before i j then i :: j :: l' else j :: insert_position before i l'
  end.

Definition insertion_argsort (before : list Z -> Z -> Z -> bool)
    (row : list Z) : list Z :=
  foldr (insert_position (before row)) [] (positions (length row)).

(** Ties keep their order (a stable sort) ... *)
Definition ties_first (row : list Z) (i j : Z) : bool :=
  bool_decide (value_at row i <= value_at row j).

(** ... or are reversed (sorted, not stable). *)
Definition ties_last (row : list Z) (i j : Z) : bool :=
  bool_decide (value_at row i < value_at row j).

(** Kernels that hand back a tensor of the shape they were given, a
    routing function and a fused kernel that succeed. *)
Definition example_imports (sort : list Z -> list Z) : MoEImports :=
  {| uninit := 0;
     argsort := sort;
     gptq_marlin_moe_repack := fun w _ _ _ _ => Ok w;
     marlin_moe_permute_scales := fun s _ _ _ => Ok s;
     marlin_make_workspace_new := fun n => Tensor [n] int32;
     select_experts := fun a =>
       Ok (Tensor [top_k a] float32, Tensor [top_k a] int32);
     fused_marlin_moe := fun a => Ok (fm_hidden_states a) |}.

Definition stable_imports : MoEImports :=
  example_imports (insertion_argsort ties_first).

Definition unstable_imports : MoEImports :=
  example_imports (insertion_argsort ties_last).

(** Imports whose repack kernel rejects what it is given. *)
Definition rejecting_imports : MoEImports :=
  {| uninit := 0;
     argsort := insertion_argsort ties_first;
     gptq_marlin_moe_repack := fun _ _ _ _ _ => Raise RuntimeError;
     marlin_moe_permute_scales := fun s _ _ _ => Ok s;
     marlin_make_workspace_new := fun n => Tensor [n] int32;
     select_experts := fun a =>
       Ok (Tensor [top_k a] float32, Tensor [top_k a] int32);
     fused_marlin_moe := fun a => Ok (fm_hidden_states a) |}.

(** Linear imports with the replication rule of the spec and a kernel
    chooser that always answers. *)
Definition example_linear_imports : LinearImports :=
  {| verify_marlin_supported := fun _ _ => Ok ();
     marlin_repeat_scales_on_all_ranks := spec_repeat_scales_on_all_ranks;
     choose_mp_linear_kernel := fun _ => Ok "MarlinLinearKernel";
     kernel_process_weights_after_loading := fun _ layer => Ok layer |}.

(** Two experts with duplicate group ids in every row. *)
Definition example_g13 : itensor2 := [[1; 0; 1; 0]; [0; 0; 1; 1]].
Definition example_g2 : itensor2 := [[1; 1; 0; 0]; [0; 1; 0; 1]].

(** A linear method on a fresh layer. *)
Definition example_linear_state (cfg : GPTQMarlinConfig.t)
    : GPTQMarlinLinearMethod.state :=
  {| GPTQMarlinLinearMethod.self :=
       {| GPTQMarlinLinearMethod.quant_config := cfg;
          GPTQMarlinLinearMethod.kernel := None |};
     GPTQMarlinLinearMethod.layer := ∅;
     GPTQMarlinLinearMethod._kernel_backends_being_used := ∅ |}.

(** A regex matcher for examples: a pattern matches the names it is a
    prefix of. *)
Definition example_resolver_imports : ResolverImports :=
  {| re_match := String.prefix;
     check_moe_marlin_supports_layer := fun _ _ => true;
     moe_wna16_get_quant_method := fun _ _ _ => mret (Some (ImportedMethod "MoeWNA16Method"));
     get_linear_quant_method := fun _ _ _ => mret (Some (ImportedMethod "GPTQMarlinLinearMethod")) |}.

(** A base configuration with one positive and one negative rule, in a
    store of its own. *)
Definition example_dynamic : pydict (pydict value) :=
  [("+:layers.1", [("bits", VInt 8)]); ("-:layers.5.moe", [])].

Definition example_base : GPTQMarlinConfig.t :=
  {| GPTQMarlinConfig.dynamic := example_dynamic;
     GPTQMarlinConfig.weight_bits := 4;
     GPTQMarlinConfig.is_sym := true;
     GPTQMarlinConfig.pack_factor := 8;
     GPTQMarlinConfig.group_size := 128;
     GPTQMarlinConfig.desc_act := false;
     GPTQMarlinConfig.lm_head_quantized := false;
     GPTQMarlinConfig.full_config := [];
     GPTQMarlinConfig.quant_type := scalar_types.uint4b8 |}.

Definition example_heap : heap := {[ 1%positive := example_base ]}.

(** Example configurations. *)
Definition example_config (weight_bits group_size : Z) (desc_act : bool)
    : GPTQMarlinConfig.t :=
  {| GPTQMarlinConfig.dynamic := [];
     GPTQMarlinConfig.weight_bits := weight_bits;
     GPTQMarlinConfig.is_sym := true;
     GPTQMarlinConfig.pack_factor := 32 `div` weight_bits;
     GPTQMarlinConfig.group_size := group_size;
     GPTQMarlinConfig.desc_act := desc_act;
     GPTQMarlinConfig.lm_head_quantized := false;
     GPTQMarlinConfig.full_config := [];
     GPTQMarlinConfig.quant_type :=
       if decide (weight_bits = 8)
       then scalar_types.uint8b128 else scalar_types.uint4b8 |}.

Definition example_moe_method (weight_bits group_size : Z) (desc_act : bool)
    : GPTQMarlinMoEMethod.t :=
  {| GPTQMarlinMoEMethod.quant_config :=
       example_config weight_bits group_size desc_act;
     GPTQMarlinMoEMethod.quant_type :=
       GPTQMarlinConfig.quant_type (example_config weight_bits group_size desc_act);
     GPTQMarlinMoEMethod.is_k_full := Some true |}.

(** A loaded layer with two experts, [hidden_size = 4],
    [intermediate_size_per_partition = 4] and the given [g_idx] rows. *)
Definition example_layer (g13 g2 : itensor2) : moe_layer :=
  {| intermediate_size_per_partition := 4;
     w13_qweight := Tensor [2; 1; 8] int32;
     w2_qweight := Tensor [2; 1; 4] int32;
     w13_scales := Tensor [2; 2; 8] float16;
     w2_scales := Tensor [2; 2; 4] float16;
     w13_qzeros := Tensor [2; 2; 1] float16;
     w2_qzeros := Tensor [2; 2; 1] float16;
     w13_g_idx := g13;
     w2_g_idx := g2;
     w13_g_idx_sort_indices := torch_empty_like (H := stable_imports) g13;
     w2_g_idx_sort_indices := torch_empty_like (H := stable_imports) g2;
     workspace := Tensor [4] int32;
     quant_method := GROUP;
     is_transposed := true;
     w2_scales_load_full_w2 := true;
     w2_qzeros_load_full_w2 := true |}.

Definition example_state (g13 g2 : itensor2) : moe_state :=
  {| layer := example_layer g13 g2; trace := [] |}.

(** Lower-casing of ASCII letters. *)
Definition ascii_lower (c : Ascii.ascii) : Ascii.ascii :=
  let n := Ascii.nat_of_ascii c in
  if bool_decide (65 <= n <= 90)%nat then Ascii.ascii_of_nat (n + 32) else c.

Fixpoint string_lower (s : string) : string :=
  match s with
  | EmptyString => EmptyString
  | String c s' => String (ascii_lower c) (string_lower s')
  end.

(** A CUDA platform whose Marlin kernels take the group sizes -1, 32, 64
    and 128. *)
Definition example_compat_imports : CompatImports :=
  {| is_cuda := true;
     str_lower := string_lower;
     check_marlin_supported := fun _ group_size =>
       Ok (bool_decide
             (group_size ∈ [PyInt (-1); PyInt 32; PyInt 64; PyInt 128])) |}.

(** The quantization config of a 4-bit GPTQ checkpoint. *)
Definition example_quant_config (user_method : string)
    : gmap string pyvalue :=
  list_to_map
    [("quant_method", PyStr user_method); ("bits", PyInt 4);
     ("group_size", PyInt 128); ("sym", PyBool true);
     ("desc_act", PyBool false)].

(** * Properties *)

(** ** Running the monads *)

Lemma result_bind_Ok {A B} (m : result A) (f : A -> result B) b :
  m ≫= f = Ok b <-> exists a, m = Ok a /\ f a = Ok b.
Proof.
  destruct m as [a|e]; simpl; split.
  - eauto.
  - by intros (? & [= ->] & ?).
  - done.
  - by intros (? & [=] & _).
Qed.

Lemma M_bind_Ok {S A B} (m : M S A) (f : A -> M S B) s b s'' :
  (m ≫= f) s = (Ok b, s'')
  <-> exists a s', m s = (Ok a, s') /\ f a s' = (Ok b, s'').
Proof.
  unfold mbind, M_bind. destruct (m s) as [[a|e] s']; split.
  - eauto.
  - by intros (? & ? & [= -> ->] & ?).
  - done.
  - by intros (? & ? & [=] & _).
Qed.

Lemma lift_Ok {S A} (r : result A) (s s' : S) a :
  lift r s = (Ok a, s') <-> r = Ok a /\ s' = s.
Proof. unfold lift. split; [by intros [= -> ->] | by intros [-> ->]]. Qed.

Lemma modify_Ok {S} (f : S -> S) s u s' :
  modify f s = (Ok u, s') <-> s' = f s.
Proof. unfold modify. destruct u. split; [by intros [= <-] | by intros ->]. Qed.

Lemma get_state_Ok {S} (s a s' : S) :
  get_state s = (Ok a, s') <-> a = s /\ s' = s.
Proof. unfold get_state. split; [by intros [= <- <-] | by intros [-> ->]]. Qed.

Lemma mret_Ok {S A} (a b : A) (s s' : S) :
  (mret a : M S A) s = (Ok b, s') <-> b = a /\ s' = s.
Proof. unfold mret, M_ret. split; [by intros [= <- <-] | by intros [-> ->]]. Qed.

Lemma floordiv_Ok a b q : floordiv a b = Ok q <-> b ≠ 0 /\ q = a `div` b.
Proof.
  unfold floordiv. case_decide; split; try done.
  - by intros [? _].
  - by intros [= <-].
  - by intros [_ ->].
Qed.

Lemma torch_empty_Ok sizes dt t :
  torch_empty sizes dt = Ok t
  <-> Forall (fun d => 0 <= d) sizes /\ t = Tensor sizes dt.
Proof.
  unfold torch_empty. case_decide; split; try done.
  - by intros [= <-].
  - by intros [_ ->].
  - by intros [? _].
Qed.

(** Inversion of a successful run, one bind at a time. *)
Ltac inv_M :=
  repeat match goal with
  | H : (_ ≫= _) _ = (Ok _, _) |- _ =>
      apply M_bind_Ok in H; destruct H as (? & ? & ? & H)
  | H : lift _ _ = (Ok _, _) |- _ => apply lift_Ok in H; destruct H as [H ->]
  | H : _ ≫= _ = Ok _ |- _ =>
      apply result_bind_Ok in H; destruct H as (? & ? & H)
  | H : floordiv _ _ = Ok _ |- _ =>
      apply floordiv_Ok in H; destruct H as [? ->]
  | H : torch_empty _ _ = Ok _ |- _ =>
      apply torch_empty_Ok in H; destruct H as [? ->]
  | H : get_state _ = (Ok _, _) |- _ =>
      apply get_state_Ok in H; destruct H as [? ?]; subst
  | H : modify _ _ = (Ok _, _) |- _ => apply modify_Ok in H; subst
  | H : mret _ _ = (Ok _, _) |- _ =>
      apply (mret_Ok (S:=_)) in H; destruct H as [? ?]; subst
  | H : Ok _ = Ok _ |- _ => injection H as <-
  | H : (let '(_, _) := ?p in _) _ = _ |- _ => is_var p; destruct p
  | H : (let '(_, _) := ?p in _) = _ |- _ => is_var p; destruct p
  end.

(** ** The configuration *)

Lemma TYPE_MAP_lookup_Some bits sym qt :
  GPTQMarlinConfig.TYPE_MAP !! (bits, sym) = Some qt
  <-> (bits = 4 /\ sym = true /\ qt = scalar_types.uint4b8)
      \/ (bits = 8 /\ sym = true /\ qt = scalar_types.uint8b128).
Proof.
  unfold GPTQMarlinConfig.TYPE_MAP.
  rewrite lookup_insert_Some, lookup_singleton_Some.
  split.
  - intros [[[= <- <-] <-] | [_ [[= <- <-] <-]]]; auto.
  - intros [(-> & -> & ->) | (-> & -> & ->)]; [by left | right; split; done].
Qed.

Lemma TYPE_MAP_lookup_None bits sym :
  GPTQMarlinConfig.TYPE_MAP !! (bits, sym) = None
  <-> ~ ((bits = 4 \/ bits = 8) /\ sym = true).
Proof.
  unfold GPTQMarlinConfig.TYPE_MAP.
  rewrite lookup_insert_None, lookup_singleton_None.
  split.
  - intros [H4 H8] [[-> | ->] ->]; [by apply H4 | by apply H8].
  - intros Hn. split; intros [= <- <-]; apply Hn; auto.
Qed.

(** What a successful construction returns, field by field. *)
Lemma config_init_Ok bits gs da sym lm dyn full cfg :
  GPTQMarlinConfig.__init__ bits gs da sym lm dyn full = Ok cfg
  <-> bits ≠ 0 /\
      exists qt, GPTQMarlinConfig.TYPE_MAP !! (bits, sym) = Some qt /\
      cfg = GPTQMarlinConfig.mk dyn bits sym (32 `div` bits) gs
              (if da && bool_decide (gs = -1) then false else da)
              lm full qt.
Proof.
  unfold GPTQMarlinConfig.__init__. split.
  - intros Hc. inv_M.
    destruct (GPTQMarlinConfig.TYPE_MAP !! _) as [qt|] eqn:Hqt; [|done].
    injection Hc as <-. eauto.
  - intros (Hb & qt & Hqt & ->). unfold floordiv.
    rewrite decide_False by done. simpl. by rewrite Hqt.
Qed.

(** ** The linear method *)

(** The four parameters a successful [create_weights] registers. *)
Lemma linear_create_weights_Ok `{LinearImports} ispp ops isz osz dt st st' :
  GPTQMarlinLinearMethod.create_weights ispp ops isz osz dt st = (Ok (), st') ->
  let cfg := GPTQMarlinLinearMethod.quant_config (GPTQMarlinLinearMethod.self st) in
  let pf := GPTQMarlinConfig.pack_factor cfg in
  let repl :=
    marlin_repeat_scales_on_all_ranks (GPTQMarlinConfig.desc_act cfg)
      (GPTQMarlinConfig.group_size cfg) (bool_decide (isz ≠ ispp)) in
  let dim := if repl then None else Some 0 in
  let rows := scale_rows cfg repl isz ispp in
  pf ≠ 0 /\ GPTQMarlinLinearMethod.effective_group_size cfg isz ≠ 0 /\
  GPTQMarlinLinearMethod.layer st' !! "qweight" =
    Some {| param_class := PackedvLLMParameter;
            data := Tensor [ispp `div` pf; sum ops] int32;
            input_dim := Some 0; output_dim := Some 1;
            packed_dim := Some 0; packed_factor := Some pf |} /\
  GPTQMarlinLinearMethod.layer st' !! "g_idx" =
    Some {| param_class := RowvLLMParameter;
            data := Tensor [ispp] int32;
            input_dim := Some 0; output_dim := None;
            packed_dim := None; packed_factor := None |} /\
  GPTQMarlinLinearMethod.layer st' !! "scales" =
    Some {| param_class :=
              if repl then ChannelQuantScaleParameter
              else GroupQuantScaleParameter;
            data := Tensor [rows; sum ops] dt;
            input_dim := dim; output_dim := Some 1;
            packed_dim := None; packed_factor := None |} /\
  GPTQMarlinLinearMethod.layer st' !! "qzeros" =
    Some {| param_class :=
              if repl then PackedColumnParameter else PackedvLLMParameter;
            data := Tensor [rows; sum ops `div` pf] int32;
            input_dim := dim; output_dim := Some 1;
            packed_dim := Some 1; packed_factor := Some pf |}.
Proof.
  unfold GPTQMarlinLinearMethod.create_weights, scale_rows,
    GPTQMarlinLinearMethod.register_parameter.
  intros Hc. simpl.
  apply M_bind_Ok in Hc as (? & ? & [-> ->]%get_state_Ok & Hc).
  apply M_bind_Ok in Hc as (kt & ? & [Hk ->]%lift_Ok & Hc).
  apply M_bind_Ok in Hc as ([] & st1 & Hb & Hc).
  assert (GPTQMarlinLinearMethod.layer st1 = GPTQMarlinLinearMethod.layer st)
    as Hl by (case_decide; inv_M; done).
  destruct (marlin_repeat_scales_on_all_ranks _ _ _); inv_M; simpl.
  all: rewrite ?Hl; repeat split; try done; by simplify_map_eq.
Qed.

(** ** The MoE method: creation *)

Lemma torch_empty2_Ok `{MoEImports} n m t :
  torch_empty2 n m = Ok t
  <-> (0 <= n /\ 0 <= m) /\
      t = replicate (Z.to_nat n) (replicate (Z.to_nat m) uninit).
Proof.
  unfold torch_empty2. case_decide; split; try done.
  - by intros [= <-].
  - by intros [_ ->].
  - by intros [? _].
Qed.

Lemma scales_sizes_Ok cfg hidden ispp full s13 s2 strategy :
  GPTQMarlinMoEMethod.scales_sizes cfg hidden ispp full = Ok (s13, s2, strategy)
  <-> (GPTQMarlinConfig.group_size cfg = -1 /\
       s13 = 1 /\ s2 = 1 /\ strategy = CHANNEL)
      \/ (GPTQMarlinConfig.group_size cfg ≠ -1 /\
          GPTQMarlinConfig.group_size cfg ≠ 0 /\
          s13 = hidden `div` GPTQMarlinConfig.group_size cfg /\
          s2 = (if GPTQMarlinConfig.desc_act cfg then full else ispp)
                 `div` GPTQMarlinConfig.group_size cfg /\
          strategy = GROUP).
Proof.
  unfold GPTQMarlinMoEMethod.scales_sizes. case_decide as Hg; split.
  - intros Hs. inv_M. right. by repeat split.
  - intros [[? _] | (_ & Hz & -> & -> & ->)]; [done|].
    unfold floordiv. by repeat (case_decide; simpl).
  - intros [= <- <- <-]. left. repeat split; try done.
  - intros [(_ & -> & -> & ->) | [? _]]; done.
Qed.

(** The shapes and attributes a successful MoE [create_weights] leaves. *)
Lemma moe_create_weights_Ok `{MoEImports} self lispp E hidden ispp dt full
    self' l :
  GPTQMarlinMoEMethod.create_weights self lispp E hidden ispp dt full
    = Ok (self', l) ->
  let cfg := GPTQMarlinMoEMethod.quant_config self in
  let pf := GPTQMarlinConfig.pack_factor cfg in
  exists s13 s2 strategy,
    GPTQMarlinMoEMethod.scales_sizes cfg hidden ispp full
      = Ok (s13, s2, strategy) /\
    pf ≠ 0 /\ 0 <= E /\
    shape (w13_qweight l) = [E; hidden `div` pf; 2 * ispp] /\
    shape (w2_qweight l) = [E; ispp `div` pf; hidden] /\
    shape (w13_scales l) = [E; s13; 2 * ispp] /\
    shape (w2_scales l) = [E; s2; hidden] /\
    shape (w13_qzeros l) = [E; s13; (2 * ispp) `div` pf] /\
    shape (w2_qzeros l) = [E; s2; hidden `div` pf] /\
    length (w13_g_idx l) = Z.to_nat E /\
    length (w2_g_idx l) = Z.to_nat E /\
    quant_method l = strategy /\
    w2_scales_load_full_w2 l = GPTQMarlinConfig.desc_act cfg /\
    w2_qzeros_load_full_w2 l = GPTQMarlinConfig.desc_act cfg /\
    intermediate_size_per_partition l = lispp /\
    GPTQMarlinMoEMethod.quant_config self' = cfg /\
    GPTQMarlinMoEMethod.is_k_full self' =
      Some (negb (GPTQMarlinConfig.desc_act cfg) || bool_decide (ispp = full)).
Proof.
  unfold GPTQMarlinMoEMethod.create_weights. intros Hc. simpl.
  apply result_bind_Ok in Hc as ([[s13 s2] strategy] & Hs & Hc).
  exists s13, s2, strategy. split; [done|].
  inv_M.
  repeat match goal with
  | Hx : torch_empty2 _ _ = Ok _ |- _ =>
      apply torch_empty2_Ok in Hx; destruct Hx as [[? ?] ->]
  end.
  subst. simpl.
  rewrite !length_replicate. repeat split; done.
Qed.

(** ** Rows, gathers and permutations of positions *)

Lemma to_int32_small i : 0 <= i < 2 ^ 31 -> to_int32 i = i.
Proof. intros Hi. unfold to_int32. rewrite Z.mod_small; lia. Qed.

Lemma elem_of_positions n i :
  i ∈ positions n <-> 0 <= i < Z.of_nat n.
Proof.
  unfold positions. rewrite list_elem_of_fmap. split.
  - intros (k & -> & Hk). apply elem_of_seq in Hk. lia.
  - intros Hi. exists (Z.to_nat i). split; [lia|]. apply elem_of_seq. lia.
Qed.

Lemma length_positions n : length (positions n) = n.
Proof. unfold positions. by rewrite length_fmap, length_seq. Qed.

Lemma NoDup_positions n : NoDup (positions n).
Proof.
  unfold positions. apply NoDup_fmap_2; [|apply NoDup_seq].
  intros a b. lia.
Qed.

Lemma index_select_in_range row i :
  0 <= i < Z.of_nat (length row) -> index_select row i = Ok (value_at row i).
Proof.
  intros Hi. unfold index_select, value_at. cbv zeta.
  rewrite (decide_False (P := i < 0)) by lia.
  rewrite decide_True by lia.
  destruct (row !! Z.to_nat i) as [v|] eqn:Hv; [done|].
  apply lookup_ge_None in Hv. lia.
Qed.

Lemma mapM_Ok_fmap {A B} (f : A -> result B) (g : A -> B) l :
  Forall (fun a => f a = Ok (g a)) l -> mapM f l = Ok (g <$> l).
Proof.
  induction 1 as [|a l Ha _ IH]; [done|].
  simpl. rewrite Ha. simpl. rewrite IH. done.
Qed.

Lemma gather_in_range row p :
  Forall (fun i => 0 <= i < Z.of_nat (length row)) p ->
  gather row p = Ok (value_at row <$> p).
Proof.
  intros Hp. apply mapM_Ok_fmap.
  eapply Forall_impl; [exact Hp|]. intros i. apply index_select_in_range.
Qed.

Lemma value_at_positions row : value_at row <$> positions (length row) = row.
Proof.
  unfold positions. rewrite <- list_fmap_compose.
  apply list_eq. intros k. rewrite list_lookup_fmap.
  destruct (row !! k) as [v|] eqn:Hv.
  - rewrite lookup_seq_lt by (by eapply lookup_lt_Some). simpl.
    unfold value_at. by rewrite Nat2Z.id, Hv.
  - rewrite lookup_seq_ge; [done|]. by apply lookup_ge_None.
Qed.

Section permutation_of_positions.
Context (row p : list Z).
Hypothesis Hperm : p ≡ₚ positions (length row).

Lemma perm_length : length p = length row.
Proof. by rewrite Hperm, length_positions. Qed.

Lemma perm_in_range : Forall (fun i => 0 <= i < Z.of_nat (length row)) p.
Proof.
  apply Forall_forall. intros i Hi. apply elem_of_positions. by rewrite <- Hperm.
Qed.

Lemma perm_NoDup : NoDup p.
Proof. rewrite Hperm. apply NoDup_positions. Qed.

Lemma perm_gather : gather row p = Ok (value_at row <$> p).
Proof. apply gather_in_range, perm_in_range. Qed.

Lemma perm_to_int32 :
  Z.of_nat (length row) < 2 ^ 31 -> to_int32 <$> p = p.
Proof.
  intros Hlen. rewrite <- (list_fmap_id p) at 2.
  apply Forall_fmap_ext. eapply Forall_impl; [apply perm_in_range|].
  intros i Hi. simpl in *. apply to_int32_small. lia.
Qed.
End permutation_of_positions.

Lemma find_index_elem j p :
  j ∈ p -> p !! find_index j p = Some j.
Proof.
  induction p as [|i p IH]; [by intros ?%elem_of_nil|].
  intros Hj. simpl. case_decide as Hij; [by subst|].
  simpl. apply IH. apply elem_of_cons in Hj as [->|]; done.
Qed.

Lemma inverse_permutation_in_range p n :
  p ≡ₚ positions n ->
  Forall (fun k => 0 <= k < Z.of_nat (length p)) (inverse_permutation p).
Proof.
  intros Hp. unfold inverse_permutation. apply Forall_fmap, Forall_forall.
  intros j Hj. simpl.
  assert (j ∈ p) as Hin.
  { rewrite Hp. rewrite Hp, length_positions in Hj. done. }
  apply find_index_elem, lookup_lt_Some in Hin. lia.
Qed.

(** Gathering through a permutation and then through its inverse gives
    the row back. *)
Lemma gather_inverse_permutation row p :
  p ≡ₚ positions (length row) ->
  gather (value_at row <$> p) (inverse_permutation p) = Ok row.
Proof.
  intros Hp.
  rewrite gather_in_range.
  2:{ rewrite length_fmap. by eapply inverse_permutation_in_range. }
  f_equal. unfold inverse_permutation.
  rewrite <- list_fmap_compose, (perm_length _ _ Hp).
  transitivity (value_at row <$> positions (length row));
    [|apply value_at_positions].
  apply Forall_fmap_ext, Forall_forall. intros j Hj. simpl.
  assert (j ∈ p) as Hin by (by rewrite Hp).
  apply find_index_elem in Hin.
  unfold value_at at 1. rewrite Nat2Z.id, list_lookup_fmap, Hin. done.
Qed.

(** With unique group ids any sorting permutation is the stable one. *)
Lemma sorts_ascending_NoDup_stable row p :
  sorts_ascending row p -> NoDup row -> stably_sorts row p.
Proof.
  intros Hs Hnd. split; [done|].
  destruct Hs as [Hperm _].
  intros a b i j v Ha Hb Hab Hi Hj. exfalso.
  assert (Z.to_nat i = Z.to_nat j) as Hij
    by (eapply NoDup_lookup; [exact Hnd|exact Hi|exact Hj]).
  assert (0 <= i /\ 0 <= j) as [? ?].
  { pose proof (perm_in_range _ _ Hperm) as Hr.
    rewrite Forall_forall in Hr.
    split; apply Hr; eapply list_elem_of_lookup_2; eauto. }
  assert (i = j) as -> by lia.
  assert (a = b) by (eapply NoDup_lookup; [by eapply perm_NoDup|exact Ha|exact Hb]).
  lia.
Qed.

(** ** Argsort by insertion meets the contract *)

Section insertion.
Context (row : list Z) (before : Z -> Z -> bool).
Hypothesis before_true : forall i j,
  before i j = true -> value_at row i <= value_at row j.
Hypothesis before_false : forall i j,
  before i j = false -> value_at row j <= value_at row i.

Lemma insert_position_perm i l : insert_position before i l ≡ₚ i :: l.
Proof.
  induction l as [|j l IH]; [done|]. simpl.
  destruct (before i j); [done|]. rewrite IH. apply Permutation_swap.
Qed.

Lemma insert_position_sorted i l :
  Sorted Z.le (value_at row <$> l) ->
  Sorted Z.le (value_at row <$> insert_position before i l).
Proof.
  induction l as [|j l IH]; intros Hs; simpl.
  - repeat constructor.
  - destruct (before i j) eqn:Hb; simpl.
    + constructor; [done|]. constructor. by apply before_true.
    + apply Sorted_inv in Hs as [Hs Hhd]. constructor; [by apply IH|].
      destruct l as [|k l]; simpl.
      * constructor. by apply before_false.
      * destruct (before i k); simpl; constructor.
        -- by apply before_false.
        -- by apply HdRel_inv in Hhd.
Qed.

Lemma foldr_insert_perm l : foldr (insert_position before) [] l ≡ₚ l.
Proof.
  induction l as [|i l IH]; [done|]. simpl.
  by rewrite insert_position_perm, IH.
Qed.

Lemma foldr_insert_sorted l :
  Sorted Z.le (value_at row <$> foldr (insert_position before) [] l).
Proof.
  induction l as [|i l IH]; simpl; [constructor|].
  by apply insert_position_sorted.
Qed.
End insertion.

Lemma insertion_argsort_contract (before : list Z -> Z -> Z -> bool) :
  (forall row i j, before row i j = true -> value_at row i <= value_at row j) ->
  (forall row i j, before row i j = false -> value_at row j <= value_at row i) ->
  argsort_contract (insertion_argsort before).
Proof.
  intros Ht Hf row. unfold insertion_argsort.
  assert (foldr (insert_position (before row)) [] (positions (length row))
          ≡ₚ positions (length row)) as Hperm by apply foldr_insert_perm.
  split; [done|]. eexists. split; [by apply perm_gather|].
  apply foldr_insert_sorted; [apply Ht | apply Hf].
Qed.

Lemma ties_first_contract : argsort_contract (insertion_argsort ties_first).
Proof.
  apply insertion_argsort_contract; unfold ties_first; intros row i j Hb.
  - by apply bool_decide_eq_true in Hb.
  - apply bool_decide_eq_false in Hb. lia.
Qed.

Lemma ties_last_contract : argsort_contract (insertion_argsort ties_last).
Proof.
  apply insertion_argsort_contract; unfold ties_last; intros row i j Hb.
  - apply bool_decide_eq_true in Hb. lia.
  - apply bool_decide_eq_false in Hb. lia.
Qed.


Lemma filled_init `{MoEImports} f g : filled f g (torch_empty_like g) 0.
Proof.
  unfold filled, torch_empty_like. rewrite length_fmap. split; [done|].
  split; [lia|]. intros e row _ He. eexists.
  rewrite list_lookup_fmap, He. simpl. split; [done|]. by rewrite length_replicate.
Qed.

Lemma filled_step f g t k row :
  filled f g t k -> g !! k = Some row -> length (f row) = length row ->
  row_assign t k (f row) = Ok (<[k := f row]> t) /\
  filled f g (<[k := f row]> t) (S k).
Proof.
  intros (Hlen & Hlt & Hge) Hk Hf. split.
  - unfold row_assign. destruct (Hge k row) as (old & -> & Hold); [lia|done|].
    rewrite decide_True by congruence. done.
  - split; [by rewrite length_insert|]. split.
    + intros e row' He Hrow'. destruct (decide (e = k)) as [->|Hne].
      * rewrite list_lookup_insert_eq; [congruence|].
        rewrite Hlen. by eapply lookup_lt_Some.
      * rewrite list_lookup_insert_ne by done. apply Hlt; [lia|done].
    + intros e row' He Hrow'. rewrite list_lookup_insert_ne by lia.
      apply Hge; [lia|done].
Qed.

Lemma filled_full f g t : filled f g t (length g) -> t = f <$> g.
Proof.
  intros (Hlen & Hlt & _). apply list_eq. intros e.
  rewrite list_lookup_fmap. destruct (g !! e) as [row|] eqn:He; simpl.
  - apply Hlt; [by eapply lookup_lt_Some|done].
  - apply lookup_ge_None. rewrite Hlen. by apply lookup_ge_None.
Qed.

Lemma filled_lookup f g t k e row :
  filled f g t k -> (e < k)%nat -> g !! e = Some row -> t !! e = Some (f row).
Proof. intros (_ & Hlt & _). apply Hlt. Qed.

Section sorting.
Context `{MoEImports}.
Hypothesis Hargsort : argsort_contract argsort.

Lemma sort_indices_row_eq row :
  Z.of_nat (length row) < 2 ^ 31 -> sort_indices_row row = argsort row.
Proof.
  intros Hlen. destruct (Hargsort row) as [Hperm _].
  unfold sort_indices_row. by eapply perm_to_int32.
Qed.

Lemma length_sort_indices_row row :
  length (sort_indices_row row) = length row.
Proof.
  destruct (Hargsort row) as [Hperm _].
  unfold sort_indices_row. rewrite length_fmap. by apply perm_length.
Qed.

Lemma length_sorted_row row : length (sorted_row row) = length row.
Proof. unfold sorted_row. by rewrite length_fmap, length_sort_indices_row. Qed.

Lemma gather_sort_indices_row row :
  Z.of_nat (length row) < 2 ^ 31 ->
  gather row (sort_indices_row row) = Ok (sorted_row row).
Proof.
  intros Hlen. destruct (Hargsort row) as [Hperm _].
  unfold sorted_row. rewrite sort_indices_row_eq by done.
  by apply perm_gather.
Qed.

Lemma expert_sorted_row row :
  Z.of_nat (length row) < 2 ^ 31 ->
  expert_sorted row (sort_indices_row row) (sorted_row row).
Proof.
  intros Hlen. pose proof (Hargsort row) as Hs.
  pose proof (gather_sort_indices_row row Hlen) as Hg.
  unfold sorted_row in *. rewrite sort_indices_row_eq in * by done.
  destruct Hs as [Hperm (sorted & Hsorted & Hasc)].
  rewrite Hg in Hsorted. injection Hsorted as <-.
  split; [|split; [done|split; [done|split]]].
  - split; [done|]. eauto.
  - by apply gather_inverse_permutation.
  - intros Hnd. apply sorts_ascending_NoDup_stable; [|done].
    split; [done|]. eauto.
Qed.
End sorting.


Section act_order.
Context `{MoEImports}.
Hypothesis Hargsort : argsort_contract argsort.

Lemma sort_expert_step l k acc r13 r2 :
  sort_inv l acc k ->
  w13_g_idx l !! k = Some r13 -> w2_g_idx l !! k = Some r2 ->
  Z.of_nat (length r13) < 2 ^ 31 -> Z.of_nat (length r2) < 2 ^ 31 ->
  exists acc',
    GPTQMarlinMoEMethod.sort_expert l k acc = Ok acc' /\ sort_inv l acc' (S k).
Proof.
  intros (Hsi13 & Hsi2 & Hs13 & Hs2) H13 H2 Hl13 Hl2.
  destruct (filled_step _ _ _ _ _ Hsi13 H13
              (length_sort_indices_row Hargsort r13)) as [Ea13 Hsi13'].
  destruct (filled_step _ _ _ _ _ Hsi2 H2
              (length_sort_indices_row Hargsort r2)) as [Ea2 Hsi2'].
  destruct (filled_step _ _ _ _ _ Hs13 H13
              (length_sorted_row Hargsort r13)) as [Eb13 Hs13'].
  destruct (filled_step _ _ _ _ _ Hs2 H2
              (length_sorted_row Hargsort r2)) as [Eb2 Hs2'].
  exists
    {| acc_w13_g_idx_sort_indices :=
         <[k:=sort_indices_row r13]> (acc_w13_g_idx_sort_indices acc);
       acc_w2_g_idx_sort_indices :=
         <[k:=sort_indices_row r2]> (acc_w2_g_idx_sort_indices acc);
       acc_w13_sorted_g_idx :=
         <[k:=sorted_row r13]> (acc_w13_sorted_g_idx acc);
       acc_w2_sorted_g_idx :=
         <[k:=sorted_row r2]> (acc_w2_sorted_g_idx acc) |}.
  split; [|split; [exact Hsi13'|split; [exact Hsi2'|split; [exact Hs13'|exact Hs2']]]].
  unfold GPTQMarlinMoEMethod.sort_expert, row_at, sort_indices_row in *.
  rewrite H13, H2. simpl. rewrite Ea13. simpl. rewrite Ea2. simpl.
  rewrite (filled_lookup _ _ _ _ _ _ Hsi13' (Nat.lt_succ_diag_r k) H13).
  rewrite (filled_lookup _ _ _ _ _ _ Hsi2' (Nat.lt_succ_diag_r k) H2).
  simpl.
  pose proof (gather_sort_indices_row Hargsort r13 Hl13) as G13.
  pose proof (gather_sort_indices_row Hargsort r2 Hl2) as G2.
  unfold sort_indices_row in G13, G2.
  rewrite G13. simpl. rewrite Eb13. simpl. rewrite G2. simpl.
  rewrite Eb2. simpl. done.
Qed.

Lemma sort_loop l n : forall k acc,
  length (w2_g_idx l) = length (w13_g_idx l) ->
  Forall (fun row => Z.of_nat (length row) < 2 ^ 31) (w13_g_idx l) ->
  Forall (fun row => Z.of_nat (length row) < 2 ^ 31) (w2_g_idx l) ->
  sort_inv l acc k -> (k + n = length (w13_g_idx l))%nat ->
  exists acc',
    for_each (GPTQMarlinMoEMethod.sort_expert l) (seq k n) acc = Ok acc' /\
    sort_inv l acc' (length (w13_g_idx l)).
Proof.
  induction n as [|n IH]; intros k acc Hlen Hr13 Hr2 Hinv Hk.
  - simpl. exists acc. split; [done|]. by replace (length (w13_g_idx l)) with k by lia.
  - assert (is_Some (w13_g_idx l !! k)) as [r13 H13]
      by (apply lookup_lt_is_Some; lia).
    assert (is_Some (w2_g_idx l !! k)) as [r2 H2]
      by (apply lookup_lt_is_Some; lia).
    destruct (sort_expert_step l k acc r13 r2 Hinv H13 H2) as (acc1 & E1 & Hinv1).
    { eapply (Forall_lookup_1 _ _ _ _ Hr13 H13). }
    { eapply (Forall_lookup_1 _ _ _ _ Hr2 H2). }
    destruct (IH (S k) acc1 Hlen Hr13 Hr2 Hinv1) as (acc' & E' & Hinv'); [lia|].
    exists acc'. split; [|done]. simpl. rewrite E1. simpl. done.
Qed.

Lemma process_act_order_sorted self st :
  GPTQMarlinConfig.desc_act (GPTQMarlinMoEMethod.quant_config self) = true ->
  loaded_layer (layer st) ->
  GPTQMarlinMoEMethod.process_act_order self st
    = (Ok (), {| layer := sorted_layer (layer st); trace := trace st |}).
Proof.
  intros Hda Hl. destruct Hl as [Hlen Hr13 Hr2 _ _ _ _].
  unfold GPTQMarlinMoEMethod.process_act_order.
  set (acc0 :=
    {| acc_w13_g_idx_sort_indices := torch_empty_like (w13_g_idx (layer st));
       acc_w2_g_idx_sort_indices := torch_empty_like (w2_g_idx (layer st));
       acc_w13_sorted_g_idx := torch_empty_like (w13_g_idx (layer st));
       acc_w2_sorted_g_idx := torch_empty_like (w2_g_idx (layer st)) |}).
  assert (sort_inv (layer st) acc0 0) as Hinv0
    by (split; [|split; [|split]]; apply filled_init).
  destruct (sort_loop (layer st) (length (w13_g_idx (layer st))) 0 acc0
              Hlen Hr13 Hr2 Hinv0 eq_refl)
    as (acc & Eacc & Ha & Hb & Hc & Hd).
  apply filled_full in Ha. rewrite <- Hlen in Hb, Hd.
  apply filled_full in Hb. apply filled_full in Hc. apply filled_full in Hd.
  unfold mbind, M_bind, get_state. rewrite Hda. unfold lift.
  subst acc0. rewrite Eacc.
  unfold update_layer, modify. simpl.
  unfold sorted_layer. rewrite Ha, Hb, Hc, Hd. done.
Qed.
End act_order.

Lemma process_act_order_reset `{MoEImports} self st :
  GPTQMarlinConfig.desc_act (GPTQMarlinMoEMethod.quant_config self) = false ->
  GPTQMarlinMoEMethod.process_act_order self st
    = (Ok (), {| layer := reset_layer (layer st); trace := trace st |}).
Proof.
  intros Hda. unfold GPTQMarlinMoEMethod.process_act_order.
  unfold mbind, M_bind, get_state. rewrite Hda. done.
Qed.


Lemma call_ext_Ok {A} c (r : result A) st a st' :
  call_ext c r st = (Ok a, st')
  <-> r = Ok a /\ st' = {| layer := layer st; trace := trace st ++ [c] |}.
Proof. unfold call_ext. split; [by intros [= -> <-] | by intros [-> ->]]. Qed.

Lemma update_layer_Ok f st u st' :
  update_layer f st = (Ok u, st')
  <-> st' = {| layer := f (layer st); trace := trace st |}.
Proof. unfold update_layer. by rewrite modify_Ok. Qed.

Lemma shape_at_Ok t i d : shape_at t i = Ok d <-> shape t !! i = Some d.
Proof.
  unfold shape_at. destruct (shape t !! i); split; try done.
  - by intros [= ->].
  - by intros [= ->].
Qed.

(** Inversion of a successful run of the MoE finalize steps. *)
Ltac inv_moe :=
  repeat first
    [ progress inv_M
    | match goal with
      | H : call_ext _ _ _ = (Ok _, _) |- _ =>
          apply call_ext_Ok in H; destruct H as [H ->]
      | H : update_layer _ _ = (Ok _, _) |- _ =>
          apply update_layer_Ok in H; subst
      | H : shape_at _ _ = Ok _ |- _ => apply shape_at_Ok in H
      end ].

Section finalize.
Context `{MoEImports}.

Lemma repack_weights_index_tensors self st r st' :
  GPTQMarlinMoEMethod.repack_weights self st = (r, st') ->
  same_index_tensors (layer st) (layer st').
Proof.
  unfold GPTQMarlinMoEMethod.repack_weights, mbind, M_bind, get_state, lift,
    call_ext, update_layer, modify, same_index_tensors.
  repeat case_match; intros ?; simplify_eq/=; done.
Qed.

Lemma repack_scales_index_tensors self st r st' :
  GPTQMarlinMoEMethod.repack_scales self st = (r, st') ->
  same_index_tensors (layer st) (layer st').
Proof.
  unfold GPTQMarlinMoEMethod.repack_scales, mbind, M_bind, get_state, lift,
    call_ext, update_layer, modify, same_index_tensors.
  repeat case_match; intros ?; simplify_eq/=; done.
Qed.

(** Whatever the kernels answer, the index tensors after finalize are
    those the activation-order step left. *)
Lemma finalize_index_tensors self st l1 r st' :
  GPTQMarlinMoEMethod.process_act_order self st
    = (Ok (), {| layer := l1; trace := trace st |}) ->
  GPTQMarlinMoEMethod.process_weights_after_loading self st = (r, st') ->
  same_index_tensors l1 (layer st').
Proof.
  intros Hact. unfold GPTQMarlinMoEMethod.process_weights_after_loading.
  unfold mbind at 1, M_bind at 1. rewrite Hact.
  unfold mbind, M_bind.
  destruct (GPTQMarlinMoEMethod.repack_weights self _) as [[[]|e] st1] eqn:Hw.
  - intros Hs. apply repack_weights_index_tensors in Hw.
    apply repack_scales_index_tensors in Hs.
    destruct Hw as (? & ? & ? & ?), Hs as (? & ? & ? & ?).
    simpl in *. repeat split; congruence.
  - intros [= <- <-]. by apply repack_weights_index_tensors in Hw.
Qed.

(** A successful finalize ends with the scale permutation of
    [w2_scales], called on the tensor as it was loaded. *)
Lemma finalize_Ok_trace self st st' :
  GPTQMarlinMoEMethod.process_weights_after_loading self st = (Ok (), st') ->
  exists calls rows n2,
    shape (w2_scales (layer st)) !! 1%nat = Some rows /\
    shape (w2_scales (layer st)) !! 2%nat = Some n2 /\
    trace st' = trace st ++ calls ++
      [Call_marlin_moe_permute_scales (w2_scales (layer st))
         (GPTQMarlinMoEMethod.w2_scales_size_k
            (GPTQMarlinMoEMethod.quant_config self) rows)
         n2
         (GPTQMarlinConfig.group_size (GPTQMarlinMoEMethod.quant_config self))].
Proof.
  unfold GPTQMarlinMoEMethod.process_weights_after_loading.
  intros Hp. apply M_bind_Ok in Hp as ([] & st1 & Hact & Hp).
  apply M_bind_Ok in Hp as ([] & st2 & Hw & Hs).
  assert (w2_scales (layer st1) = w2_scales (layer st) /\ trace st1 = trace st)
    as [Hsc1 Ht1].
  { unfold GPTQMarlinMoEMethod.process_act_order in Hact.
    destruct (GPTQMarlinConfig.desc_act _); inv_moe; done. }
  unfold GPTQMarlinMoEMethod.repack_weights in Hw.
  unfold GPTQMarlinMoEMethod.repack_scales in Hs.
  inv_moe. simpl in *. rewrite Hsc1 in *. rewrite Ht1.
  eexists [_; _; _], _, _. split; [eassumption|]. split; [eassumption|].
  rewrite <- !app_assoc. done.
Qed.
End finalize.

Lemma shape_at_3d t i :
  (3 <= length (shape t))%nat -> (i < 3)%nat -> exists d, shape_at t i = Ok d.
Proof.
  intros Ht Hi. unfold shape_at.
  destruct (lookup_lt_is_Some_2 (shape t) i) as [d ->]; [lia|]. eauto.
Qed.

Section finalize_succeeds.
Context `{MoEImports}.
Hypothesis Hargsort : argsort_contract argsort.
Hypothesis Hkernels : kernels_accept.

Lemma loaded_sorted_layer l : loaded_layer l -> loaded_layer (sorted_layer l).
Proof.
  intros [Hlen Hr13 Hr2 ? ? ? ?]. split; simpl; try done.
  - by rewrite !length_fmap.
  - apply Forall_fmap. eapply Forall_impl; [exact Hr13|].
    intros row ?. simpl. by rewrite length_sorted_row.
  - apply Forall_fmap. eapply Forall_impl; [exact Hr2|].
    intros row ?. simpl. by rewrite length_sorted_row.
Qed.

Lemma loaded_reset_layer l : loaded_layer l -> loaded_layer (reset_layer l).
Proof.
  intros [Hlen Hr13 Hr2 ? ? ? ?]. split; simpl; try done.
  all: apply Forall_replicate; simpl; lia.
Qed.

Lemma process_act_order_succeeds self st :
  loaded_layer (layer st) ->
  exists l1,
    GPTQMarlinMoEMethod.process_act_order self st
      = (Ok (), {| layer := l1; trace := trace st |}) /\
    loaded_layer l1.
Proof.
  intros Hl.
  destruct (GPTQMarlinConfig.desc_act (GPTQMarlinMoEMethod.quant_config self))
    eqn:Hda.
  - exists (sorted_layer (layer st)).
    split; [by apply process_act_order_sorted | by apply loaded_sorted_layer].
  - exists (reset_layer (layer st)).
    split; [by apply process_act_order_reset | by apply loaded_reset_layer].
Qed.

Lemma repack_weights_succeeds self st :
  loaded_layer (layer st) ->
  exists st',
    GPTQMarlinMoEMethod.repack_weights self st = (Ok (), st') /\
    loaded_layer (layer st') /\
    length (trace st') = (length (trace st) + 2)%nat.
Proof.
  intros [Hlen Hr13 Hr2 Hq13 Hq2 Hs13 Hs2].
  destruct Hkernels as [Hrepack _].
  destruct (shape_at_3d (w13_qweight (layer st)) 1) as [a1 Ea1]; [done|lia|].
  destruct (shape_at_3d (w13_qweight (layer st)) 2) as [a2 Ea2]; [done|lia|].
  destruct (shape_at_3d (w2_qweight (layer st)) 1) as [b1 Eb1]; [done|lia|].
  destruct (shape_at_3d (w2_qweight (layer st)) 2) as [b2 Eb2]; [done|lia|].
  unfold GPTQMarlinMoEMethod.repack_weights, mbind, M_bind, get_state, lift,
    call_ext, update_layer, modify.
  rewrite Ea1, Ea2.
  destruct (Hrepack (w13_qweight (layer st))
              (w13_g_idx_sort_indices (layer st))
              (a1 * GPTQMarlinConfig.pack_factor
                      (GPTQMarlinMoEMethod.quant_config self)) a2
              (size_bits (GPTQMarlinConfig.quant_type
                            (GPTQMarlinMoEMethod.quant_config self))) Hq13)
    as (w13' & -> & H13'). simpl.
  rewrite Eb1, Eb2.
  destruct (Hrepack (w2_qweight (layer st))
              (w2_g_idx_sort_indices (layer st))
              (b1 * GPTQMarlinConfig.pack_factor
                      (GPTQMarlinMoEMethod.quant_config self)) b2
              (size_bits (GPTQMarlinConfig.quant_type
                            (GPTQMarlinMoEMethod.quant_config self))) Hq2)
    as (w2' & -> & H2'). simpl.
  eexists. split; [done|]. simpl. split; [by split|].
  rewrite !length_app. simpl. lia.
Qed.

Lemma repack_scales_succeeds self st :
  loaded_layer (layer st) ->
  exists st',
    GPTQMarlinMoEMethod.repack_scales self st = (Ok (), st') /\
    loaded_layer (layer st') /\
    length (trace st') = (length (trace st) + 2)%nat.
Proof.
  intros [Hlen Hr13 Hr2 Hq13 Hq2 Hs13 Hs2].
  destruct Hkernels as [_ Hpermute].
  destruct (shape_at_3d (w13_scales (layer st)) 2) as [a2 Ea2]; [done|lia|].
  destruct (shape_at_3d (w2_scales (layer st)) 1) as [b1 Eb1]; [done|lia|].
  destruct (shape_at_3d (w2_scales (layer st)) 2) as [b2 Eb2]; [done|lia|].
  unfold GPTQMarlinMoEMethod.repack_scales, mbind, M_bind, get_state, lift,
    call_ext, update_layer, modify.
  rewrite Ea2.
  destruct (Hpermute (w13_scales (layer st))
              (intermediate_size_per_partition (layer st)) a2
              (GPTQMarlinConfig.group_size
                 (GPTQMarlinMoEMethod.quant_config self)) Hs13)
    as (s13' & -> & H13'). simpl.
  rewrite Eb1, Eb2.
  destruct (Hpermute (w2_scales (layer st))
              (GPTQMarlinMoEMethod.w2_scales_size_k
                 (GPTQMarlinMoEMethod.quant_config self) b1) b2
              (GPTQMarlinConfig.group_size
                 (GPTQMarlinMoEMethod.quant_config self)) Hs2)
    as (s2' & -> & H2'). simpl.
  eexists. split; [done|]. simpl. split; [by split|].
  rewrite !length_app. simpl. lia.
Qed.

Lemma finalize_succeeds self st :
  loaded_layer (layer st) ->
  exists st',
    GPTQMarlinMoEMethod.process_weights_after_loading self st = (Ok (), st') /\
    loaded_layer (layer st') /\
    length (trace st') = (length (trace st) + 4)%nat.
Proof.
  intros Hl.
  destruct (process_act_order_succeeds self st Hl) as (l1 & E1 & Hl1).
  destruct (repack_weights_succeeds self {| layer := l1; trace := trace st |} Hl1)
    as (st2 & E2 & Hl2 & Ht2).
  destruct (repack_scales_succeeds self st2 Hl2) as (st3 & E3 & Hl3 & Ht3).
  exists st3. split; [|split; [done|simpl in *; lia]].
  unfold GPTQMarlinMoEMethod.process_weights_after_loading.
  unfold mbind, M_bind. by rewrite E1, E2, E3.
Qed.
End finalize_succeeds.

(** ** Policy construction *)

(** C4: constructing a configuration succeeds exactly when
    [(weight_bits, is_sym)] is [(4, true)] or [(8, true)], and then its
    quantization type is the one [TYPE_MAP] gives for that pair, of the
    same bit width, with distinct pairs mapped to distinct types; for
    every other pair the constructor raises ([ZeroDivisionError] for
    zero bits, from the pack factor, [ValueError] otherwise); the MoE
    method constructor accepts exactly the bit widths 4 and 8 and
    raises [ValueError] on any other. *)
Theorem policy_construction_supported_pairs
    (bits gs : Z) (da sym lm : bool) (dyn : pydict (pydict value))
    (full : pydict value) :
  let r := GPTQMarlinConfig.__init__ bits gs da sym lm dyn full in
  let supported := (bits, sym) = (4, true) \/ (bits, sym) = (8, true) in
  (is_Ok r <-> supported) /\
  (~ supported ->
   r = Raise (if decide (bits = 0) then ZeroDivisionError else ValueError)) /\
  (forall cfg, r = Ok cfg ->
     GPTQMarlinConfig.TYPE_MAP !! (bits, sym)
       = Some (GPTQMarlinConfig.quant_type cfg) /\
     size_bits (GPTQMarlinConfig.quant_type cfg) = bits /\
     (bits = 4 -> GPTQMarlinConfig.quant_type cfg = scalar_types.uint4b8) /\
     (bits = 8 -> GPTQMarlinConfig.quant_type cfg = scalar_types.uint8b128)) /\
  (forall k1 k2 qt,
     GPTQMarlinConfig.TYPE_MAP !! k1 = Some qt ->
     GPTQMarlinConfig.TYPE_MAP !! k2 = Some qt -> k1 = k2) /\
  (forall cfg : GPTQMarlinConfig.t,
     let b := size_bits (GPTQMarlinConfig.quant_type cfg) in
     (is_Ok (GPTQMarlinMoEMethod.__init__ cfg) <-> b = 4 \/ b = 8) /\
     (~ (b = 4 \/ b = 8) ->
      GPTQMarlinMoEMethod.__init__ cfg = Raise ValueError)).
Proof.
  intros r supported. subst r supported. repeat split.
  - intros [cfg Hc]. apply config_init_Ok in Hc as (_ & qt & Hqt & _).
    apply TYPE_MAP_lookup_Some in Hqt as [(-> & -> & _) | (-> & -> & _)]; auto.
  - intros Hs.
    assert (bits ≠ 0 /\ exists qt,
              GPTQMarlinConfig.TYPE_MAP !! (bits, sym) = Some qt)
      as (Hb & qt & Hqt).
    { destruct Hs as [[= -> ->] | [= -> ->]]; (split; [done|]);
        eexists; apply TYPE_MAP_lookup_Some; eauto. }
    eexists. apply config_init_Ok. eauto.
  - intros Hn. unfold GPTQMarlinConfig.__init__, floordiv.
    case_decide as Hb; [done|]. simpl.
    destruct (GPTQMarlinConfig.TYPE_MAP !! (bits, sym)) as [qt|] eqn:Hqt;
      [|done].
    exfalso. apply Hn.
    apply TYPE_MAP_lookup_Some in Hqt as [(-> & -> & _) | (-> & -> & _)]; auto.
  - apply config_init_Ok in H as (_ & qt & Hqt & ->). done.
  - apply config_init_Ok in H as (_ & qt & Hqt & ->). simpl.
    by apply TYPE_MAP_lookup_Some in Hqt as [(-> & _ & ->) | (-> & _ & ->)].
  - intros ->. apply config_init_Ok in H as (_ & qt & Hqt & ->). simpl.
    by apply TYPE_MAP_lookup_Some in Hqt as [(_ & _ & ->) | (? & _ & _)].
  - intros ->. apply config_init_Ok in H as (_ & qt & Hqt & ->). simpl.
    by apply TYPE_MAP_lookup_Some in Hqt as [(? & _ & _) | (_ & _ & ->)].
  - intros [b1 s1] [b2 s2] qt H1 H2.
    apply TYPE_MAP_lookup_Some in H1 as [(-> & -> & ->) | (-> & -> & ->)];
      by apply TYPE_MAP_lookup_Some in H2 as [(-> & -> & ?) | (-> & -> & ?)].
  - intros [m Hm]. unfold GPTQMarlinMoEMethod.__init__ in Hm.
    repeat case_decide; auto. done.
  - unfold GPTQMarlinMoEMethod.__init__.
    intros [-> | ->]; [|case_decide; [done|]]; by eexists.
  - intros Hn. unfold GPTQMarlinMoEMethod.__init__.
    repeat case_decide; try done; exfalso; auto.
Qed.

(** ** Packed weight shape *)

(** C3: every linear layer [create_weights] succeeds on has a packed
    weight of shape [(input_size_per_partition // pack_factor,
    output_size_per_partition)], packed along dimension 0 by
    [pack_factor], where a constructed configuration has
    [pack_factor = 32 // weight_bits]; with 4 bits, group size 128 and
    4096 input and output features the packed weight is [(512, 4096)]
    and the scales have 32 rows. *)
Theorem packed_weight_shape `{LinearImports} (ispp : Z) (ops : list Z)
    (isz osz : Z) (dt : dtype) (st st' : GPTQMarlinLinearMethod.state) :
  GPTQMarlinLinearMethod.create_weights ispp ops isz osz dt st = (Ok (), st') ->
  let cfg :=
    GPTQMarlinLinearMethod.quant_config (GPTQMarlinLinearMethod.self st) in
  (exists qweight,
     GPTQMarlinLinearMethod.layer st' !! "qweight" = Some qweight /\
     shape (data qweight) =
       [ispp `div` GPTQMarlinConfig.pack_factor cfg; sum ops] /\
     packed_dim qweight = Some 0 /\
     packed_factor qweight = Some (GPTQMarlinConfig.pack_factor cfg)) /\
  (forall bits gs da sym lm dyn full,
     GPTQMarlinConfig.__init__ bits gs da sym lm dyn full = Ok cfg ->
     GPTQMarlinConfig.pack_factor cfg = 32 `div` bits) /\
  (forall da sym lm dyn full,
     GPTQMarlinConfig.__init__ 4 128 da sym lm dyn full = Ok cfg ->
     ispp = 4096 -> isz = 4096 -> sum ops = 4096 ->
     exists qweight scales,
       GPTQMarlinLinearMethod.layer st' !! "qweight" = Some qweight /\
       shape (data qweight) = [512; 4096] /\
       GPTQMarlinLinearMethod.layer st' !! "scales" = Some scales /\
       shape (data scales) = [32; 4096]).
Proof.
  intros Hc cfg.
  destruct (linear_create_weights_Ok _ _ _ _ _ _ _ Hc)
    as (Hpf & Hgs & Hq & _ & Hs & _).
  fold cfg in Hpf, Hgs, Hq, Hs. clearbody cfg. repeat split.
  - eexists. split; [exact Hq|]. done.
  - intros bits gs da sym lm dyn full Hi.
    apply config_init_Ok in Hi as (Hb & qt & Hqt & Hcfg). by rewrite Hcfg.
  - intros da sym lm dyn full Hi -> -> Hsum.
    apply config_init_Ok in Hi as (Hb & qt & Hqt & ->).
    unfold scale_rows, GPTQMarlinLinearMethod.effective_group_size in Hs.
    simpl in Hq, Hs. rewrite Hsum in Hq, Hs.
    do 2 eexists. split; [exact Hq|]. split; [reflexivity|].
    split; [exact Hs|]. simpl.
    destruct (marlin_repeat_scales_on_all_ranks _ _ _); reflexivity.
Qed.

Lemma packed_weight_shape_witness :
  let cfg := example_config 4 128 true in
  let run :=
    GPTQMarlinLinearMethod.create_weights (H := example_linear_imports)
      4096 [4096] 4096 4096 float16 (example_linear_state cfg) in
  run.1 = Ok () /\
  exists qweight scales,
    GPTQMarlinLinearMethod.layer run.2 !! "qweight" = Some qweight /\
    shape (data qweight) = [512; 4096] /\
    GPTQMarlinLinearMethod.layer run.2 !! "scales" = Some scales /\
    shape (data scales) = [32; 4096].
Proof.
  intros cfg run.
  assert (run = (Ok (), run.2)) as Hrun by (vm_compute; reflexivity).
  split; [by rewrite Hrun|].
  destruct (packed_weight_shape (H := example_linear_imports)
              _ _ _ _ _ _ _ Hrun) as (_ & _ & Hex).
  apply (Hex true true false [] []); reflexivity.
Defined.

(** ** MoE finalize: the index tensors *)

Lemma example_layer_loaded : loaded_layer (example_layer example_g13 example_g2).
Proof.
  split; simpl; try lia; try done.
  all: repeat (apply Forall_cons; split; [simpl; lia|]); by apply Forall_nil.
Qed.

(** C6: with activation order disabled, finalize leaves every [g_idx]
    and sort-indices tensor as an explicit tensor of shape
    [(num_experts, 0)], one empty row per expert, whatever the kernels
    called afterwards answer. *)
Theorem disabled_act_order_resets_index_tensors `{MoEImports}
    (self : GPTQMarlinMoEMethod.t) (st : moe_state) (r : result ())
    (st' : moe_state) :
  GPTQMarlinConfig.desc_act (GPTQMarlinMoEMethod.quant_config self) = false ->
  GPTQMarlinMoEMethod.process_weights_after_loading self st = (r, st') ->
  let num_experts := length (w13_g_idx (layer st)) in
  w13_g_idx (layer st') = torch_empty_n_0 num_experts /\
  w2_g_idx (layer st') = torch_empty_n_0 num_experts /\
  w13_g_idx_sort_indices (layer st') = torch_empty_n_0 num_experts /\
  w2_g_idx_sort_indices (layer st') = torch_empty_n_0 num_experts /\
  length (torch_empty_n_0 num_experts) = num_experts /\
  Forall (fun row => length row = 0%nat) (torch_empty_n_0 num_experts).
Proof.
  intros Hda Hrun num_experts.
  pose proof (process_act_order_reset self st Hda) as Hact.
  destruct (finalize_index_tensors _ _ _ _ _ Hact Hrun) as (-> & -> & -> & ->).
  repeat split; try done.
  - apply length_replicate.
  - by apply Forall_replicate.
Qed.

Lemma disabled_act_order_resets_index_tensors_witness :
  let run :=
    GPTQMarlinMoEMethod.process_weights_after_loading (H := stable_imports)
      (example_moe_method 4 (-1) false)
      (example_state example_g13 example_g2) in
  run.1 = Ok () /\
  w13_g_idx (layer run.2) = [[]; []] /\
  w2_g_idx (layer run.2) = [[]; []] /\
  w13_g_idx_sort_indices (layer run.2) = [[]; []] /\
  w2_g_idx_sort_indices (layer run.2) = [[]; []].
Proof.
  intros run. split; [vm_compute; reflexivity|].
  destruct (disabled_act_order_resets_index_tensors (H := stable_imports)
              (example_moe_method 4 (-1) false)
              (example_state example_g13 example_g2)
              run.1 run.2 eq_refl (surjective_pairing run))
    as (H13 & H2 & Hs13 & Hs2 & _).
  repeat split; assumption.
Defined.

(** ** MoE finalize: the scale permutation of the down projection *)



(** ** MoE finalize: the activation-order sort *)




(** ** Finalizing twice *)


Lemma example_kernels_accept sort : @kernels_accept (example_imports sort).
Proof.
  unfold kernels_accept. simpl. split.
  - intros w perm k n bits Hw. exists w. by split.
  - intros s k n g Hs. exists s. by split.
Qed.



(** ** MoE apply *)

(** C8: [apply] with [enable_eplb] set raises [NotImplementedError], and
    otherwise with an activation other than ["silu"] fails its
    assertion; in both cases nothing has been called and the layer is
    untouched. *)
Theorem apply_rejects_unsupported `{MoEImports}
    (self : GPTQMarlinMoEMethod.t) (a : apply_args) (st : moe_state) :
  (enable_eplb a = true ->
   GPTQMarlinMoEMethod.apply self a st = (Raise NotImplementedError, st)) /\
  (enable_eplb a = false -> activation a ≠ "silu" ->
   GPTQMarlinMoEMethod.apply self a st = (Raise AssertionError, st)) /\
  (enable_eplb a = true \/ activation a ≠ "silu" ->
   forall r st', GPTQMarlinMoEMethod.apply self a st = (r, st') ->
     is_Raise r /\ trace st' = trace st /\ layer st' = layer st).
Proof.
  assert (enable_eplb a = true ->
          GPTQMarlinMoEMethod.apply self a st = (Raise NotImplementedError, st))
    as Heplb.
  { intros He. unfold GPTQMarlinMoEMethod.apply. by rewrite He. }
  assert (enable_eplb a = false -> activation a ≠ "silu" ->
          GPTQMarlinMoEMethod.apply self a st = (Raise AssertionError, st))
    as Hact.
  { intros He Ha. unfold GPTQMarlinMoEMethod.apply. rewrite He.
    by rewrite bool_decide_eq_false_2. }
  split; [done|]. split; [done|].
  intros Hbad r st' Hrun.
  destruct (enable_eplb a) eqn:He.
  - rewrite Heplb in Hrun by done. injection Hrun as <- <-.
    split; [by eexists|done].
  - destruct Hbad as [?|Ha]; [done|].
    rewrite Hact in Hrun by done. injection Hrun as <- <-.
    split; [by eexists|done].
Qed.

Lemma apply_rejects_unsupported_witness :
  let st := example_state example_g13 example_g2 in
  let args := default_apply_args (Tensor [1; 4] float16) (Tensor [1; 2] float16) 1 true in
  let eplb :=
    {| x := x args; router_logits := router_logits args; top_k := top_k args;
       renormalize := renormalize args;
       use_grouped_topk := use_grouped_topk args;
       topk_group := topk_group args;
       num_expert_group := num_expert_group args;
       global_num_experts := global_num_experts args;
       expert_map := expert_map args;
       custom_routing_function := custom_routing_function args;
       scoring_func := scoring_func args;
       e_score_correction_bias := e_score_correction_bias args;
       apply_router_weight_on_input := apply_router_weight_on_input args;
       activation := activation args;
       enable_eplb := true;
       expert_load_view := expert_load_view args;
       logical_to_physical_map := logical_to_physical_map args;
       logical_replica_count := logical_replica_count args |} in
  GPTQMarlinMoEMethod.apply (H := stable_imports)
    (example_moe_method 4 2 true) eplb st = (Raise NotImplementedError, st) /\
  (GPTQMarlinMoEMethod.apply (H := stable_imports)
     (example_moe_method 4 2 true) args st).1 = Ok (Tensor [1; 4] float16).
Proof.
  intros st args eplb. split; [|vm_compute; reflexivity].
  apply (apply_rejects_unsupported (H := stable_imports)
           (example_moe_method 4 2 true) eplb st).
  reflexivity.
Defined.

(** ** Per-layer override resolution *)

Section resolver.
Context `{ResolverImports}.

Lemma get_dynamic_override_exclude cfg layer_name before rule after :
  GPTQMarlinConfig.dynamic cfg = before ++ rule :: after ->
  rule_matches Negative layer_name rule = true ->
  get_dynamic_override cfg layer_name = OverrideFalse.
Proof.
  intros Hd Hm. unfold get_dynamic_override. rewrite Hd.
  rewrite existsb_app. simpl. rewrite Hm. by rewrite orb_true_r.
Qed.

Lemma get_dynamic_override_no_match cfg layer_name :
  (forall rule pol, rule ∈ GPTQMarlinConfig.dynamic cfg ->
     rule_matches pol layer_name rule = false) ->
  get_dynamic_override cfg layer_name = OverrideNone.
Proof.
  intros Hno. unfold get_dynamic_override.
  set (rules := GPTQMarlinConfig.dynamic cfg) in *. clearbody rules.
  assert (existsb (rule_matches Negative layer_name) rules = false) as ->.
  { induction rules as [|rule rules IH]; [done|]. cbn [existsb].
    rewrite (Hno rule Negative) by apply list_elem_of_here.
    apply IH. intros rule' pol Hin. apply Hno. by apply list_elem_of_further. }
  assert (filter (fun r => rule_matches Positive layer_name r = true) rules = [])
    as ->; [|done].
  induction rules as [|rule rules IH]; [done|].
  rewrite filter_cons_False.
  - apply IH. intros rule' pol Hin. apply Hno. by apply list_elem_of_further.
  - rewrite (Hno rule Positive) by apply list_elem_of_here. done.
Qed.

Lemma fresh_loc_ne (h : heap) (c : loc) cfg :
  h !! c = Some cfg -> fresh (dom h) ≠ c.
Proof.
  intros Hc Heq. apply (is_fresh (dom h)). rewrite Heq.
  apply elem_of_dom. eauto.
Qed.

(** [get_moe_quant_method] on a FusedMoE layer, in closed form. *)
Lemma get_moe_quant_method_run h config base moe_config prefix :
  h !! config = Some base ->
  let cloned := fresh (dom h) in
  get_moe_quant_method config (FusedMoE moe_config) prefix
    GPTQMarlinMoEMethod_cls h
  = match get_dynamic_override base prefix with
    | OverrideFalse =>
        (Ok (Some (UnquantizedFusedMoEMethod moe_config)), <[cloned := base]> h)
    | _ =>
        ((fun m => Some (MarlinMoEMethod cloned m))
           <$> GPTQMarlinMoEMethod.__init__ (overridden_config base prefix),
         <[cloned := overridden_config base prefix]> h)
    end.
Proof.
  intros Hc cloned.
  unfold get_moe_quant_method, deepcopy, mbind, M_bind. rewrite Hc. simpl.
  fold cloned. unfold read at 1. rewrite lookup_insert_eq.
  unfold overridden_config.
  destruct (get_dynamic_override base prefix) as [| |fields] eqn:Hov; [done| |].
  - case_decide as Hp.
    + unfold override_config, mbind, M_bind, read. rewrite lookup_insert_eq, Hov.
      simpl. unfold GPTQMarlinMoEMethod_cls, mbind, M_bind, read, lift.
      rewrite lookup_insert_eq.
      by destruct (GPTQMarlinMoEMethod.__init__ base).
    + simpl. unfold GPTQMarlinMoEMethod_cls, mbind, M_bind, read, lift.
      rewrite lookup_insert_eq.
      by destruct (GPTQMarlinMoEMethod.__init__ base).
  - case_decide as Hp.
    + unfold override_config, mbind, M_bind, read. rewrite lookup_insert_eq, Hov.
      unfold write, modify. rewrite insert_insert_eq.
      unfold GPTQMarlinMoEMethod_cls, mbind, M_bind, read, lift.
      rewrite lookup_insert_eq.
      by destruct (GPTQMarlinMoEMethod.__init__ _).
    + simpl. unfold GPTQMarlinMoEMethod_cls, mbind, M_bind, read, lift.
      rewrite lookup_insert_eq.
      by destruct (GPTQMarlinMoEMethod.__init__ base).
Qed.
End resolver.



(** ** Replication and sharding of scales and zero points *)

(** C1, as the code has it.  For a linear layer the scale and
    zero-point parameters are replicated (input dimension [None], row
    count [input_size // effective_group_size]) exactly when
    [marlin_repeat_scales_on_all_ranks(desc_act, group_size,
    is_row_parallel)] holds, and sharded along the input-group axis
    (input dimension 0, row count [input_size_per_partition //
    effective_group_size]) otherwise; when that helper is the rule of
    the spec, replication is the case of activation order disabled or a
    partition that is not row-parallel, and sharding the case of
    activation order enabled on a row-parallel partition.  The MoE
    down-projection scales and zero points do not follow that rule:
    with a group size other than -1 they have
    [intermediate_size_full // group_size] rows and are loaded unsharded
    ([load_full_w2]) when activation order is enabled, and
    [intermediate_size_per_partition // group_size] rows when it is
    disabled; with group size -1 they have one row. *)
Theorem scale_replication_and_sharding `{LinearImports} `{MoEImports}
    (ispp : Z) (ops : list Z) (isz osz : Z) (dt : dtype)
    (st st' : GPTQMarlinLinearMethod.state)
    (self self' : GPTQMarlinMoEMethod.t) (lispp E hidden mispp full : Z)
    (l : moe_layer) :
  (GPTQMarlinLinearMethod.create_weights ispp ops isz osz dt st = (Ok (), st') ->
   let cfg :=
     GPTQMarlinLinearMethod.quant_config (GPTQMarlinLinearMethod.self st) in
   let repl :=
     marlin_repeat_scales_on_all_ranks (GPTQMarlinConfig.desc_act cfg)
       (GPTQMarlinConfig.group_size cfg) (bool_decide (isz ≠ ispp)) in
   let rows :=
     (if repl then isz else ispp)
     `div` GPTQMarlinLinearMethod.effective_group_size cfg isz in
   (exists scales qzeros,
      GPTQMarlinLinearMethod.layer st' !! "scales" = Some scales /\
      GPTQMarlinLinearMethod.layer st' !! "qzeros" = Some qzeros /\
      input_dim scales = (if repl then None else Some 0) /\
      input_dim qzeros = (if repl then None else Some 0) /\
      shape (data scales) = [rows; sum ops] /\
      shape (data qzeros) =
        [rows; sum ops `div` GPTQMarlinConfig.pack_factor cfg]) /\
   ((forall a g r,
       marlin_repeat_scales_on_all_ranks a g r
         = spec_repeat_scales_on_all_ranks a g r) ->
    (repl = true <-> GPTQMarlinConfig.desc_act cfg = false \/ isz = ispp) /\
    (repl = false <-> GPTQMarlinConfig.desc_act cfg = true /\ isz ≠ ispp))) /\
  (GPTQMarlinMoEMethod.create_weights self lispp E hidden mispp dt full
     = Ok (self', l) ->
   let cfg := GPTQMarlinMoEMethod.quant_config self in
   let pf := GPTQMarlinConfig.pack_factor cfg in
   let gs := GPTQMarlinConfig.group_size cfg in
   let w2_rows :=
     if decide (gs = -1) then 1
     else (if GPTQMarlinConfig.desc_act cfg then full else mispp) `div` gs in
   shape (w2_scales l) = [E; w2_rows; hidden] /\
   shape (w2_qzeros l) = [E; w2_rows; hidden `div` pf] /\
   w2_scales_load_full_w2 l = GPTQMarlinConfig.desc_act cfg /\
   w2_qzeros_load_full_w2 l = GPTQMarlinConfig.desc_act cfg).
Proof.
  split.
  - intros Hc cfg repl rows.
    destruct (linear_create_weights_Ok _ _ _ _ _ _ _ Hc)
      as (_ & _ & _ & _ & Hs & Hz).
    fold cfg in Hs, Hz. fold repl in Hs, Hz. split.
    + do 2 eexists. split; [exact Hs|]. split; [exact Hz|]. done.
    + intros Hspec. subst repl. rewrite Hspec.
      unfold spec_repeat_scales_on_all_ranks.
      destruct (GPTQMarlinConfig.desc_act cfg); simpl.
      * rewrite negb_true_iff, negb_false_iff, bool_decide_eq_false,
          bool_decide_eq_true.
        split; split.
        -- intros Hn. right. by apply dec_stable.
        -- intros [? | ->]; [done|]. by intros Hn.
        -- done.
        -- by intros [_ ?].
      * split; split; try done; auto. by intros [? _].
  - intros Hc cfg pf gs w2_rows.
    destruct (moe_create_weights_Ok _ _ _ _ _ _ _ _ _ Hc)
      as (s13 & s2 & strategy & Hs & _ & _ & _ & _ & _ & Hw2 & _ & Hz2 & _ & _
          & _ & Hl1 & Hl2 & _).
    fold cfg in Hs, Hw2, Hz2, Hl1, Hl2. fold pf in Hz2.
    assert (s2 = w2_rows) as ->.
    { subst w2_rows gs.
      apply scales_sizes_Ok in Hs as [(Hg & _ & -> & _) | (Hg & _ & _ & -> & _)].
      - by rewrite decide_True.
      - by rewrite decide_False. }
    done.
Qed.

Lemma scale_replication_and_sharding_witness :
  let cfg := example_config 4 128 true in
  let linear :=
    GPTQMarlinLinearMethod.create_weights (H := example_linear_imports)
      2048 [4096] 4096 4096 float16 (example_linear_state cfg) in
  let moe :=
    GPTQMarlinMoEMethod.create_weights (H := stable_imports)
      (example_moe_method 4 128 true) 512 8 2048 512 float16 1024 in
  linear.1 = Ok () /\
  (exists scales,
     GPTQMarlinLinearMethod.layer linear.2 !! "scales" = Some scales /\
     input_dim scales = Some 0 /\ shape (data scales) = [16; 4096]) /\
  exists self' l,
    moe = Ok (self', l) /\ shape (w2_scales l) = [8; 8; 2048] /\
    w2_scales_load_full_w2 l = true.
Proof.
  intros cfg linear moe.
  assert (linear = (Ok (), linear.2)) as Hlin by (vm_compute; reflexivity).
  assert (exists self' l, moe = Ok (self', l)) as (self' & l & Hmoe)
    by (vm_compute; eauto).
  destruct (scale_replication_and_sharding
              (H := example_linear_imports) (H0 := stable_imports)
              2048 [4096] 4096 4096 float16 (example_linear_state cfg) linear.2
              (example_moe_method 4 128 true) self' 512 8 2048 512 1024 l)
    as [Hl Hm].
  split; [by rewrite Hlin|]. split.
  - destruct (Hl Hlin) as [(scales & qzeros & Hs & _ & Hd & _ & Hsh & _) _].
    exists scales. split; [exact Hs|]. split; [exact Hd|exact Hsh].
  - exists self', l. split; [exact Hmoe|].
    destruct (Hm Hmoe) as (Hsh & _ & Hfull & _).
    split; [exact Hsh|exact Hfull].
Defined.

(** C1 as stated fails for the MoE down projection: on a row-parallel
    partition (1024 split into 512) with group size 128, the rule of the
    claim shards the scales when activation order is enabled (4 rows)
    and replicates them when it is disabled (8 rows); [create_weights]
    allocates 8 rows, loaded in full, when it is enabled and 4 rows when
    it is disabled. *)
Lemma moe_w2_scales_do_not_follow_linear_rule :
  let create desc_act :=
    GPTQMarlinMoEMethod.create_weights (H := stable_imports)
      (example_moe_method 4 128 desc_act) 512 8 2048 512 float16 1024 in
  spec_repeat_scales_on_all_ranks true 128 (bool_decide (1024 ≠ 512)) = false /\
  spec_repeat_scales_on_all_ranks false 128 (bool_decide (1024 ≠ 512)) = true /\
  (exists self' l,
     create true = Ok (self', l) /\
     shape (w2_scales l) = [8; 1024 `div` 128; 2048] /\
     shape (w2_scales l) ≠ [8; 512 `div` 128; 2048] /\
     w2_scales_load_full_w2 l = true) /\
  (exists self' l,
     create false = Ok (self', l) /\
     shape (w2_scales l) = [8; 512 `div` 128; 2048] /\
     shape (w2_scales l) ≠ [8; 1024 `div` 128; 2048] /\
     w2_scales_load_full_w2 l = false).
Proof.
  intros create. split; [reflexivity|]. split; [reflexivity|].
  split; vm_compute; do 2 eexists; (split; [reflexivity|]);
    repeat split; discriminate.
Qed.

(** ** Channel-wise quantization and activation order *)



(** * Further properties *)

(** ** The configuration object *)

(** X1: a configuration the constructor returns has a pack factor of 8
    or 4 with [pack_factor * weight_bits = 32], is symmetric, keeps the
    group size, the per-layer rules, the [lm_head] flag and the full
    config it was given, and has activation order on only if it was
    asked for with a group size other than -1. *)
Theorem config_invariants
    (bits gs : Z) (da sym lm : bool) (dyn : pydict (pydict value))
    (full : pydict value) (cfg : GPTQMarlinConfig.t) :
  GPTQMarlinConfig.__init__ bits gs da sym lm dyn full = Ok cfg ->
  GPTQMarlinConfig.pack_factor cfg * GPTQMarlinConfig.weight_bits cfg = 32 /\
  (GPTQMarlinConfig.pack_factor cfg = 8 \/ GPTQMarlinConfig.pack_factor cfg = 4) /\
  GPTQMarlinConfig.is_sym cfg = true /\
  GPTQMarlinConfig.group_size cfg = gs /\
  GPTQMarlinConfig.desc_act cfg = da && negb (bool_decide (gs = -1)) /\
  GPTQMarlinConfig.dynamic cfg = dyn /\
  GPTQMarlinConfig.lm_head_quantized cfg = lm /\
  GPTQMarlinConfig.full_config cfg = full.
Proof.
  intros Hi. apply config_init_Ok in Hi as (Hb & qt & Hqt & ->). simpl.
  apply TYPE_MAP_lookup_Some in Hqt as [(-> & -> & _) | (-> & -> & _)].
  - repeat split; auto. by destruct da, (bool_decide (gs = -1)).
  - repeat split; auto. by destruct da, (bool_decide (gs = -1)).
Qed.

Lemma config_invariants_witness :
  let cfg := example_config 8 (-1) false in
  GPTQMarlinConfig.__init__ 8 (-1) true true false [] [] = Ok cfg /\
  GPTQMarlinConfig.pack_factor cfg * GPTQMarlinConfig.weight_bits cfg = 32 /\
  GPTQMarlinConfig.desc_act cfg = false.
Proof.
  intros cfg.
  assert (GPTQMarlinConfig.__init__ 8 (-1) true true false [] [] = Ok cfg)
    as Hi by (vm_compute; reflexivity).
  split; [exact Hi|].
  destruct (config_invariants 8 (-1) true true false [] [] cfg Hi)
    as (Hp & _ & _ & _ & Hd & _).
  split; [exact Hp | exact Hd].
Defined.

(** X2: constructing a configuration again from the fields of a
    constructed one gives the same configuration: the constructor's
    normalisation of [desc_act] is idempotent and nothing else is
    changed. *)
Theorem config_reconstruct_same
    (bits gs : Z) (da sym lm : bool) (dyn : pydict (pydict value))
    (full : pydict value) (cfg : GPTQMarlinConfig.t) :
  GPTQMarlinConfig.__init__ bits gs da sym lm dyn full = Ok cfg ->
  GPTQMarlinConfig.__init__ (GPTQMarlinConfig.weight_bits cfg)
    (GPTQMarlinConfig.group_size cfg) (GPTQMarlinConfig.desc_act cfg)
    (GPTQMarlinConfig.is_sym cfg) (GPTQMarlinConfig.lm_head_quantized cfg)
    (GPTQMarlinConfig.dynamic cfg) (GPTQMarlinConfig.full_config cfg)
  = Ok cfg.
Proof.
  intros Hi. apply config_init_Ok in Hi as (Hb & qt & Hqt & ->). simpl.
  apply config_init_Ok. split; [done|]. exists qt. split; [done|].
  f_equal. destruct da; simpl; [|done]. by case_bool_decide.
Qed.

Lemma config_reconstruct_same_witness :
  let cfg := example_config 4 (-1) false in
  GPTQMarlinConfig.__init__ 4 (-1) true true false [] [] = Ok cfg /\
  GPTQMarlinConfig.__init__ 4 (-1) false true false [] [] = Ok cfg.
Proof.
  intros cfg.
  assert (GPTQMarlinConfig.__init__ 4 (-1) true true false [] [] = Ok cfg)
    as Hi by (vm_compute; reflexivity).
  split; [exact Hi|].
  exact (config_reconstruct_same 4 (-1) true true false [] [] cfg Hi).
Defined.

(** X3: the MoE method can always be built on a configuration the
    constructor returned: [GPTQMarlinMoEMethod.__init__] does not reach
    its [ValueError], takes over the configuration's quantization type
    and leaves [is_k_full] unset. *)
Theorem moe_method_of_constructed_config
    (bits gs : Z) (da sym lm : bool) (dyn : pydict (pydict value))
    (full : pydict value) (cfg : GPTQMarlinConfig.t) :
  GPTQMarlinConfig.__init__ bits gs da sym lm dyn full = Ok cfg ->
  GPTQMarlinMoEMethod.__init__ cfg
  = Ok {| GPTQMarlinMoEMethod.quant_config := cfg;
          GPTQMarlinMoEMethod.quant_type := GPTQMarlinConfig.quant_type cfg;
          GPTQMarlinMoEMethod.is_k_full := None |}.
Proof.
  intros Hi. apply config_init_Ok in Hi as (Hb & qt & Hqt & ->).
  by apply TYPE_MAP_lookup_Some in Hqt as [(-> & -> & ->) | (-> & -> & ->)].
Qed.

Lemma moe_method_of_constructed_config_witness :
  let cfg := example_config 8 128 true in
  GPTQMarlinConfig.__init__ 8 128 true true false [] [] = Ok cfg /\
  GPTQMarlinMoEMethod.quant_type <$> GPTQMarlinMoEMethod.__init__ cfg
  = Ok scalar_types.uint8b128.
Proof.
  intros cfg.
  assert (GPTQMarlinConfig.__init__ 8 128 true true false [] [] = Ok cfg)
    as Hi by (vm_compute; reflexivity).
  split; [exact Hi|].
  rewrite (moe_method_of_constructed_config 8 128 true true false [] [] cfg Hi).
  reflexivity.
Defined.

(** ** The linear method: what create_weights does to its state *)

Lemma floordiv_nonzero a b : b ≠ 0 -> floordiv a b = Ok (a `div` b).
Proof. intros Hb. unfold floordiv. by rewrite decide_False. Qed.

Lemma torch_empty_nonneg sizes dt :
  Forall (fun d => 0 <= d) sizes -> torch_empty sizes dt = Ok (Tensor sizes dt).
Proof. intros Hs. unfold torch_empty. by rewrite decide_True. Qed.

(** Either the call succeeds, or neither the layer nor the method object
    has changed. *)
Lemma linear_create_weights_cases `{LinearImports} ispp ops isz osz dt st r st' :
  GPTQMarlinLinearMethod.create_weights ispp ops isz osz dt st = (r, st') ->
  r = Ok () \/
  (GPTQMarlinLinearMethod.layer st' = GPTQMarlinLinearMethod.layer st /\
   GPTQMarlinLinearMethod.self st' = GPTQMarlinLinearMethod.self st).
Proof.
  unfold GPTQMarlinLinearMethod.create_weights,
    GPTQMarlinLinearMethod.register_parameter,
    mbind, M_bind, get_state, lift, modify, mret, M_ret.
  intros Hc.
  repeat (case_match; simplify_eq/=); auto.
  all: try (right; split; reflexivity).
  all: try (left; by destruct r as [[]|]).
Qed.

(** The class-level set of kernel names has the chosen kernel added as
    soon as the chooser has answered; if the chooser raises, nothing at
    all has changed. *)
Lemma linear_create_weights_backends `{LinearImports} ispp ops isz osz dt st r st' :
  GPTQMarlinLinearMethod.create_weights ispp ops isz osz dt st = (r, st') ->
  match choose_mp_linear_kernel
          (linear_kernel_config
             (GPTQMarlinLinearMethod.quant_config
                (GPTQMarlinLinearMethod.self st)) ispp ops isz osz dt) with
  | Ok kernel_type =>
      GPTQMarlinLinearMethod._kernel_backends_being_used st'
      = {[ kernel_type ]} ∪ GPTQMarlinLinearMethod._kernel_backends_being_used st
  | Raise e => r = Raise e /\ st' = st
  end.
Proof.
  unfold linear_kernel_config.
  unfold GPTQMarlinLinearMethod.create_weights,
    GPTQMarlinLinearMethod.register_parameter,
    mbind, M_bind, get_state, lift, modify, mret, M_ret.
  intros Hc.
  destruct (choose_mp_linear_kernel _) as [kt|e]; simpl in Hc.
  - assert (forall X : gset string, kt ∈ X -> X = {[ kt ]} ∪ X) as Hin.
    { intros X HX. symmetry.
      by apply subseteq_union_1_L, singleton_subseteq_l. }
    repeat (case_match; simplify_eq/=); auto.
  - by simplify_eq/=.
Qed.

(** X4: a linear [create_weights] that raises has registered no
    parameter and set no kernel: the layer and the method object are as
    before the call.  The class-level set of kernel names is not rolled
    back: once the chooser has answered, the kernel's name is in it. *)
Theorem linear_create_weights_failure `{LinearImports}
    (ispp : Z) (ops : list Z) (isz osz : Z) (dt : dtype)
    (st : GPTQMarlinLinearMethod.state) (e : exn)
    (st' : GPTQMarlinLinearMethod.state) :
  GPTQMarlinLinearMethod.create_weights ispp ops isz osz dt st
    = (Raise e, st') ->
  GPTQMarlinLinearMethod.layer st' = GPTQMarlinLinearMethod.layer st /\
  GPTQMarlinLinearMethod.self st' = GPTQMarlinLinearMethod.self st /\
  forall kernel_type,
    choose_mp_linear_kernel
      (linear_kernel_config
         (GPTQMarlinLinearMethod.quant_config
            (GPTQMarlinLinearMethod.self st)) ispp ops isz osz dt)
      = Ok kernel_type ->
    GPTQMarlinLinearMethod._kernel_backends_being_used st'
    = {[ kernel_type ]} ∪ GPTQMarlinLinearMethod._kernel_backends_being_used st.
Proof.
  intros Hc.
  destruct (linear_create_weights_cases _ _ _ _ _ _ _ _ Hc) as [? | [Hl Hs]];
    [done|].
  split; [done|]. split; [done|].
  intros kt Hk. apply linear_create_weights_backends in Hc.
  by rewrite Hk in Hc.
Qed.

Lemma linear_create_weights_failure_witness :
  let st := example_linear_state (example_config 4 0 false) in
  let run :=
    GPTQMarlinLinearMethod.create_weights (H := example_linear_imports)
      128 [64] 128 64 float16 st in
  run.1 = Raise ZeroDivisionError /\
  GPTQMarlinLinearMethod.layer run.2 = ∅ /\
  GPTQMarlinLinearMethod._kernel_backends_being_used run.2
  = {[ "MarlinLinearKernel" ]} ∪ ∅.
Proof.
  intros st run.
  assert (run = (Raise ZeroDivisionError, run.2)) as Hrun
    by (vm_compute; reflexivity).
  split; [by rewrite Hrun|].
  destruct (linear_create_weights_failure (H := example_linear_imports)
              128 [64] 128 64 float16 st ZeroDivisionError run.2 Hrun)
    as (Hl & _ & Hb).
  split; [exact Hl|]. exact (Hb "MarlinLinearKernel" eq_refl).
Defined.



Lemma linear_finalize_with_kernel `{LinearImports}
    (st : GPTQMarlinLinearMethod.state) k :
  GPTQMarlinLinearMethod.kernel (GPTQMarlinLinearMethod.self st) = Some k ->
  GPTQMarlinLinearMethod.process_weights_after_loading st
  = match kernel_process_weights_after_loading k
            (GPTQMarlinLinearMethod.layer st) with
    | Ok layer' =>
        (Ok (), GPTQMarlinLinearMethod.set_layer (fun _ => layer') st)
    | Raise e => (Raise e, st)
    end.
Proof.
  intros Hk.
  unfold GPTQMarlinLinearMethod.process_weights_after_loading,
    mbind, M_bind, get_state, lift.
  rewrite Hk. by destruct (kernel_process_weights_after_loading k _).
Qed.

(** X6: a successful linear [create_weights] touches only the four
    parameter names [qweight], [g_idx], [scales] and [qzeros] of the
    layer, keeps the method's configuration, records the chosen kernel
    in the class-level set, and stores a kernel built from the request
    the chooser saw, with the four parameter names; the finalize step
    that follows is that kernel's, run on the layer as created. *)
Theorem linear_create_weights_bookkeeping `{LinearImports}
    (ispp : Z) (ops : list Z) (isz osz : Z) (dt : dtype)
    (st st' : GPTQMarlinLinearMethod.state) :
  GPTQMarlinLinearMethod.create_weights ispp ops isz osz dt st = (Ok (), st') ->
  let cfg :=
    GPTQMarlinLinearMethod.quant_config (GPTQMarlinLinearMethod.self st) in
  let request := linear_kernel_config cfg ispp ops isz osz dt in
  (forall name, name ∉ ["qweight"; "g_idx"; "scales"; "qzeros"] ->
     GPTQMarlinLinearMethod.layer st' !! name
     = GPTQMarlinLinearMethod.layer st !! name) /\
  GPTQMarlinLinearMethod.quant_config (GPTQMarlinLinearMethod.self st') = cfg /\
  exists kernel_type,
    choose_mp_linear_kernel request = Ok kernel_type /\
    GPTQMarlinLinearMethod.kernel (GPTQMarlinLinearMethod.self st')
      = Some (linear_kernel kernel_type request) /\
    GPTQMarlinLinearMethod._kernel_backends_being_used st'
      = {[ kernel_type ]} ∪ GPTQMarlinLinearMethod._kernel_backends_being_used st /\
    GPTQMarlinLinearMethod.process_weights_after_loading st'
      = match kernel_process_weights_after_loading
                (linear_kernel kernel_type request)
                (GPTQMarlinLinearMethod.layer st') with
        | Ok layer' =>
            (Ok (), GPTQMarlinLinearMethod.set_layer (fun _ => layer') st')
        | Raise e => (Raise e, st')
        end.
Proof.
  intros Hc cfg request.
  pose proof (linear_create_weights_backends _ _ _ _ _ _ _ _ Hc) as Hbk.
  fold cfg request in Hbk.
  unfold GPTQMarlinLinearMethod.create_weights,
    GPTQMarlinLinearMethod.register_parameter in Hc.
  apply M_bind_Ok in Hc as (? & ? & [-> ->]%get_state_Ok & Hc).
  apply M_bind_Ok in Hc as (kt & ? & [Hk ->]%lift_Ok & Hc).
  apply M_bind_Ok in Hc as ([] & st1 & Hb & Hc).
  change (choose_mp_linear_kernel request = Ok kt) in Hk.
  rewrite Hk in Hbk.
  assert (GPTQMarlinLinearMethod.layer st1 = GPTQMarlinLinearMethod.layer st /\
          GPTQMarlinLinearMethod.self st1 = GPTQMarlinLinearMethod.self st)
    as (Hl & Hs).
  { case_decide as Hin; inv_M; simpl; repeat split; done. }
  assert (exists p1 p2 p3 p4,
    st' = GPTQMarlinLinearMethod.set_kernel (linear_kernel kt request)
      (GPTQMarlinLinearMethod.set_layer (<["qzeros" := p4]>)
         (GPTQMarlinLinearMethod.set_layer (<["scales" := p3]>)
            (GPTQMarlinLinearMethod.set_layer (<["g_idx" := p2]>)
               (GPTQMarlinLinearMethod.set_layer (<["qweight" := p1]>) st1)))))
    as (p1 & p2 & p3 & p4 & ->).
  { destruct (marlin_repeat_scales_on_all_ranks _ _ _); inv_M;
      do 4 eexists; reflexivity. }
  split; [|split; [by simpl; rewrite Hs|]].
  - intros name Hn. simpl. rewrite Hl.
    rewrite !lookup_insert_ne; [done|..]; intros <-; apply Hn;
      repeat first [apply list_elem_of_here | apply list_elem_of_further].
  - exists kt. split; [done|]. split; [reflexivity|]. split; [exact Hbk|].
    by apply linear_finalize_with_kernel.
Qed.

Lemma linear_create_weights_bookkeeping_witness :
  let st := example_linear_state (example_config 4 32 true) in
  let run :=
    GPTQMarlinLinearMethod.create_weights (H := example_linear_imports)
      128 [64] 128 64 float16 st in
  run.1 = Ok () /\
  GPTQMarlinLinearMethod.layer run.2 !! "bias" = None /\
  GPTQMarlinLinearMethod.quant_config (GPTQMarlinLinearMethod.self run.2)
  = example_config 4 32 true.
Proof.
  intros st run.
  assert (run = (Ok (), run.2)) as Hrun by (vm_compute; reflexivity).
  split; [by rewrite Hrun|].
  destruct (linear_create_weights_bookkeeping (H := example_linear_imports)
              128 [64] 128 64 float16 st run.2 Hrun)
    as (Hother & Hcfg & _).
  split; [|exact Hcfg].
  rewrite Hother; [reflexivity|].
  intros Hin. by repeat (apply elem_of_cons in Hin as [Hin | Hin];
                         [discriminate Hin|]); apply elem_of_nil in Hin.
Defined.

(** ** The MoE method: from create_weights to finalize *)



(** The index tensors, the workspace and the method object a successful
    MoE [create_weights] leaves. *)
Lemma moe_create_weights_g_idx `{MoEImports} self lispp E hidden ispp dt full
    self' l :
  GPTQMarlinMoEMethod.create_weights self lispp E hidden ispp dt full
    = Ok (self', l) ->
  0 <= E /\ 0 <= hidden /\ 0 <= ispp /\
  w13_g_idx l = replicate (Z.to_nat E) (replicate (Z.to_nat hidden) uninit) /\
  w2_g_idx l = replicate (Z.to_nat E) (replicate (Z.to_nat ispp) uninit) /\
  w13_g_idx_sort_indices l
    = replicate (Z.to_nat E) (replicate (Z.to_nat hidden) uninit) /\
  w2_g_idx_sort_indices l
    = replicate (Z.to_nat E) (replicate (Z.to_nat ispp) uninit) /\
  workspace l = marlin_make_workspace_new 4 /\
  is_transposed l = true /\
  self' =
    {| GPTQMarlinMoEMethod.quant_config := GPTQMarlinMoEMethod.quant_config self;
       GPTQMarlinMoEMethod.quant_type := GPTQMarlinMoEMethod.quant_type self;
       GPTQMarlinMoEMethod.is_k_full :=
         Some (negb (GPTQMarlinConfig.desc_act
                       (GPTQMarlinMoEMethod.quant_config self))
               || bool_decide (ispp = full)) |}.
Proof.
  unfold GPTQMarlinMoEMethod.create_weights. intros Hc.
  apply result_bind_Ok in Hc as ([[s13 s2] strategy] & Hs & Hc).
  inv_M.
  repeat match goal with
  | Hx : torch_empty2 _ _ = Ok _ |- _ =>
      apply torch_empty2_Ok in Hx; destruct Hx as [[? ?] ->]
  end.
  subst. simpl. repeat split; done.
Qed.

(** X8: a layer that the MoE [create_weights] has created, once the
    loader has written [g_idx] rows of the allocated lengths into it, is
    a layer finalize accepts: with an [argsort] that sorts and kernels
    that take three-dimensional tensors, and sizes below [2^31],
    [process_weights_after_loading] succeeds on it and makes four kernel
    calls. *)
Theorem moe_created_layer_finalizes `{MoEImports}
    (self self' : GPTQMarlinMoEMethod.t) (lispp E hidden ispp : Z)
    (dt : dtype) (full : Z) (l : moe_layer) (g13 g2 : itensor2)
    (calls : list call) :
  GPTQMarlinMoEMethod.create_weights self lispp E hidden ispp dt full
    = Ok (self', l) ->
  argsort_contract argsort ->
  kernels_accept ->
  hidden < 2 ^ 31 -> ispp < 2 ^ 31 ->
  length <$> g13 = length <$> w13_g_idx l ->
  length <$> g2 = length <$> w2_g_idx l ->
  loaded_layer (load_g_idx g13 g2 l) /\
  exists st',
    GPTQMarlinMoEMethod.process_weights_after_loading self'
      {| layer := load_g_idx g13 g2 l; trace := calls |} = (Ok (), st') /\
    length (trace st') = (length calls + 4)%nat.
Proof.
  intros Hc Hargsort Hkernels Hh Hi H13 H2.
  destruct (moe_create_weights_g_idx _ _ _ _ _ _ _ _ _ Hc)
    as (HE & Hh0 & Hi0 & E13 & E2 & _).
  destruct (moe_create_weights_Ok _ _ _ _ _ _ _ _ _ Hc)
    as (s13 & s2 & strategy & _ & _ & _ & Hq13 & Hq2 & Hs13 & Hs2 & _).
  rewrite E13 in H13. rewrite E2 in H2.
  rewrite fmap_replicate, length_replicate in H13, H2.
  assert (length g13 = Z.to_nat E) as L13
    by (by rewrite <- (length_fmap length), H13, length_replicate).
  assert (length g2 = Z.to_nat E) as L2
    by (by rewrite <- (length_fmap length), H2, length_replicate).
  assert (forall g n, length <$> g = replicate (Z.to_nat E) (Z.to_nat n) ->
            0 <= n -> n < 2 ^ 31 ->
            Forall (fun row : list Z => Z.of_nat (length row) < 2 ^ 31) g)
    as Hrows.
  { intros g n Hg Hn0 Hn. apply Forall_forall. intros row Hrow.
    assert (length row ∈ length <$> g) as Hin by (by apply list_elem_of_fmap_2).
    rewrite Hg in Hin. apply elem_of_replicate in Hin as [-> _]. lia. }
  assert (loaded_layer (load_g_idx g13 g2 l)) as Hl.
  { split; simpl.
    - by rewrite L13, L2.
    - by apply (Hrows g13 hidden).
    - by apply (Hrows g2 ispp).
    - by rewrite Hq13.
    - by rewrite Hq2.
    - by rewrite Hs13.
    - by rewrite Hs2. }
  split; [done|].
  destruct (finalize_succeeds Hargsort Hkernels self'
              {| layer := load_g_idx g13 g2 l; trace := calls |} Hl)
    as (st' & Hrun & Hl' & Ht).
  exists st'. by split.
Qed.

Lemma moe_created_layer_finalizes_witness :
  exists self' l,
    GPTQMarlinMoEMethod.create_weights (H := stable_imports)
      (example_moe_method 4 2 true) 4 2 4 4 float16 4 = Ok (self', l) /\
    loaded_layer (load_g_idx example_g13 example_g2 l) /\
    exists st',
      GPTQMarlinMoEMethod.process_weights_after_loading (H := stable_imports)
        self' {| layer := load_g_idx example_g13 example_g2 l; trace := [] |}
      = (Ok (), st') /\
      length (trace st') = 4%nat.
Proof.
  assert (exists self' l,
            GPTQMarlinMoEMethod.create_weights (H := stable_imports)
              (example_moe_method 4 2 true) 4 2 4 4 float16 4 = Ok (self', l) /\
            length <$> example_g13 = length <$> w13_g_idx l /\
            length <$> example_g2 = length <$> w2_g_idx l)
    as (self' & l & Hc & H13 & H2).
  { eexists _, _. split; [reflexivity|]. split; reflexivity. }
  exists self', l. split; [exact Hc|].
  exact (moe_created_layer_finalizes (H := stable_imports)
           (example_moe_method 4 2 true) self' 4 2 4 4 float16 4 l
           example_g13 example_g2 [] Hc ties_first_contract
           (example_kernels_accept _) eq_refl eq_refl H13 H2).
Defined.

(** The activation-order step changes nothing but the four index
    tensors, whatever its outcome. *)
Lemma process_act_order_weights `{MoEImports} self st r st' :
  GPTQMarlinMoEMethod.process_act_order self st = (r, st') ->
  trace st' = trace st /\
  w13_qweight (layer st') = w13_qweight (layer st) /\
  w2_qweight (layer st') = w2_qweight (layer st) /\
  w13_scales (layer st') = w13_scales (layer st) /\
  w2_scales (layer st') = w2_scales (layer st) /\
  same_zeros_and_attrs (layer st) (layer st').
Proof.
  unfold GPTQMarlinMoEMethod.process_act_order, mbind, M_bind, get_state, lift,
    update_layer, modify, same_zeros_and_attrs.
  destruct (GPTQMarlinConfig.desc_act _).
  - destruct (for_each _ _ _); intros [= <- <-]; simpl; by repeat split.
  - intros [= <- <-]; simpl; by repeat split.
Qed.

(** A successful finalize is a successful activation-order step
    followed by the two repack steps; the state [st1] in between has the
    trace, weights, scales and attributes of the start and the index
    tensors of the end. *)
Lemma finalize_Ok_steps `{MoEImports} self st st' :
  GPTQMarlinMoEMethod.process_weights_after_loading self st = (Ok (), st') ->
  exists st1 st2,
    GPTQMarlinMoEMethod.repack_weights self st1 = (Ok (), st2) /\
    GPTQMarlinMoEMethod.repack_scales self st2 = (Ok (), st') /\
    trace st1 = trace st /\
    w13_qweight (layer st1) = w13_qweight (layer st) /\
    w2_qweight (layer st1) = w2_qweight (layer st) /\
    w13_scales (layer st1) = w13_scales (layer st) /\
    w2_scales (layer st1) = w2_scales (layer st) /\
    intermediate_size_per_partition (layer st1)
    = intermediate_size_per_partition (layer st) /\
    same_index_tensors (layer st1) (layer st').
Proof.
  intros Hp. unfold GPTQMarlinMoEMethod.process_weights_after_loading in Hp.
  apply M_bind_Ok in Hp as ([] & st1 & Hact & Hp).
  apply M_bind_Ok in Hp as ([] & st2 & Hw & Hs).
  apply process_act_order_weights in Hact
    as (Ht1 & Hq13 & Hq2 & Hs13 & Hs2 & _ & _ & _ & Hi & _).
  exists st1, st2. repeat (split; [done|]).
  pose proof (repack_weights_index_tensors _ _ _ _ Hw) as (? & ? & ? & ?).
  pose proof (repack_scales_index_tensors _ _ _ _ Hs) as (? & ? & ? & ?).
  repeat split; congruence.
Qed.

(** The four kernel calls of the two repack steps run one after the
    other, with their arguments. *)
Lemma repack_Ok_calls `{MoEImports} self st1 st2 st' :
  GPTQMarlinMoEMethod.repack_weights self st1 = (Ok (), st2) ->
  GPTQMarlinMoEMethod.repack_scales self st2 = (Ok (), st') ->
  let cfg := GPTQMarlinMoEMethod.quant_config self in
  let pf := GPTQMarlinConfig.pack_factor cfg in
  let gs := GPTQMarlinConfig.group_size cfg in
  let bits := size_bits (GPTQMarlinConfig.quant_type cfg) in
  let l := layer st1 in
  exists k13 n13 k2 n2 sn13 rows2 sn2,
    shape (w13_qweight l) !! 1%nat = Some k13 /\
    shape (w13_qweight l) !! 2%nat = Some n13 /\
    shape (w2_qweight l) !! 1%nat = Some k2 /\
    shape (w2_qweight l) !! 2%nat = Some n2 /\
    shape (w13_scales l) !! 2%nat = Some sn13 /\
    shape (w2_scales l) !! 1%nat = Some rows2 /\
    shape (w2_scales l) !! 2%nat = Some sn2 /\
    trace st' = trace st1 ++
      [Call_gptq_marlin_moe_repack (w13_qweight l)
         (w13_g_idx_sort_indices l) (k13 * pf) n13 bits;
       Call_gptq_marlin_moe_repack (w2_qweight l)
         (w2_g_idx_sort_indices l) (k2 * pf) n2 bits;
       Call_marlin_moe_permute_scales (w13_scales l)
         (intermediate_size_per_partition l) sn13 gs;
       Call_marlin_moe_permute_scales (w2_scales l)
         (GPTQMarlinMoEMethod.w2_scales_size_k cfg rows2) sn2 gs].
Proof.
  intros Hw Hs cfg pf gs bits l.
  unfold GPTQMarlinMoEMethod.repack_weights in Hw.
  unfold GPTQMarlinMoEMethod.repack_scales in Hs.
  inv_moe. simpl in *.
  do 7 eexists. repeat (split; [eassumption|]).
  rewrite <- !app_assoc. reflexivity.
Qed.

(** X9: a successful MoE finalize makes exactly four kernel calls, in
    this order: the repack of [w13_qweight] and of [w2_qweight], each on
    the tensor as loaded, with the sort indices finalize leaves in the
    layer, [size_k] the packed row count times the pack factor and the
    bit width of the configured type; then the scale permutation of
    [w13_scales] with [size_k] the layer's
    [intermediate_size_per_partition], and of [w2_scales] with [size_k]
    its row count times the group size (the pack factor when the group
    size is -1). *)
Theorem moe_finalize_calls `{MoEImports}
    (self : GPTQMarlinMoEMethod.t) (st st' : moe_state) :
  GPTQMarlinMoEMethod.process_weights_after_loading self st = (Ok (), st') ->
  let cfg := GPTQMarlinMoEMethod.quant_config self in
  let pf := GPTQMarlinConfig.pack_factor cfg in
  let gs := GPTQMarlinConfig.group_size cfg in
  let bits := size_bits (GPTQMarlinConfig.quant_type cfg) in
  let l := layer st in
  exists k13 n13 k2 n2 sn13 rows2 sn2,
    shape (w13_qweight l) !! 1%nat = Some k13 /\
    shape (w13_qweight l) !! 2%nat = Some n13 /\
    shape (w2_qweight l) !! 1%nat = Some k2 /\
    shape (w2_qweight l) !! 2%nat = Some n2 /\
    shape (w13_scales l) !! 2%nat = Some sn13 /\
    shape (w2_scales l) !! 1%nat = Some rows2 /\
    shape (w2_scales l) !! 2%nat = Some sn2 /\
    trace st' = trace st ++
      [Call_gptq_marlin_moe_repack (w13_qweight l)
         (w13_g_idx_sort_indices (layer st')) (k13 * pf) n13 bits;
       Call_gptq_marlin_moe_repack (w2_qweight l)
         (w2_g_idx_sort_indices (layer st')) (k2 * pf) n2 bits;
       Call_marlin_moe_permute_scales (w13_scales l)
         (intermediate_size_per_partition l) sn13 gs;
       Call_marlin_moe_permute_scales (w2_scales l)
         (GPTQMarlinMoEMethod.w2_scales_size_k cfg rows2) sn2 gs].
Proof.
  intros Hp cfg pf gs bits l.
  destruct (finalize_Ok_steps _ _ _ Hp)
    as (st1 & st2 & Hw & Hs & Ht1 & Hq13 & Hq2 & Hs13 & Hs2 & Hi
        & _ & _ & Hsi13 & Hsi2).
  destruct (repack_Ok_calls _ _ _ _ Hw Hs)
    as (k13 & n13 & k2 & n2 & sn13 & rows2 & sn2 & A1 & A2 & A3 & A4 & A5
        & A6 & A7 & Ht).
  rewrite Hq13, Hq2, Hs13, Hs2, Hi, Ht1, <- Hsi13, <- Hsi2 in *.
  exists k13, n13, k2, n2, sn13, rows2, sn2. by repeat (split; [done|]).
Qed.

Lemma moe_finalize_calls_witness :
  let run :=
    GPTQMarlinMoEMethod.process_weights_after_loading (H := stable_imports)
      (example_moe_method 4 2 true)
      (example_state example_g13 example_g2) in
  run.1 = Ok () /\
  exists perm13 perm2,
    trace run.2 =
      [Call_gptq_marlin_moe_repack (Tensor [2; 1; 8] int32) perm13 8 8 4;
       Call_gptq_marlin_moe_repack (Tensor [2; 1; 4] int32) perm2 8 4 4;
       Call_marlin_moe_permute_scales (Tensor [2; 2; 8] float16) 4 8 2;
       Call_marlin_moe_permute_scales (Tensor [2; 2; 4] float16) 4 4 2].
Proof.
  intros run.
  assert (run = (Ok (), run.2)) as Hrun by (vm_compute; reflexivity).
  split; [by rewrite Hrun|].
  destruct (moe_finalize_calls (H := stable_imports)
              (example_moe_method 4 2 true)
              (example_state example_g13 example_g2) run.2 Hrun)
    as (k13 & n13 & k2 & n2 & sn13 & rows2 & sn2 & A1 & A2 & A3 & A4 & A5
        & A6 & A7 & Ht).
  injection A1 as <-. injection A2 as <-. injection A3 as <-.
  injection A4 as <-. injection A5 as <-. injection A6 as <-.
  injection A7 as <-.
  eexists _, _. exact Ht.
Defined.

(** X10: for a layer made by [create_weights], the four kernel calls of
    finalize get their sizes from the arguments of [create_weights]:
    the repacks see [size_k] equal to the hidden size and to the
    intermediate size per partition, each rounded down to a multiple of
    the pack factor, and [size_n] equal to twice the intermediate size
    and to the hidden size; the scale permutation of [w13_scales] sees
    the layer's own [intermediate_size_per_partition] as [size_k]; and
    that of [w2_scales] sees the pack factor when the group size is -1
    and otherwise the input size of the down projection (the full
    intermediate size under activation order) rounded down to a
    multiple of the group size. *)
Theorem moe_created_layer_kernel_sizes `{MoEImports}
    (self self' : GPTQMarlinMoEMethod.t) (lispp E hidden ispp : Z)
    (dt : dtype) (full : Z) (l : moe_layer) (g13 g2 : itensor2)
    (st' : moe_state) :
  GPTQMarlinMoEMethod.create_weights self lispp E hidden ispp dt full
    = Ok (self', l) ->
  GPTQMarlinMoEMethod.process_weights_after_loading self'
    {| layer := load_g_idx g13 g2 l; trace := [] |} = (Ok (), st') ->
  let cfg := GPTQMarlinMoEMethod.quant_config self in
  let pf := GPTQMarlinConfig.pack_factor cfg in
  let gs := GPTQMarlinConfig.group_size cfg in
  let bits := size_bits (GPTQMarlinConfig.quant_type cfg) in
  let w2_k := if GPTQMarlinConfig.desc_act cfg then full else ispp in
  let w2_size_k := if decide (gs = -1) then pf else w2_k `div` gs * gs in
  trace st' =
    [Call_gptq_marlin_moe_repack (w13_qweight l)
       (w13_g_idx_sort_indices (layer st')) (hidden `div` pf * pf)
       (2 * ispp) bits;
     Call_gptq_marlin_moe_repack (w2_qweight l)
       (w2_g_idx_sort_indices (layer st')) (ispp `div` pf * pf) hidden bits;
     Call_marlin_moe_permute_scales (w13_scales l) lispp (2 * ispp) gs;
     Call_marlin_moe_permute_scales (w2_scales l) w2_size_k hidden gs] /\
  (hidden `mod` pf = 0 -> hidden `div` pf * pf = hidden) /\
  (ispp `mod` pf = 0 -> ispp `div` pf * pf = ispp) /\
  (gs ≠ -1 -> w2_k `mod` gs = 0 -> w2_size_k = w2_k).
Proof.
  intros Hc Hrun cfg pf gs bits w2_k w2_size_k.
  destruct (moe_create_weights_Ok _ _ _ _ _ _ _ _ _ Hc)
    as (s13 & s2 & strategy & Hs & Hpf & _ & Hq13 & Hq2 & Hs13 & Hs2 & _ & _
        & _ & _ & _ & _ & _ & Hl & Hcfg & _).
  fold cfg in Hs, Hcfg. fold pf in Hpf, Hq13, Hq2.
  destruct (finalize_Ok_steps _ _ _ Hrun)
    as (st1 & st2 & Hw & Hsc & Ht1 & Gq13 & Gq2 & Gs13 & Gs2 & Gi
        & _ & _ & Hsi13 & Hsi2).
  destruct (repack_Ok_calls _ _ _ _ Hw Hsc)
    as (k13 & n13 & k2 & n2 & sn13 & rows2 & sn2 & A1 & A2 & A3 & A4 & A5
        & A6 & A7 & Ht).
  rewrite Gq13, Gq2, Gs13, Gs2, Gi, Ht1, <- Hsi13, <- Hsi2 in *.
  clear Hw Hsc.
  simpl in A1, A2, A3, A4, A5, A6, A7, Ht.
  rewrite Hq13 in A1, A2. rewrite Hq2 in A3, A4. rewrite Hs13 in A5.
  rewrite Hs2 in A6, A7. simpl in *.
  injection A1 as <-. injection A2 as <-. injection A3 as <-.
  injection A4 as <-. injection A5 as <-. injection A6 as <-.
  injection A7 as <-.
  rewrite Hcfg, Hl in Ht. fold cfg pf gs bits in Ht.
  assert (GPTQMarlinMoEMethod.w2_scales_size_k cfg s2 = w2_size_k) as Hk.
  { subst w2_size_k w2_k. unfold GPTQMarlinMoEMethod.w2_scales_size_k.
    fold gs pf.
    apply scales_sizes_Ok in Hs as [(Hg & _ & -> & _) | (Hg & _ & _ & -> & _)];
      fold gs in Hg.
    - rewrite decide_False by (intros Hn; by apply Hn).
      rewrite decide_True by done. lia.
    - rewrite decide_True by done. by rewrite decide_False. }
  rewrite Hk in Ht. split; [exact Ht|].
  split; [|split].
  - intros Hm. rewrite Z.mul_comm. symmetry. by apply Z.div_exact.
  - intros Hm. rewrite Z.mul_comm. symmetry. by apply Z.div_exact.
  - intros Hg Hm. subst w2_size_k. rewrite decide_False by done.
    assert (gs ≠ 0) as Hg0.
    { apply scales_sizes_Ok in Hs as [(? & _) | (_ & ? & _)]; done. }
    rewrite Z.mul_comm. symmetry. by apply Z.div_exact.
Qed.

Lemma moe_created_layer_kernel_sizes_witness :
  exists self' l st',
    GPTQMarlinMoEMethod.create_weights (H := stable_imports)
      (example_moe_method 4 4 false) 8 2 16 8 float16 16 = Ok (self', l) /\
    GPTQMarlinMoEMethod.process_weights_after_loading (H := stable_imports)
      self' {| layer := load_g_idx example_g13 example_g2 l; trace := [] |}
    = (Ok (), st') /\
    exists perm13 perm2,
      trace st' =
        [Call_gptq_marlin_moe_repack (w13_qweight l) perm13 16 16 4;
         Call_gptq_marlin_moe_repack (w2_qweight l) perm2 8 16 4;
         Call_marlin_moe_permute_scales (w13_scales l) 8 16 4;
         Call_marlin_moe_permute_scales (w2_scales l) 8 16 4].
Proof.
  assert (exists self' l,
            GPTQMarlinMoEMethod.create_weights (H := stable_imports)
              (example_moe_method 4 4 false) 8 2 16 8 float16 16
            = Ok (self', l) /\
            (GPTQMarlinMoEMethod.process_weights_after_loading
               (H := stable_imports) self'
               {| layer := load_g_idx example_g13 example_g2 l;
                  trace := [] |}).1
            = Ok ())
    as (self' & l & Hc & Hok).
  { eexists _, _. split; [reflexivity | vm_compute; reflexivity]. }
  pose proof (surjective_pairing
                (GPTQMarlinMoEMethod.process_weights_after_loading
                   (H := stable_imports) self'
                   {| layer := load_g_idx example_g13 example_g2 l;
                      trace := [] |})) as Hrun.
  rewrite Hok in Hrun.
  exists self', l. eexists. split; [exact Hc|]. split; [exact Hrun|].
  pose proof (moe_created_layer_kernel_sizes (H := stable_imports)
                (example_moe_method 4 4 false) self' 8 2 16 8 float16 16 l
                example_g13 example_g2 _ Hc Hrun) as Hsizes.
  cbv zeta in Hsizes. destruct Hsizes as [Ht _].
  eexists _, _. exact Ht.
Defined.

(** ** What finalize leaves alone *)

Lemma repack_weights_zeros `{MoEImports} self st r st' :
  GPTQMarlinMoEMethod.repack_weights self st = (r, st') ->
  same_zeros_and_attrs (layer st) (layer st').
Proof.
  unfold GPTQMarlinMoEMethod.repack_weights, mbind, M_bind, get_state, lift,
    call_ext, update_layer, modify, same_zeros_and_attrs.
  repeat case_match; intros ?; simplify_eq/=; done.
Qed.

Lemma repack_scales_zeros `{MoEImports} self st r st' :
  GPTQMarlinMoEMethod.repack_scales self st = (r, st') ->
  same_zeros_and_attrs (layer st) (layer st').
Proof.
  unfold GPTQMarlinMoEMethod.repack_scales, mbind, M_bind, get_state, lift,
    call_ext, update_layer, modify, same_zeros_and_attrs.
  repeat case_match; intros ?; simplify_eq/=; done.
Qed.

Lemma same_zeros_and_attrs_trans l1 l2 l3 :
  same_zeros_and_attrs l1 l2 -> same_zeros_and_attrs l2 l3 ->
  same_zeros_and_attrs l1 l3.
Proof.
  unfold same_zeros_and_attrs.
  intros (? & ? & ? & ? & ? & ? & ? & ?) (? & ? & ? & ? & ? & ? & ? & ?).
  repeat split; congruence.
Qed.

Ltac solve_trace_growth :=
  first
    [ exists []; split; [by rewrite app_nil_r | simpl; lia]
    | rewrite <- ?app_assoc; eexists; split; [reflexivity | simpl; lia] ].

Lemma repack_weights_trace `{MoEImports} self st r st' :
  GPTQMarlinMoEMethod.repack_weights self st = (r, st') ->
  exists calls, trace st' = trace st ++ calls /\ (length calls <= 2)%nat.
Proof.
  unfold GPTQMarlinMoEMethod.repack_weights, mbind, M_bind, get_state, lift,
    call_ext, update_layer, modify.
  repeat case_match; intros ?; simplify_eq/=; solve_trace_growth.
Qed.

Lemma repack_scales_trace `{MoEImports} self st r st' :
  GPTQMarlinMoEMethod.repack_scales self st = (r, st') ->
  exists calls, trace st' = trace st ++ calls /\ (length calls <= 2)%nat.
Proof.
  unfold GPTQMarlinMoEMethod.repack_scales, mbind, M_bind, get_state, lift,
    call_ext, update_layer, modify.
  repeat case_match; intros ?; simplify_eq/=; solve_trace_growth.
Qed.

(** X11: whatever its outcome, the MoE finalize never writes the zero
    points [w13_qzeros] and [w2_qzeros], the workspace or the layer's
    attributes, and it makes at most four kernel calls, appended to
    those made before. *)
Theorem moe_finalize_leaves_zero_points `{MoEImports}
    (self : GPTQMarlinMoEMethod.t) (st : moe_state) (r : result ())
    (st' : moe_state) :
  GPTQMarlinMoEMethod.process_weights_after_loading self st = (r, st') ->
  same_zeros_and_attrs (layer st) (layer st') /\
  exists calls, trace st' = trace st ++ calls /\ (length calls <= 4)%nat.
Proof.
  unfold GPTQMarlinMoEMethod.process_weights_after_loading.
  unfold mbind at 1, M_bind at 1.
  destruct (GPTQMarlinMoEMethod.process_act_order self st) as [[[]|e] st1]
    eqn:Hact.
  2:{ intros [= <- <-].
      apply process_act_order_weights in Hact as (Ht & _ & _ & _ & _ & Hz).
      split; [exact Hz|]. exists []. rewrite app_nil_r.
      split; [done|simpl; lia]. }
  apply process_act_order_weights in Hact as (Ht1 & _ & _ & _ & _ & Hz1).
  unfold mbind, M_bind.
  destruct (GPTQMarlinMoEMethod.repack_weights self st1) as [[[]|e] st2] eqn:Hw.
  - intros Hs.
    pose proof (repack_weights_zeros _ _ _ _ Hw) as Hz2.
    pose proof (repack_scales_zeros _ _ _ _ Hs) as Hz3.
    destruct (repack_weights_trace _ _ _ _ Hw) as (c2 & Ht2 & Hl2).
    destruct (repack_scales_trace _ _ _ _ Hs) as (c3 & Ht3 & Hl3).
    split.
    + eapply same_zeros_and_attrs_trans; [|exact Hz3].
      eapply same_zeros_and_attrs_trans; [exact Hz1|exact Hz2].
    + exists (c2 ++ c3). rewrite Ht3, Ht2, Ht1, app_assoc.
      split; [done|]. rewrite length_app. lia.
  - intros [= <- <-].
    pose proof (repack_weights_zeros _ _ _ _ Hw) as Hz2.
    destruct (repack_weights_trace _ _ _ _ Hw) as (c2 & Ht2 & Hl2).
    split.
    + eapply same_zeros_and_attrs_trans; [exact Hz1|exact Hz2].
    + exists c2. rewrite Ht2, Ht1. split; [done|lia].
Qed.

Lemma moe_finalize_leaves_zero_points_witness :
  let run :=
    GPTQMarlinMoEMethod.process_weights_after_loading (H := rejecting_imports)
      (example_moe_method 4 2 true)
      (example_state example_g13 example_g2) in
  run.1 = Raise RuntimeError /\
  w13_qzeros (layer run.2) = Tensor [2; 2; 1] float16 /\
  workspace (layer run.2) = Tensor [4] int32.
Proof.
  intros run. split; [vm_compute; reflexivity|].
  destruct (moe_finalize_leaves_zero_points (H := rejecting_imports)
              (example_moe_method 4 2 true)
              (example_state example_g13 example_g2) run.1 run.2
              (surjective_pairing run))
    as [(Hz & _ & Hw & _) _].
  split; [exact Hz | exact Hw].
Defined.

(** ** The sorted index tensors *)

Lemma sorted_row_perm `{MoEImports} row :
  argsort_contract argsort -> Z.of_nat (length row) < 2 ^ 31 ->
  sorted_row row ≡ₚ row.
Proof.
  intros Hargsort Hlen. destruct (Hargsort row) as [Hperm _].
  unfold sorted_row. rewrite (sort_indices_row_eq Hargsort) by done.
  rewrite Hperm. by rewrite value_at_positions.
Qed.

Lemma sorted_row_sorted `{MoEImports} row :
  argsort_contract argsort -> Z.of_nat (length row) < 2 ^ 31 ->
  Sorted Z.le (sorted_row row).
Proof.
  intros Hargsort Hlen.
  by destruct (expert_sorted_row Hargsort row Hlen) as (_ & _ & ? & _).
Qed.

#[local] Instance Zle_antisymm : AntiSymm eq Z.le.
Proof. intros a b ? ?. lia. Qed.

(** Sorting a sorted row again gives the same row. *)
Lemma sorted_row_idemp `{MoEImports} row :
  argsort_contract argsort -> Z.of_nat (length row) < 2 ^ 31 ->
  sorted_row (sorted_row row) = sorted_row row.
Proof.
  intros Hargsort Hlen.
  assert (Z.of_nat (length (sorted_row row)) < 2 ^ 31) as Hlen'
    by (by rewrite (length_sorted_row Hargsort)).
  apply (Sorted_unique Z.le).
  - by apply sorted_row_sorted.
  - by apply sorted_row_sorted.
  - by apply sorted_row_perm.
Qed.

(** X12: with activation order on, finalize loses no group id: for
    every expert the [g_idx] row it stores is a permutation of the row
    that was loaded, and the sort indices it stores are distinct
    in-range positions, one for each element of the row; the number of
    experts is unchanged.  This holds whatever the kernels answer
    afterwards. *)
Theorem moe_sorted_g_idx_is_permutation `{MoEImports}
    (self : GPTQMarlinMoEMethod.t) (st : moe_state) (r : result ())
    (st' : moe_state) :
  argsort_contract argsort ->
  loaded_layer (layer st) ->
  GPTQMarlinConfig.desc_act (GPTQMarlinMoEMethod.quant_config self) = true ->
  GPTQMarlinMoEMethod.process_weights_after_loading self st = (r, st') ->
  rows_permuted (w13_g_idx (layer st)) (w13_g_idx (layer st'))
    (w13_g_idx_sort_indices (layer st')) /\
  rows_permuted (w2_g_idx (layer st)) (w2_g_idx (layer st'))
    (w2_g_idx_sort_indices (layer st')).
Proof.
  intros Hargsort Hl Hda Hrun.
  pose proof (process_act_order_sorted Hargsort self st Hda Hl) as Hact.
  destruct (finalize_index_tensors _ _ _ _ _ Hact Hrun)
    as (H13 & H2 & Hs13 & Hs2).
  destruct Hl as [_ Hr13 Hr2 _ _ _ _].
  rewrite H13, H2, Hs13, Hs2. simpl.
  assert (forall g, Forall (fun row => Z.of_nat (length row) < 2 ^ 31) g ->
            rows_permuted g (sorted_row <$> g) (sort_indices_row <$> g)) as Hok.
  { intros g Hg. unfold rows_permuted. rewrite !length_fmap.
    split; [done|]. split; [done|].
    intros e row He. exists (sorted_row row), (sort_indices_row row).
    rewrite !list_lookup_fmap, He. simpl.
    assert (Z.of_nat (length row) < 2 ^ 31) as Hlen
      by (by eapply (Forall_lookup_1 _ _ _ _ Hg)).
    destruct (Hargsort row) as [Hperm _].
    rewrite (sort_indices_row_eq Hargsort) by done.
    split; [done|]. split; [done|]. split; [by apply sorted_row_perm|].
    split; [by apply perm_length|].
    split; [by eapply perm_NoDup | by apply perm_in_range]. }
  split; by apply Hok.
Qed.

Lemma moe_sorted_g_idx_is_permutation_witness :
  let run :=
    GPTQMarlinMoEMethod.process_weights_after_loading (H := stable_imports)
      (example_moe_method 4 2 true)
      (example_state example_g13 example_g2) in
  w13_g_idx (layer run.2) !! 0%nat = Some [0; 0; 1; 1] /\
  exists sorted p,
    w13_g_idx (layer run.2) !! 0%nat = Some sorted /\
    w13_g_idx_sort_indices (layer run.2) !! 0%nat = Some p /\
    sorted ≡ₚ [1; 0; 1; 0] /\ NoDup p.
Proof.
  intros run. split; [vm_compute; reflexivity|].
  destruct (moe_sorted_g_idx_is_permutation (H := stable_imports)
              (example_moe_method 4 2 true)
              (example_state example_g13 example_g2) run.1 run.2
              ties_first_contract example_layer_loaded eq_refl
              (surjective_pairing run)) as [(_ & _ & H13) _].
  destruct (H13 0%nat [1; 0; 1; 0] eq_refl)
    as (sorted & p & Hs & Hp & Hperm & _ & Hnd & _).
  exists sorted, p.
  split; [exact Hs|]. split; [exact Hp|]. split; [exact Hperm | exact Hnd].
Defined.

(** The activation-order step needs only the index tensors to be well
    shaped. *)
Lemma process_act_order_sorted_rows `{MoEImports} self st :
  argsort_contract argsort ->
  GPTQMarlinConfig.desc_act (GPTQMarlinMoEMethod.quant_config self) = true ->
  length (w2_g_idx (layer st)) = length (w13_g_idx (layer st)) ->
  Forall (fun row => Z.of_nat (length row) < 2 ^ 31) (w13_g_idx (layer st)) ->
  Forall (fun row => Z.of_nat (length row) < 2 ^ 31) (w2_g_idx (layer st)) ->
  GPTQMarlinMoEMethod.process_act_order self st
    = (Ok (), {| layer := sorted_layer (layer st); trace := trace st |}).
Proof.
  intros Hargsort Hda Hlen Hr13 Hr2.
  unfold GPTQMarlinMoEMethod.process_act_order.
  set (acc0 :=
    {| acc_w13_g_idx_sort_indices := torch_empty_like (w13_g_idx (layer st));
       acc_w2_g_idx_sort_indices := torch_empty_like (w2_g_idx (layer st));
       acc_w13_sorted_g_idx := torch_empty_like (w13_g_idx (layer st));
       acc_w2_sorted_g_idx := torch_empty_like (w2_g_idx (layer st)) |}).
  assert (sort_inv (layer st) acc0 0) as Hinv0
    by (split; [|split; [|split]]; apply filled_init).
  destruct (sort_loop Hargsort (layer st) (length (w13_g_idx (layer st))) 0 acc0
              Hlen Hr13 Hr2 Hinv0 eq_refl)
    as (acc & Eacc & Ha & Hb & Hc & Hd).
  apply filled_full in Ha. rewrite <- Hlen in Hb, Hd.
  apply filled_full in Hb. apply filled_full in Hc. apply filled_full in Hd.
  unfold mbind, M_bind, get_state. rewrite Hda. unfold lift.
  subst acc0. rewrite Eacc.
  unfold update_layer, modify. simpl.
  unfold sorted_layer. rewrite Ha, Hb, Hc, Hd. done.
Qed.

(** X13: finalizing a second time does not change the [g_idx] tensors
    the first finalize left, whatever the kernels answered in either
    run: with activation order on the rows are already sorted and
    sorting them again gives the same rows, and with it off they are
    empty and stay empty, as do the sort indices. *)
Theorem moe_second_finalize_keeps_g_idx `{MoEImports}
    (self : GPTQMarlinMoEMethod.t) (st : moe_state) (r1 r2 : result ())
    (st1 st2 : moe_state) :
  argsort_contract argsort ->
  loaded_layer (layer st) ->
  GPTQMarlinMoEMethod.process_weights_after_loading self st = (r1, st1) ->
  GPTQMarlinMoEMethod.process_weights_after_loading self st1 = (r2, st2) ->
  w13_g_idx (layer st2) = w13_g_idx (layer st1) /\
  w2_g_idx (layer st2) = w2_g_idx (layer st1) /\
  (GPTQMarlinConfig.desc_act (GPTQMarlinMoEMethod.quant_config self) = false ->
   w13_g_idx_sort_indices (layer st2) = w13_g_idx_sort_indices (layer st1) /\
   w2_g_idx_sort_indices (layer st2) = w2_g_idx_sort_indices (layer st1)).
Proof.
  intros Hargsort Hl Hrun1 Hrun2.
  destruct (GPTQMarlinConfig.desc_act (GPTQMarlinMoEMethod.quant_config self))
    eqn:Hda.
  - pose proof (process_act_order_sorted Hargsort self st Hda Hl) as Hact1.
    destruct (finalize_index_tensors _ _ _ _ _ Hact1 Hrun1)
      as (A13 & A2 & _ & _).
    simpl in A13, A2.
    destruct Hl as [Hlen Hr13 Hr2 _ _ _ _].
    assert (forall g, Forall (fun row => Z.of_nat (length row) < 2 ^ 31) g ->
              Forall (fun row => Z.of_nat (length row) < 2 ^ 31)
                (sorted_row <$> g)) as Hshort.
    { intros g Hg. apply Forall_fmap. eapply Forall_impl; [exact Hg|].
      intros row ?. simpl. by rewrite (length_sorted_row Hargsort). }
    assert (forall g, Forall (fun row => Z.of_nat (length row) < 2 ^ 31) g ->
              sorted_row <$> (sorted_row <$> g) = sorted_row <$> g) as Hidem.
    { intros g Hg. rewrite <- list_fmap_compose.
      apply Forall_fmap_ext. eapply Forall_impl; [exact Hg|].
      intros row ?. simpl. by apply sorted_row_idemp. }
    pose proof (process_act_order_sorted_rows self st1 Hargsort Hda) as Hact2.
    rewrite A13, A2 in Hact2. rewrite !length_fmap in Hact2.
    specialize (Hact2 Hlen (Hshort _ Hr13) (Hshort _ Hr2)).
    destruct (finalize_index_tensors _ _ _ _ _ Hact2 Hrun2)
      as (B13 & B2 & _ & _).
    simpl in B13, B2. rewrite A13 in B13. rewrite A2 in B2.
    rewrite B13, B2, A13, A2.
    split; [by apply Hidem|]. split; [by apply Hidem|]. done.
  - pose proof (process_act_order_reset self st Hda) as Hact1.
    destruct (finalize_index_tensors _ _ _ _ _ Hact1 Hrun1)
      as (A13 & A2 & As13 & As2).
    pose proof (process_act_order_reset self st1 Hda) as Hact2.
    destruct (finalize_index_tensors _ _ _ _ _ Hact2 Hrun2)
      as (B13 & B2 & Bs13 & Bs2).
    simpl in *. rewrite A13 in B13, B2, Bs13, Bs2.
    unfold torch_empty_n_0 in *. rewrite length_replicate in B13, B2, Bs13, Bs2.
    rewrite B13, B2, Bs13, Bs2, A13, A2, As13, As2. done.
Qed.

Lemma moe_second_finalize_keeps_g_idx_witness :
  let run1 :=
    GPTQMarlinMoEMethod.process_weights_after_loading (H := stable_imports)
      (example_moe_method 4 2 true)
      (example_state example_g13 example_g2) in
  let run2 :=
    GPTQMarlinMoEMethod.process_weights_after_loading (H := stable_imports)
      (example_moe_method 4 2 true) run1.2 in
  w13_g_idx (layer run1.2) = [[0; 0; 1; 1]; [0; 0; 1; 1]] /\
  w13_g_idx (layer run2.2) = w13_g_idx (layer run1.2) /\
  w2_g_idx (layer run2.2) = w2_g_idx (layer run1.2).
Proof.
  intros run1 run2. split; [vm_compute; reflexivity|].
  destruct (moe_second_finalize_keeps_g_idx (H := stable_imports)
              (example_moe_method 4 2 true)
              (example_state example_g13 example_g2)
              run1.1 run2.1 run1.2 run2.2
              ties_first_contract example_layer_loaded
              (surjective_pairing run1) (surjective_pairing run2))
    as (H13 & H2 & _).
  split; [exact H13 | exact H2].
Defined.

(** ** Failure in the middle of finalize *)

(** X14: finalize is not atomic.  With activation order off, when the
    first repack raises, the exception is passed on and the layer is
    left with its four index tensors already reset to empty rows, the
    weights and scales as loaded, and the one kernel call made. *)
Theorem moe_finalize_failure_is_partial `{MoEImports}
    (self : GPTQMarlinMoEMethod.t) (st : moe_state) (k n : Z) (e : exn) :
  let cfg := GPTQMarlinMoEMethod.quant_config self in
  let first_call :=
    Call_gptq_marlin_moe_repack (w13_qweight (layer st))
      (torch_empty_n_0 (length (w13_g_idx (layer st))))
      (k * GPTQMarlinConfig.pack_factor cfg) n
      (size_bits (GPTQMarlinConfig.quant_type cfg)) in
  GPTQMarlinConfig.desc_act cfg = false ->
  shape (w13_qweight (layer st)) !! 1%nat = Some k ->
  shape (w13_qweight (layer st)) !! 2%nat = Some n ->
  gptq_marlin_moe_repack (w13_qweight (layer st))
    (torch_empty_n_0 (length (w13_g_idx (layer st))))
    (k * GPTQMarlinConfig.pack_factor cfg) n
    (size_bits (GPTQMarlinConfig.quant_type cfg)) = Raise e ->
  GPTQMarlinMoEMethod.process_weights_after_loading self st
  = (Raise e,
     {| layer := reset_layer (layer st); trace := trace st ++ [first_call] |}).
Proof.
  intros cfg first_call Hda Hk Hn Hraise.
  unfold GPTQMarlinMoEMethod.process_weights_after_loading.
  unfold mbind at 1, M_bind at 1.
  rewrite (process_act_order_reset self st Hda).
  unfold mbind at 1, M_bind at 1.
  unfold GPTQMarlinMoEMethod.repack_weights, mbind, M_bind, get_state, lift,
    shape_at, call_ext.
  simpl. rewrite Hk, Hn. fold cfg. rewrite Hraise. done.
Qed.

Lemma moe_finalize_failure_is_partial_witness :
  let st := example_state example_g13 example_g2 in
  GPTQMarlinMoEMethod.process_weights_after_loading (H := rejecting_imports)
    (example_moe_method 4 2 false) st
  = (Raise RuntimeError,
     {| layer := reset_layer (layer st);
        trace :=
          [Call_gptq_marlin_moe_repack (Tensor [2; 1; 8] int32) [[]; []]
             8 8 4] |}) /\
  w13_g_idx (reset_layer (layer st)) = [[]; []].
Proof.
  intros st. split; [|reflexivity].
  exact (moe_finalize_failure_is_partial (H := rejecting_imports)
           (example_moe_method 4 2 false) st 1 8 RuntimeError
           eq_refl eq_refl eq_refl eq_refl).
Defined.

(** ** MoE apply: the calls it makes *)

(** X15: [apply] never changes the layer, and it ends in one of three
    ways: it raises before any call; it calls [select_experts] and
    raises (the routing failed, or [is_k_full] was never set); or it
    calls [select_experts] and then [fused_marlin_moe], once each, and
    returns what the fused kernel returns.  The fused kernel gets the
    layer's weights, scales, index tensors and workspace, the routing
    result and the method's quantization type. *)
Theorem moe_apply_calls `{MoEImports}
    (self : GPTQMarlinMoEMethod.t) (a : apply_args) (st : moe_state)
    (r : result tensor) (st' : moe_state) :
  GPTQMarlinMoEMethod.apply self a st = (r, st') ->
  layer st' = layer st /\
  (trace st' = trace st /\ is_Raise r
   \/ trace st' = trace st ++ [Call_select_experts a] /\ is_Raise r /\
      enable_eplb a = false /\ activation a = "silu"
   \/ exists topk_weights topk_ids k_full,
        enable_eplb a = false /\ activation a = "silu" /\
        select_experts a = Ok (topk_weights, topk_ids) /\
        GPTQMarlinMoEMethod.is_k_full self = Some k_full /\
        let args :=
          fused_args self (layer st) a topk_weights topk_ids k_full in
        trace st' = trace st ++ [Call_select_experts a; Call_fused_marlin_moe args] /\
        r = fused_marlin_moe args).
Proof.
  unfold GPTQMarlinMoEMethod.apply.
  destruct (enable_eplb a).
  { intros [= <- <-]. split; [done|]. left. split; [done|by eexists]. }
  case_bool_decide as Hact; simpl.
  2:{ intros [= <- <-]. split; [done|]. left. split; [done|by eexists]. }
  unfold mbind, M_bind, call_ext, get_state, lift.
  destruct (select_experts a) as [[w ids]|e] eqn:Hsel.
  2:{ intros [= <- <-]. split; [done|]. right. left.
      repeat split; try done. by eexists. }
  simpl. destruct (GPTQMarlinMoEMethod.is_k_full self) as [b|] eqn:Hk.
  2:{ intros [= <- <-]. split; [done|]. right. left.
      repeat split; try done. by eexists. }
  intros [= <- <-]. split; [done|]. right. right.
  exists w, ids, b. repeat split; try done.
  simpl. by rewrite <- app_assoc.
Qed.

Lemma moe_apply_calls_witness :
  let st := example_state example_g13 example_g2 in
  let args :=
    default_apply_args (Tensor [1; 4] float16) (Tensor [1; 2] float16) 1 true in
  let run :=
    GPTQMarlinMoEMethod.apply (H := stable_imports)
      (example_moe_method 4 2 true) args st in
  run.1 = Ok (Tensor [1; 4] float16) /\
  length (trace run.2) = 2%nat /\
  layer run.2 = layer st.
Proof.
  intros st args run.
  split; [vm_compute; reflexivity|]. split; [vm_compute; reflexivity|].
  destruct (moe_apply_calls (H := stable_imports)
              (example_moe_method 4 2 true) args st run.1 run.2
              (surjective_pairing run)) as [Hl _].
  exact Hl.
Defined.

(** X16: [apply] works only on a method object that has been through
    [create_weights].  On the object as [__init__] leaves it, a call
    that passes the two checks routes the tokens and then raises
    [AttributeError], because [is_k_full] is set nowhere else.  On the
    object [create_weights] returns, the same call reaches the fused
    kernel, with [is_k_full] false exactly when activation order is on
    and the intermediate size is sharded, and with the quantization type
    chosen by [__init__]. *)
Theorem moe_apply_needs_create_weights `{MoEImports}
    (cfg : GPTQMarlinConfig.t) (self0 self' : GPTQMarlinMoEMethod.t)
    (lispp E hidden ispp : Z) (dt : dtype) (full : Z) (l : moe_layer)
    (a : apply_args) (st : moe_state) (topk_weights topk_ids : tensor) :
  GPTQMarlinMoEMethod.__init__ cfg = Ok self0 ->
  GPTQMarlinMoEMethod.create_weights self0 lispp E hidden ispp dt full
    = Ok (self', l) ->
  enable_eplb a = false ->
  activation a = "silu" ->
  select_experts a = Ok (topk_weights, topk_ids) ->
  let k_full :=
    negb (GPTQMarlinConfig.desc_act cfg) || bool_decide (ispp = full) in
  let args := fused_args self' (layer st) a topk_weights topk_ids k_full in
  GPTQMarlinMoEMethod.apply self0 a st
    = (Raise AttributeError,
       {| layer := layer st; trace := trace st ++ [Call_select_experts a] |}) /\
  GPTQMarlinMoEMethod.apply self' a st
    = (fused_marlin_moe args,
       {| layer := layer st;
          trace := trace st ++ [Call_select_experts a;
                                Call_fused_marlin_moe args] |}) /\
  fm_quant_type args = GPTQMarlinMoEMethod.quant_type self0 /\
  (k_full = false <->
   GPTQMarlinConfig.desc_act cfg = true /\ ispp ≠ full).
Proof.
  intros Hinit Hc Heplb Hact Hsel k_full args.
  assert (GPTQMarlinMoEMethod.quant_config self0 = cfg /\
          GPTQMarlinMoEMethod.is_k_full self0 = None) as [Hcfg Hk0].
  { unfold GPTQMarlinMoEMethod.__init__ in Hinit.
    repeat case_decide; simplify_eq/=; done. }
  destruct (moe_create_weights_g_idx _ _ _ _ _ _ _ _ _ Hc)
    as (_ & _ & _ & _ & _ & _ & _ & _ & _ & Hself).
  rewrite Hcfg in Hself. fold k_full in Hself.
  split; [|split; [|split]].
  - unfold GPTQMarlinMoEMethod.apply. rewrite Heplb, Hact. simpl.
    unfold mbind, M_bind, call_ext, get_state, lift.
    rewrite Hsel. simpl. by rewrite Hk0.
  - subst args. unfold GPTQMarlinMoEMethod.apply. rewrite Heplb, Hact. simpl.
    unfold mbind, M_bind, call_ext, get_state, lift.
    rewrite Hsel. simpl. rewrite Hself. simpl.
    by rewrite <- app_assoc.
  - subst args. by rewrite Hself.
  - subst k_full. destruct (GPTQMarlinConfig.desc_act cfg); simpl.
    + rewrite bool_decide_eq_false. split; [done|by intros [_ ?]].
    + split; [done|by intros [? _]].
Qed.

Lemma moe_apply_needs_create_weights_witness :
  let st := example_state example_g13 example_g2 in
  let a :=
    default_apply_args (Tensor [1; 4] float16) (Tensor [1; 2] float16) 1 true in
  exists self0 self' l,
    GPTQMarlinMoEMethod.__init__ (example_config 4 2 true) = Ok self0 /\
    GPTQMarlinMoEMethod.create_weights (H := stable_imports) self0
      4 2 4 4 float16 8 = Ok (self', l) /\
    (GPTQMarlinMoEMethod.apply (H := stable_imports) self0 a st).1
    = Raise AttributeError /\
    (GPTQMarlinMoEMethod.apply (H := stable_imports) self' a st).1
    = Ok (Tensor [1; 4] float16).
Proof.
  intros st a.
  assert (exists self0 self' l,
            GPTQMarlinMoEMethod.__init__ (example_config 4 2 true) = Ok self0 /\
            GPTQMarlinMoEMethod.create_weights (H := stable_imports) self0
              4 2 4 4 float16 8 = Ok (self', l))
    as (self0 & self' & l & Hinit & Hc).
  { eexists _, _, _. split; reflexivity. }
  exists self0, self', l. split; [exact Hinit|]. split; [exact Hc|].
  pose proof (moe_apply_needs_create_weights (H := stable_imports)
                (example_config 4 2 true) self0 self' 4 2 4 4 float16 8 l
                a st (Tensor [1] float32) (Tensor [1] int32)
                Hinit Hc eq_refl eq_refl eq_refl) as Happly.
  cbv zeta in Happly. destruct Happly as (H0 & H1 & _).
  split; [by rewrite H0 | by rewrite H1].
Defined.

(** ** Compatibility of a checkpoint *)


Lemma type_map_key_lookup num_bits sym qt :
  type_map_key num_bits sym ≫= (GPTQMarlinConfig.TYPE_MAP !!.) = Some qt
  <-> py_int sym = Some 1 /\
      (py_int num_bits = Some 4 /\ qt = scalar_types.uint4b8
       \/ py_int num_bits = Some 8 /\ qt = scalar_types.uint8b128).
Proof.
  unfold type_map_key. split.
  - destruct (py_int num_bits) as [b|]; [|done].
    destruct (py_int sym) as [[|[]|]|]; simpl; try done.
    + intros [(_ & [=] & _) | (_ & [=] & _)]%TYPE_MAP_lookup_Some.
    + intros [(-> & _ & ->) | (-> & _ & ->)]%TYPE_MAP_lookup_Some; auto.
  - intros [-> [[-> ->] | [-> ->]]]; simpl; apply TYPE_MAP_lookup_Some; auto.
Qed.

(** What a checkpoint that is reported compatible holds. *)
Lemma compatible_Ok_true `{CompatImports}
    (quant_config : gmap string pyvalue) :
  is_gptq_marlin_compatible quant_config = Ok true ->
  exists method num_bits group_size sym desc_act quant_type,
        is_cuda = true /\
        dict_get quant_config "quant_method" (PyStr "") = PyStr method /\
        str_lower method = "gptq" /\
        quant_config !! "bits" = Some num_bits /\ num_bits ≠ PyNone /\
        quant_config !! "group_size" = Some group_size /\
        group_size ≠ PyNone /\
        quant_config !! "sym" = Some sym /\
        quant_config !! "desc_act" = Some desc_act /\ desc_act ≠ PyNone /\
        py_int sym = Some 1 /\
        (py_int num_bits = Some 4 /\ quant_type = scalar_types.uint4b8
         \/ py_int num_bits = Some 8 /\ quant_type = scalar_types.uint8b128) /\
        check_marlin_supported quant_type group_size = Ok true.
Proof.
  unfold is_gptq_marlin_compatible.
  intros Hc. apply result_bind_Ok in Hc as (method & Hm & Hc).
  destruct (dict_get quant_config "quant_method" (PyStr "")) as [| | |s]
    eqn:Hget; try done.
  injection Hm as <-.
  destruct is_cuda; [|done]. simpl in Hc.
  case_decide as Hg; [done|].
  case_decide as Hnone; [done|].
  destruct (type_map_key _ _ ≫= _) as [qt|] eqn:Hkey; [|done].
  apply type_map_key_lookup in Hkey as [Hsym Hbits].
  unfold dict_get in Hnone, Hsym, Hbits, Hc.
  destruct (quant_config !! "bits") as [nb|] eqn:E1;
    [|exfalso; apply Hnone; auto].
  destruct (quant_config !! "group_size") as [gsz|] eqn:E2;
    [|exfalso; apply Hnone; auto].
  destruct (quant_config !! "sym") as [sy|] eqn:E3;
    [|exfalso; apply Hnone; auto].
  destruct (quant_config !! "desc_act") as [da|] eqn:E4;
    [|exfalso; apply Hnone; auto].
  exists s, nb, gsz, sy, da, qt.
  repeat split; try done; intros ->; apply Hnone; auto.
Qed.

(** X17: the checkpoint is reported compatible exactly when the
    platform is CUDA, [quant_method] is a string that lower-cases to
    ["gptq"], the keys [bits], [group_size], [sym] and [desc_act] are
    all present with a value other than [None], [sym] equals [True]
    and [bits] equals 4 or 8 (as Python compares them, so [1] and
    [True] are the same key component), and [check_marlin_supported]
    accepts the type [TYPE_MAP] gives for that pair together with the
    group size.  The value of [desc_act] is not looked at further. *)
Theorem gptq_marlin_compatible_iff `{CompatImports}
    (quant_config : gmap string pyvalue) :
  is_gptq_marlin_compatible quant_config = Ok true
  <-> exists method num_bits group_size sym desc_act quant_type,
        is_cuda = true /\
        dict_get quant_config "quant_method" (PyStr "") = PyStr method /\
        str_lower method = "gptq" /\
        quant_config !! "bits" = Some num_bits /\ num_bits ≠ PyNone /\
        quant_config !! "group_size" = Some group_size /\
        group_size ≠ PyNone /\
        quant_config !! "sym" = Some sym /\
        quant_config !! "desc_act" = Some desc_act /\ desc_act ≠ PyNone /\
        py_int sym = Some 1 /\
        (py_int num_bits = Some 4 /\ quant_type = scalar_types.uint4b8
         \/ py_int num_bits = Some 8 /\ quant_type = scalar_types.uint8b128) /\
        check_marlin_supported quant_type group_size = Ok true.
Proof.
  split; [apply compatible_Ok_true|].
  intros (method & nb & gsz & sy & da & qt & Hcuda & Hget & Hlow & E1 & N1
          & E2 & N2 & E3 & E4 & N4 & Hsym & Hbits & Hchk).
  unfold is_gptq_marlin_compatible.
  rewrite Hget. simpl. rewrite Hcuda. simpl.
  unfold dict_get. rewrite E1, E2, E3, E4.
  case_decide as Hg; [by destruct Hg|].
  case_decide as Hnone.
  { destruct Hnone as [? | [? | [-> | ?]]]; done. }
  assert (type_map_key nb sy ≫= (GPTQMarlinConfig.TYPE_MAP !!.) = Some qt)
    as -> by (by apply type_map_key_lookup).
  done.
Qed.

Lemma gptq_marlin_compatible_iff_witness :
  is_gptq_marlin_compatible (H := example_compat_imports)
    (example_quant_config "GPTQ") = Ok true.
Proof.
  apply (gptq_marlin_compatible_iff (H := example_compat_imports)).
  exists "GPTQ", (PyInt 4), (PyInt 128), (PyBool true), (PyBool false),
    scalar_types.uint4b8.
  split; [reflexivity|]. split; [reflexivity|]. split; [reflexivity|].
  split; [reflexivity|]. split; [discriminate|].
  split; [reflexivity|]. split; [discriminate|].
  split; [reflexivity|]. split; [reflexivity|]. split; [discriminate|].
  split; [reflexivity|]. split; [left; split; reflexivity|].
  reflexivity.
Defined.

(** X18: the compatibility check lower-cases [quant_method] before it
    looks at the platform, so a [quant_method] entry that is not a
    string ([None], a number, a boolean) makes it raise
    [AttributeError] on every platform; with the key absent or a
    string, a platform other than CUDA is answered with [False]
    whatever else the config holds. *)
Theorem gptq_marlin_compatible_edge_cases `{CompatImports}
    (quant_config : gmap string pyvalue) :
  (forall v, quant_config !! "quant_method" = Some v ->
     (forall s, v ≠ PyStr s) ->
     is_gptq_marlin_compatible quant_config = Raise AttributeError) /\
  (is_cuda = false ->
   (quant_config !! "quant_method" = None
    \/ exists s, quant_config !! "quant_method" = Some (PyStr s)) ->
   is_gptq_marlin_compatible quant_config = Ok false).
Proof.
  split.
  - intros v Hv Hns. unfold is_gptq_marlin_compatible, dict_get. rewrite Hv.
    destruct v; try done. by destruct (Hns s).
  - intros Hcuda Hm. unfold is_gptq_marlin_compatible, dict_get.
    destruct Hm as [-> | [s ->]]; simpl; by rewrite Hcuda.
Qed.

Lemma gptq_marlin_compatible_edge_cases_witness :
  is_gptq_marlin_compatible (H := example_compat_imports)
    (<["quant_method" := PyNone]> (example_quant_config "gptq"))
  = Raise AttributeError.
Proof.
  apply (proj1 (gptq_marlin_compatible_edge_cases
                  (H := example_compat_imports)
                  (<["quant_method" := PyNone]> (example_quant_config "gptq")))
           PyNone).
  - reflexivity.
  - intros s. discriminate.
Defined.

(** X19: a checkpoint the compatibility check accepts can be loaded:
    with the [bits] and [sym] it holds, the configuration constructor
    succeeds for any group size and flags, and the quantization type of
    the configuration is the [TYPE_MAP] entry that
    [check_marlin_supported] was asked about. *)
Theorem compatible_config_constructs `{CompatImports}
    (quant_config : gmap string pyvalue) (bits group_size : Z)
    (sym desc_act lm : bool) (dyn : pydict (pydict value))
    (full : pydict value) :
  is_gptq_marlin_compatible quant_config = Ok true ->
  quant_config !! "bits" = Some (PyInt bits) ->
  quant_config !! "sym" = Some (PyBool sym) ->
  exists cfg,
    GPTQMarlinConfig.__init__ bits group_size desc_act sym lm dyn full = Ok cfg /\
    GPTQMarlinConfig.TYPE_MAP !! (bits, sym)
      = Some (GPTQMarlinConfig.quant_type cfg) /\
    exists gsz,
      quant_config !! "group_size" = Some gsz /\
      check_marlin_supported (GPTQMarlinConfig.quant_type cfg) gsz = Ok true.
Proof.
  intros Hc Hb Hs.
  apply compatible_Ok_true in Hc
    as (method & nb & gsz & sy & da & qt & _ & _ & _ & E1 & _ & E2 & _ & E3
        & _ & _ & Hsym & Hbits & Hchk).
  rewrite Hb in E1. injection E1 as <-.
  rewrite Hs in E3. injection E3 as <-.
  destruct sym; [|done]. simpl in Hbits.
  assert (bits ≠ 0 /\ GPTQMarlinConfig.TYPE_MAP !! (bits, true) = Some qt)
    as [Hnz Hqt].
  { destruct Hbits as [[[= ->] ->] | [[= ->] ->]]; split; try done;
      apply TYPE_MAP_lookup_Some; auto. }
  eexists. split.
  - apply config_init_Ok. split; [done|]. exists qt. split; [done|reflexivity].
  - simpl. split; [done|]. by exists gsz.
Qed.

Lemma compatible_config_constructs_witness :
  exists cfg,
    GPTQMarlinConfig.__init__ 4 128 false true false [] [] = Ok cfg /\
    GPTQMarlinConfig.TYPE_MAP !! (4, true)
    = Some (GPTQMarlinConfig.quant_type cfg).
Proof.
  assert (is_gptq_marlin_compatible (H := example_compat_imports)
            (example_quant_config "gptq") = Ok true) as Hc
    by (vm_compute; reflexivity).
  destruct (compatible_config_constructs (H := example_compat_imports)
              (example_quant_config "gptq") 4 128 true false false [] []
              Hc eq_refl eq_refl) as (cfg & Hi & Hqt & _).
  exists cfg. split; [exact Hi | exact Hqt].
Defined.

(** X20: [override_quantization_method] answers with a method name
    exactly when the checkpoint is compatible and the user asked for no
    method, for ["marlin"] or for ["gptq_marlin"], and the name is then
    ["gptq_marlin"]; a user who asked for ["gptq"], or for anything
    else, is never overridden. *)
Theorem override_quantization_method_iff `{CompatImports}
    (hf_quant_cfg : gmap string pyvalue) (user_quant : option string)
    (name : string) :
  override_quantization_method hf_quant_cfg user_quant = Ok (Some name)
  <-> name = "gptq_marlin" /\
      is_gptq_marlin_compatible hf_quant_cfg = Ok true /\
      (user_quant = None \/ user_quant = Some "marlin"
       \/ user_quant = Some "gptq_marlin").
Proof.
  unfold override_quantization_method. split.
  - intros Ho. apply result_bind_Ok in Ho as (can & Hcan & Ho).
    destruct can; simpl in Ho; [|done].
    case_bool_decide as Hu; [|done]. injection Ho as <-. done.
  - intros (-> & -> & Hu). simpl. by rewrite bool_decide_eq_true_2.
Qed.

Lemma override_quantization_method_iff_witness :
  override_quantization_method (H := example_compat_imports)
    (example_quant_config "gptq") (Some "marlin") = Ok (Some "gptq_marlin") /\
  override_quantization_method (H := example_compat_imports)
    (example_quant_config "gptq") (Some "gptq") ≠ Ok (Some "gptq_marlin").
Proof.
  split.
  - apply (override_quantization_method_iff (H := example_compat_imports)).
    split; [reflexivity|]. split; [vm_compute; reflexivity|].
    right. left. reflexivity.
  - intros Ho.
    apply (override_quantization_method_iff (H := example_compat_imports))
      in Ho as (_ & _ & [Hu | [Hu | Hu]]); discriminate Hu.
Defined.
